(** * Feature execution orchestrator: a shallow embedding

    The development follows the JavaScript / TypeScript sources:

    - [apps/server/src/services/feature-loader.ts]  (class [FeatureLoader],
      and the MCP server factory with the [UpdateFeatureStatus] tool),
    - [app/electron/services/feature-executor.js]   (class [FeatureExecutor]),
    - [apps/server/src/routes/running-agents.ts]    (the running-agents map),
    - [apps/server/src/lib/events.ts]               ([createEventEmitter]).

    Asynchronous functions are written in a state-and-exception monad over a
    [World]: the feature files on disk, the faults the operating system may
    inject into file operations, the trace of observable effects (console,
    transcript writes, renderer events), the execution handle, the working
    directory of the process and the calls made to the Electron-side
    [loadFeatures]. Paths are those of a POSIX system, as [path.posix]
    computes them. *)

From Stdlib Require Import Ascii String ZArith List Bool.
From stdpp Require Import gmap strings list fin_maps.

Open Scope string_scope.

(* ===================================================================== *)
(** ** JavaScript values, errors and completions *)
(* ===================================================================== *)

(** Values that [JSON.parse] produces. Numbers are kept as integers: no
    code under study reads a numeric field. A property that is absent
    ([undefined]) is the [None] of a lookup. *)
#[local] Unset Elimination Schemes.
Inductive JValue : Type :=
  | JNull
  | JBool (b : bool)
  | JNum (n : Z)
  | JStr (s : string)
  | JArr (items : list JValue)
  | JObj (fields : list (string * JValue)).
#[local] Set Elimination Schemes.

(** A parsed [feature.json]: an object with an open set of keys. *)
Abbreviation Feature := (gmap string JValue).

(** JavaScript truthiness of a property read. *)
Definition truthy (v : option JValue) : bool :=
  match v with
  | None => false
  | Some JNull => false
  | Some (JBool b) => b
  | Some (JNum n) => negb (Z.eqb n 0)
  | Some (JStr s) => negb (String.eqb s "")
  | Some (JArr _) => true
  | Some (JObj _) => true
  end.

(** [v === s] for a string literal [s]. *)
Definition strict_eq_string (v : option JValue) (s : string) : bool :=
  match v with
  | Some (JStr t) => String.eqb t s
  | _ => false
  end.

(** [v === true]. *)
Definition strict_eq_true (v : option JValue) : bool :=
  match v with
  | Some (JBool true) => true
  | _ => false
  end.

(** An [Error] object: whether it is an instance of the SDK's [AbortError]
    class, its [name], [message] and (for Node errors) [code] properties. *)
Record JsError : Type := mkJsError {
  instanceof_AbortError : bool;
  error_name : string;
  error_message : string;
  error_code : option string
}.

(** [new Error(msg)] *)
Definition new_Error (msg : string) : JsError :=
  {| instanceof_AbortError := false; error_name := "Error"; error_message := msg;
     error_code := None |}.

(** The error Node raises for a missing file. *)
Definition ENOENT : JsError :=
  {| instanceof_AbortError := false; error_name := "Error";
     error_message := "ENOENT: no such file or directory"; error_code := Some "ENOENT" |}.

Definition code_is (e : JsError) (c : string) : bool :=
  match error_code e with
  | Some c' => String.eqb c' c
  | None => false
  end.

(** How a call ends: it returns a value or it throws. *)
Inductive Completion (A : Type) : Type :=
  | Normal (a : A)
  | Throw (e : JsError).
Arguments Normal {A} a.
Arguments Throw {A} e.

Definition nl : string := String "010"%char EmptyString.
Definition dq : string := String "034"%char EmptyString.

(* ===================================================================== *)
(** ** Paths ([path.join], and the resolution the file system does) *)
(* ===================================================================== *)

Module PosixPath.

(** The segments of a path: the texts between the slashes. *)
Fixpoint split (path : string) : list string :=
  match path with
  | EmptyString => [""]
  | String c rest =>
      if Ascii.eqb c "/"%char then "" :: split rest
      else
        match split rest with
        | segment :: segments => String c segment :: segments
        | [] => [String c ""]
        end
  end.

Definition isAbsolute (path : string) : bool :=
  match path with
  | String c _ => Ascii.eqb c "/"%char
  | EmptyString => false
  end.

(** One step of the normalisation, on the directories entered so far (the
    innermost first): an empty segment and [.] stay where they are, [..]
    goes up one directory (the root is its own parent), a name goes down. *)
Definition enter (entered : list string) (segment : string) : list string :=
  if String.eqb segment "" || String.eqb segment "." then entered
  else if String.eqb segment ".." then tail entered
  else segment :: entered.

(** The file a path names: the names from the root down to it. This is
    [path.join(path, ...more)] resolved as the file system resolves it, a
    relative path against the working directory [cwd] of the process.
    [path.join] skips an empty argument, glues the others with slashes and
    normalises; it does not start again from the root at an argument that
    begins with a slash. Symbolic links are not followed. *)
Definition resolve (cwd path : string) (more : list string) : list string :=
  rev (fold_left enter
         ((if isAbsolute path then [] else split cwd) ++ split path ++ more) []).

(** [getFeaturesDir], [getFeatureDir], [getFeatureJsonPath] and
    [getAgentOutputPath] of [FeatureLoader], resolved. *)
Definition getFeaturesDir (cwd projectPath : string) : list string :=
  resolve cwd projectPath [".automaker"; "features"].

Definition getFeatureDir (cwd projectPath featureId : string) : list string :=
  resolve cwd projectPath ([".automaker"; "features"] ++ split featureId).

Definition getFeatureJsonPath (cwd projectPath featureId : string) : list string :=
  resolve cwd projectPath ([".automaker"; "features"] ++ split featureId ++ ["feature.json"]).

Definition getAgentOutputPath (cwd projectPath featureId : string) : list string :=
  resolve cwd projectPath
    ([".automaker"; "features"] ++ split featureId ++ ["agent-output.md"]).

(** [dir] is [file] or a directory above it. *)
Fixpoint contains (dir file : list string) : bool :=
  match dir, file with
  | [], _ => true
  | _ :: _, [] => false
  | d :: dir', f :: file' => String.eqb d f && contains dir' file'
  end.

(** A name of a file or of a directory: one segment, other than [.] and
    [..]. *)
Definition isName (s : string) : bool :=
  match split s with
  | [segment] =>
      negb (String.eqb segment "" || String.eqb segment "." || String.eqb segment "..")
  | _ => false
  end.

(** [path.basename(path)]: the last segment, trailing slashes apart. *)
Definition basename (path : string) : string :=
  List.last (List.filter (fun segment => negb (String.eqb segment "")) (split path)) "".

End PosixPath.

(* ===================================================================== *)
(** ** The world the services act on *)
(* ===================================================================== *)

(** The file names of the fault table are kept symbolic: [featureDir p f]
    stands for [path.join(p, ".automaker", "features", f)] and
    [featureJsonPath p f] for the [feature.json] inside it, with [p] and [f]
    as the caller wrote them. Which file such a name denotes is what
    [PosixPath] computes. *)
Inductive Path : Type :=
  | featureDir (projectPath featureId : string)
  | featureJsonPath (projectPath featureId : string).

Inductive FsOp : Type :=
  | op_readFile (p : Path)
  | op_writeFile (p : Path)
  | op_rm (p : Path).

Inductive Phase : Type := planning | action | verification.

(** Messages handed to [sendToRenderer]. *)
Inductive RendererEvent : Type :=
  | auto_mode_phase (featureId : string) (phase : Phase) (msg : string)
  | auto_mode_progress (featureId : string) (content : string)
  | auto_mode_tool (featureId : string) (tool : string) (input : JValue).

(** Observable effects, in the order they happen. *)
Inductive Effect : Type :=
  | console_log (line : string)
  | console_error (line : string) (e : JsError)
  | contextFile_write (projectPath featureId content : string)
  | renderer (ev : RendererEvent).

Inductive AbortController : Type := new_AbortController.
Inductive Query : Type := currentQuery.

(** The per-feature execution record of the executor: the fields the
    executor assigns. Its [isActive()] is answered by the environment each
    time the loop asks (see [AgentStep]). *)
Record Execution : Type := mkExecution {
  abortController : option AbortController;
  query : option Query
}.

Record World : Type := mkWorld {
  (** parsed content of [feature.json], by (projectPath, featureId): the
      file is the one [PosixPath.getFeatureJsonPath] gives for the key *)
  disk : gmap (string * string) Feature;
  (** the error, if any, the operating system raises for a file operation *)
  faults : FsOp -> option JsError;
  trace : list Effect;
  execution : Execution;
  (** [process.cwd()] *)
  cwd : string;
  (** the calls of the Electron-side [loadFeatures] made so far: the
      [projectPath] of each, in order *)
  loads : list string
}.

Definition with_disk (d : gmap (string * string) Feature) (w : World) : World :=
  {| disk := d; faults := faults w; trace := trace w; execution := execution w;
     cwd := cwd w; loads := loads w |}.

Definition with_trace (t : list Effect) (w : World) : World :=
  {| disk := disk w; faults := faults w; trace := t; execution := execution w;
     cwd := cwd w; loads := loads w |}.

Definition with_execution (x : Execution) (w : World) : World :=
  {| disk := disk w; faults := faults w; trace := trace w; execution := x;
     cwd := cwd w; loads := loads w |}.

Definition with_loads (l : list string) (w : World) : World :=
  {| disk := disk w; faults := faults w; trace := trace w; execution := execution w;
     cwd := cwd w; loads := l |}.

(** *** The monad of asynchronous code *)

Definition Eff (A : Type) : Type := World -> Completion A * World.

Definition ret {A} (a : A) : Eff A := fun w => (Normal a, w).

Definition throw {A} (e : JsError) : Eff A := fun w => (Throw e, w).

Definition bind {A B} (c : Eff A) (k : A -> Eff B) : Eff B :=
  fun w =>
    match c w with
    | (Normal a, w') => k a w'
    | (Throw e, w') => (Throw e, w')
    end.

(** [try { c } catch (error) { h error }] *)
Definition try_catch {A} (c : Eff A) (h : JsError -> Eff A) : Eff A :=
  fun w =>
    match c w with
    | (Normal a, w') => (Normal a, w')
    | (Throw e, w') => h e w'
    end.

Notation "'let*' x ':=' c 'in' k" := (bind c (fun x => k))
  (at level 10, x binder, k at level 200, only parsing).
Notation "c1 ;;; c2" := (bind c1 (fun _ => c2))
  (at level 100, c2 at level 200, right associativity, only parsing).

Definition effect (e : Effect) : Eff unit :=
  fun w => (Normal tt, with_trace (trace w ++ [e]) w).

Definition set_abortController (a : option AbortController) : Eff unit :=
  fun w => (Normal tt,
            with_execution {| abortController := a; query := query (execution w) |} w).

Definition set_query (q : option Query) : Eff unit :=
  fun w => (Normal tt,
            with_execution {| abortController := abortController (execution w); query := q |} w).

(** *** File primitives *)

(** [JSON.parse(await fs.readFile(featureJsonPath, "utf-8"))] *)
Definition fs_readJson (projectPath featureId : string) : Eff Feature :=
  fun w =>
    match faults w (op_readFile (featureJsonPath projectPath featureId)) with
    | Some e => (Throw e, w)
    | None =>
        match disk w !! (projectPath, featureId) with
        | Some f => (Normal f, w)
        | None => (Throw ENOENT, w)
        end
    end.

(** [await fs.writeFile(featureJsonPath, JSON.stringify(feature, null, 2), "utf-8")].
    A write that fails is taken to leave the file as it was. *)
Definition fs_writeJson (projectPath featureId : string) (f : Feature) : Eff unit :=
  fun w =>
    match faults w (op_writeFile (featureJsonPath projectPath featureId)) with
    | Some e => (Throw e, w)
    | None => (Normal tt, with_disk (<[(projectPath, featureId) := f]> (disk w)) w)
    end.

(** The [feature.json] stored under a key lies in the tree that
    [fs.rm(getFeatureDir(projectPath, featureId), { recursive: true })]
    removes. *)
Definition in_removed_tree (cwd projectPath featureId : string) (key : string * string)
  : bool :=
  PosixPath.contains (PosixPath.getFeatureDir cwd projectPath featureId)
    (PosixPath.getFeatureJsonPath cwd key.1 key.2).

(** [await fs.rm(featureDir, { recursive: true, force: true })]: the
    removal takes what the path names and all that lies under it; with
    [force], a path that does not exist is not an error. The fault table
    says, for the directory, whether the call rejects. A call that rejects
    may have removed part of the tree already: the table then says, file by
    file, which ones it could not remove (the ones with an error of their
    own), and the others are gone. *)
Definition fs_rm (projectPath featureId : string) : Eff unit :=
  fun w =>
    let doomed (key : string * string) : bool :=
      in_removed_tree (cwd w) projectPath featureId key in
    match faults w (op_rm (featureDir projectPath featureId)) with
    | Some e =>
        let gone (key : string * string) : bool :=
          doomed key
          && match faults w (op_rm (featureJsonPath key.1 key.2)) with
             | Some _ => false
             | None => true
             end in
        (Throw e,
         with_disk (filter (fun kf : (string * string) * Feature => gone kf.1 = false)
                      (disk w)) w)
    | None =>
        (Normal tt,
         with_disk (filter (fun kf : (string * string) * Feature => doomed kf.1 = false)
                      (disk w)) w)
    end.

(** [await fs.mkdir(dir, { recursive: true })]: with [recursive], a
    directory that exists is not an error. The store records the
    [feature.json] files only, so a directory without one leaves it as it is.
    In the fault table the creation of a directory is a write to its path;
    the features directory of a project is [featureDir projectPath ""], as
    [path.join] drops an empty segment. *)
Definition fs_mkdir (dir : Path) : Eff unit :=
  fun w =>
    match faults w (op_writeFile dir) with
    | Some e => (Throw e, w)
    | None => (Normal tt, w)
    end.

(** The [TypeError] of [path.join] for an argument that is not a string.
    Node ends the message with a description of the value it received,
    [received]: [type number (7)] for the number 7. *)
Definition ERR_INVALID_ARG_TYPE (received : string) : JsError :=
  {| instanceof_AbortError := false; error_name := "TypeError";
     error_message :=
       "The " +:+ dq +:+ "path" +:+ dq +:+ " argument must be of type string. Received "
         +:+ received;
     error_code := Some "ERR_INVALID_ARG_TYPE" |}.

(** [a || b] on JavaScript values. *)
Definition js_or (a : option JValue) (b : JValue) : JValue :=
  match a with
  | Some v => if truthy a then v else b
  | None => b
  end.

(* ===================================================================== *)
(** ** JavaScript strings *)
(* ===================================================================== *)

Module JsString.

(** A string is kept as the bytes of its UTF-8 encoding, while JavaScript
    counts and cuts in UTF-16 code units. [units c] is the number of code
    units of the character that the byte [c] starts: one for a character of
    one, two or three bytes, two (a surrogate pair) for a character of four
    bytes, and none for a byte that continues a character. *)
Definition units (c : ascii) : nat :=
  let n := nat_of_ascii c in
  if (n <? 128)%nat then 1%nat
  else if (n <? 192)%nat then 0%nat
  else if (n <? 240)%nat then 1%nat
  else 2%nat.

(** [s.length] *)
Fixpoint length (s : string) : nat :=
  match s with
  | EmptyString => 0%nat
  | String c rest => (units c + length rest)%nat
  end.

(** The first half of the surrogate pair of a character of four bytes, of
    which [c] is the first byte and [rest] holds the others, as the three
    bytes that encode a code unit on its own. *)
Definition highSurrogate (c : ascii) (rest : string) : string :=
  let byte (i : nat) : nat :=
    match String.get i rest with
    | Some b => nat_of_ascii b
    | None => 0%nat
    end in
  let x := ((nat_of_ascii c mod 8) * 256 + (byte 0%nat mod 64) * 4 + (byte 1%nat mod 64) / 16
            - 64)%nat in
  String (ascii_of_nat 237)
    (String (ascii_of_nat (160 + (x / 64) mod 16))
       (String (ascii_of_nat (128 + x mod 64)) EmptyString)).

(** [s.substring(0, n)]: the first [n] code units of [s], or all of [s] when
    it has fewer. A cut in the middle of a surrogate pair leaves the first
    half. *)
Fixpoint prefix (n : nat) (s : string) : string :=
  match s with
  | EmptyString => EmptyString
  | String c rest =>
      match units c with
      | 0%nat => String c (prefix n rest)
      | 1%nat =>
          match n with
          | 0%nat => EmptyString
          | S n' => String c (prefix n' rest)
          end
      | _ =>
          match n with
          | 0%nat => EmptyString
          | 1%nat => highSurrogate c rest
          | S (S n') => String c (prefix n' rest)
          end
      end
  end.

End JsString.

(* ===================================================================== *)
(** ** [FeatureLoader] (feature-loader.ts) *)
(* ===================================================================== *)

Module FeatureLoader.

(** [async get(projectPath, featureId): Promise<Feature | null>] *)
Definition get (projectPath featureId : string) : Eff (option Feature) :=
  try_catch
    (let* content := fs_readJson projectPath featureId in
     ret (Some content))
    (fun error =>
       if code_is error "ENOENT" then ret None
       else
         effect (console_error
                   ("[FeatureLoader] Failed to get feature " +:+ featureId +:+ ":") error) ;;;
         throw error).

(** [async update(projectPath, featureId, updates): Promise<Feature>].
    The spread [{ ...feature, ...updates }] is the union that prefers
    [updates]. Like the stored record, [updates] holds JSON values, as it
    does when it arrives in the body of a request. *)
Definition update (projectPath featureId : string) (updates : Feature) : Eff Feature :=
  let* feature := get projectPath featureId in
  match feature with
  | None => throw (new_Error ("Feature " +:+ featureId +:+ " not found"))
  | Some feature =>
      let updatedFeature : Feature := updates ∪ feature in
      fs_writeJson projectPath featureId updatedFeature ;;;
      effect (console_log ("[FeatureLoader] Updated feature " +:+ featureId)) ;;;
      ret updatedFeature
  end.

(** [async delete(projectPath, featureId): Promise<boolean>] *)
Definition delete (projectPath featureId : string) : Eff bool :=
  try_catch
    (fs_rm projectPath featureId ;;;
     effect (console_log ("[FeatureLoader] Deleted feature " +:+ featureId)) ;;;
     ret true)
    (fun error =>
       effect (console_error
                 ("[FeatureLoader] Failed to delete feature " +:+ featureId +:+ ":") error) ;;;
       ret false).

(** [async create(projectPath, featureData): Promise<Feature>]. The
    argument [generateFeatureId] is what [this.generateFeatureId()] returns
    when it is called: a string made of the clock and of a random number.
    [path.join] throws for a feature id that is not a string; the argument
    [received] is how Node describes a value in the message of that error. *)
Definition create (generateFeatureId : string) (received : JValue -> string)
    (projectPath : string) (featureData : Feature) : Eff Feature :=
  match js_or (featureData !! "id") (JStr generateFeatureId) with
  | JStr featureId =>
      fs_mkdir (featureDir projectPath "") ;;;
      fs_mkdir (featureDir projectPath featureId) ;;;
      let defaults : Feature :=
        {[ "category" := js_or (featureData !! "category") (JStr "Uncategorized");
           "description" := js_or (featureData !! "description") (JStr "") ]} in
      let feature : Feature := <["id" := JStr featureId]> (featureData ∪ defaults) in
      fs_writeJson projectPath featureId feature ;;;
      effect (console_log ("[FeatureLoader] Created feature " +:+ featureId)) ;;;
      ret feature
  | featureId => throw (ERR_INVALID_ARG_TYPE (received featureId))
  end.

End FeatureLoader.

(* ===================================================================== *)
(** ** [FeatureLoader]: the agent output of a feature *)
(* ===================================================================== *)

Module AgentOutput.

(** The file operations of the three methods, on the [agent-output.md] of
    a feature or on its directory. *)
Inductive Op : Type :=
  | op_readFile (projectPath featureId : string)
  | op_writeFile (projectPath featureId : string)
  | op_unlink (projectPath featureId : string)
  | op_mkdir (projectPath featureId : string).

(** The [agent-output.md] files, each under the path that names it (see
    [PosixPath.getAgentOutputPath]), the errors the operating system
    injects, what the methods print with [console.error], and the working
    directory of the process. These files live in the feature directories
    beside the [feature.json] files of [World]; the three methods below touch
    nothing else. *)
Record Files : Type := mkFiles {
  agentOutput : gmap (list string) string;
  output_faults : Op -> option JsError;
  console : list (string * JsError);
  cwd : string
}.

Definition with_agentOutput (m : gmap (list string) string) (fs : Files) : Files :=
  {| agentOutput := m; output_faults := output_faults fs; console := console fs;
     cwd := cwd fs |}.

(** [await fs.readFile(agentOutputPath, "utf-8")] *)
Definition readFile (projectPath featureId : string) (fs : Files) : string + JsError :=
  match output_faults fs (op_readFile projectPath featureId) with
  | Some e => inr e
  | None =>
      match agentOutput fs !! PosixPath.getAgentOutputPath (cwd fs) projectPath featureId with
      | Some content => inl content
      | None => inr ENOENT
      end
  end.

(** [async getAgentOutput(projectPath, featureId): Promise<string | null>] *)
Definition getAgentOutput (projectPath featureId : string) (fs : Files)
  : Completion (option string) * Files :=
  match readFile projectPath featureId fs with
  | inl content => (Normal (Some content), fs)
  | inr error =>
      if code_is error "ENOENT" then (Normal None, fs)
      else
        (Throw error,
         {| agentOutput := agentOutput fs;
            output_faults := output_faults fs;
            console :=
              console fs ++
              [("[FeatureLoader] Failed to get agent output for " +:+ featureId +:+ ":",
                error)];
            cwd := cwd fs |})
  end.

(** [async saveAgentOutput(projectPath, featureId, content): Promise<void>] *)
Definition saveAgentOutput (projectPath featureId content : string) (fs : Files)
  : Completion unit * Files :=
  match output_faults fs (op_mkdir projectPath featureId) with
  | Some e => (Throw e, fs)
  | None =>
      match output_faults fs (op_writeFile projectPath featureId) with
      | Some e => (Throw e, fs)
      | None =>
          (Normal tt,
           with_agentOutput
             (<[PosixPath.getAgentOutputPath (cwd fs) projectPath featureId := content]>
                (agentOutput fs)) fs)
      end
  end.

(** [await fs.unlink(agentOutputPath)]: a file that does not exist is an
    [ENOENT] error. *)
Definition unlink (projectPath featureId : string) (fs : Files) : Completion unit * Files :=
  match output_faults fs (op_unlink projectPath featureId) with
  | Some e => (Throw e, fs)
  | None =>
      match agentOutput fs !! PosixPath.getAgentOutputPath (cwd fs) projectPath featureId with
      | Some _ =>
          (Normal tt,
           with_agentOutput
             (delete (PosixPath.getAgentOutputPath (cwd fs) projectPath featureId)
                (agentOutput fs)) fs)
      | None => (Throw ENOENT, fs)
      end
  end.

(** [async deleteAgentOutput(projectPath, featureId): Promise<void>] *)
Definition deleteAgentOutput (projectPath featureId : string) (fs : Files)
  : Completion unit * Files :=
  match unlink projectPath featureId fs with
  | (Normal u, fs') => (Normal u, fs')
  | (Throw error, fs') =>
      if negb (code_is error "ENOENT") then (Throw error, fs') else (Normal tt, fs')
  end.

End AgentOutput.

(* ===================================================================== *)
(** ** The features routes (routes/features.ts) *)
(* ===================================================================== *)

Module FeaturesRoutes.

(** The body of a request, with the fields as the handlers cast them; a
    field that is not sent is [None]. *)
Record Body : Type := mkBody {
  projectPath : option string;
  featureId : option string;
  updates : option Feature
}.

(** The objects the handlers send: [{ success: false, error }],
    [{ success: true, feature }] and [{ success }]. *)
Inductive Json : Type :=
  | json_error (error : string)
  | json_feature (feature : Feature)
  | json_success (success : bool).

(** [res.status(code).json(body)]; [res.json(body)] sends status 200. *)
Record Response : Type := mkResponse {
  status : nat;
  json : Json
}.

(** [!x] for a string that may be missing. *)
Definition falsy (x : option string) : bool :=
  match x with
  | Some s => String.eqb s ""
  | None => true
  end.

Definition string_of (x : option string) : string :=
  match x with
  | Some s => s
  | None => ""
  end.

(** [error instanceof Error ? error.message : "Unknown error"]: what is
    thrown here is always an [Error]. *)
Definition internal_error (error : JsError) : Eff Response :=
  ret {| status := 500; json := json_error (error_message error) |}.

(** [router.post("/get", ...)] *)
Definition post_get (body : Body) : Eff Response :=
  try_catch
    (if falsy (projectPath body) || falsy (featureId body) then
       ret {| status := 400; json := json_error "projectPath and featureId are required" |}
     else
       let* feature :=
         FeatureLoader.get (string_of (projectPath body)) (string_of (featureId body)) in
       match feature with
       | None => ret {| status := 404; json := json_error "Feature not found" |}
       | Some feature => ret {| status := 200; json := json_feature feature |}
       end)
    internal_error.

(** [router.post("/update", ...)]; an [updates] object, even an empty one,
    is truthy. *)
Definition post_update (body : Body) : Eff Response :=
  try_catch
    (match updates body with
     | Some updates =>
         if falsy (projectPath body) || falsy (featureId body) then
           ret {| status := 400;
                  json := json_error "projectPath, featureId, and updates are required" |}
         else
           let* updated :=
             FeatureLoader.update (string_of (projectPath body)) (string_of (featureId body))
               updates in
           ret {| status := 200; json := json_feature updated |}
     | None =>
         ret {| status := 400;
                json := json_error "projectPath, featureId, and updates are required" |}
     end)
    internal_error.

(** [router.post("/delete", ...)] *)
Definition post_delete (body : Body) : Eff Response :=
  try_catch
    (if falsy (projectPath body) || falsy (featureId body) then
       ret {| status := 400; json := json_error "projectPath and featureId are required" |}
     else
       let* success :=
         FeatureLoader.delete (string_of (projectPath body)) (string_of (featureId body)) in
       ret {| status := 200; json := json_success success |})
    internal_error.

End FeaturesRoutes.

(* ===================================================================== *)
(** ** The Electron-side feature loader, as the executor and the MCP tool
       use it *)
(* ===================================================================== *)

Module ElectronFeatureLoader.

(** Modelled from the spec: the Electron-side [feature-loader] module
    ([loadFeatures], [updateFeatureStatus]) is not among the sources. The
    Feature Store contract gives [list(projectPath)], the sequence of the
    project's features. The world keeps a record of the call. *)
Definition loadFeatures (projectPath : string) : Eff (list Feature) :=
  fun w =>
    (Normal (omap (fun kf : (string * string) * Feature =>
                     if decide (kf.1.1 = projectPath) then Some kf.2 else None)
                  (map_to_list (disk w))),
     with_loads (loads w ++ [projectPath]) w).

(** Modelled from the spec: the Electron-side [updateFeatureStatus] is not
    among the sources. The gateway applies the status through the Feature
    Store's update operation, which is [FeatureLoader.update]. *)
Definition updateFeatureStatus (featureId status projectPath : string) : Eff unit :=
  FeatureLoader.update projectPath featureId {[ "status" := JStr status ]} ;;;
  ret tt.

End ElectronFeatureLoader.

(** [f.id === featureId] *)
Definition has_id (featureId : string) (f : Feature) : bool :=
  strict_eq_string (f !! "id") featureId.

(* ===================================================================== *)
(** ** [McpServerFactory]: the [UpdateFeatureStatus] tool *)
(* ===================================================================== *)

Module McpServerFactory.

(** [z.enum(["backlog", "in_progress", "verified"])] *)
Inductive AgentStatus : Type := backlog | in_progress | verified.

Definition status_string (s : AgentStatus) : string :=
  match s with
  | backlog => "backlog"
  | in_progress => "in_progress"
  | verified => "verified"
  end.

Record Args : Type := mkArgs {
  featureId : string;
  status : AgentStatus
}.

(** [{ type: "text", text }] *)
Inductive ContentItem : Type := text_content (text : string).

Record ToolResult : Type := mkToolResult { content : list ContentItem }.

Record Tool : Type := mkTool {
  tool_name : string;
  tool_description : string;
  handler : Args -> Eff ToolResult
}.

Record McpServer : Type := mkMcpServer {
  server_name : string;
  version : string;
  tools : list Tool
}.

Definition converted_message (featureId finalStatus requested : string) : string :=
  "Successfully updated feature " +:+ featureId +:+ " to status " +:+ dq +:+ finalStatus
    +:+ dq +:+ " (converted from " +:+ dq +:+ requested +:+ dq
    +:+ " because skipTests=true)".

Definition direct_message (featureId finalStatus : string) : string :=
  "Successfully updated feature " +:+ featureId +:+ " to status " +:+ dq +:+ finalStatus
    +:+ dq.

(** The handler of the [UpdateFeatureStatus] tool. *)
Definition UpdateFeatureStatus
    (updateFeatureStatusCallback : string -> string -> string -> Eff unit)
    (projectPath : string) (args : Args) : Eff ToolResult :=
  try_catch
    (effect (console_log
               ("[McpServerFactory] UpdateFeatureStatus tool called: featureId="
                  +:+ featureId args +:+ ", status=" +:+ status_string (status args))) ;;;
     let* features := ElectronFeatureLoader.loadFeatures projectPath in
     match List.find (has_id (featureId args)) features with
     | None => throw (new_Error ("Feature " +:+ featureId args +:+ " not found"))
     | Some feature =>
         let convert :=
           String.eqb (status_string (status args)) "verified"
           && strict_eq_true (feature !! "skipTests") in
         (if convert
          then effect (console_log
                         ("[McpServerFactory] Feature " +:+ featureId args
                            +:+ " has skipTests=true, converting verified -> waiting_approval"))
          else ret tt) ;;;
         let finalStatus :=
           if convert then "waiting_approval" else status_string (status args) in
         updateFeatureStatusCallback (featureId args) finalStatus projectPath ;;;
         let statusMessage :=
           if negb (String.eqb finalStatus (status_string (status args)))
           then converted_message (featureId args) finalStatus (status_string (status args))
           else direct_message (featureId args) finalStatus in
         ret {| content := [text_content statusMessage] |}
     end)
    (fun error =>
       effect (console_error "[McpServerFactory] UpdateFeatureStatus tool error:" error) ;;;
       ret {| content :=
                [text_content ("Failed to update feature status: " +:+ error_message error)] |}).

Definition createFeatureToolsServer
    (updateFeatureStatusCallback : string -> string -> string -> Eff unit)
    (projectPath : string) : McpServer :=
  {| server_name := "automaker-tools";
     version := "1.0.0";
     tools :=
       [ {| tool_name := "UpdateFeatureStatus";
            tool_description :=
              "Update the status of a feature in the feature list. Use this tool instead of directly modifying feature_list.json to safely update feature status. IMPORTANT: If the feature has skipTests=true, you should NOT mark it as verified - instead it will automatically go to waiting_approval status for manual review.";
            handler := UpdateFeatureStatus updateFeatureStatusCallback projectPath |} ] |}.

(** The agent runtime invoking a tool of the server by name. The result
    goes back to the agent, not to the orchestrator. *)
Definition callTool (server : McpServer) (toolName : string) (args : Args) : Eff unit :=
  match List.find (fun t => String.eqb (tool_name t) toolName) (tools server) with
  | Some t => handler t args ;;; ret tt
  | None => ret tt
  end.

End McpServerFactory.

(** The Status Mutation Gateway of a project: the tool handler bound to the
    feature loader's status update, as the executor creates it. *)
Definition setStatus (projectPath : string) (args : McpServerFactory.Args)
  : Eff McpServerFactory.ToolResult :=
  McpServerFactory.UpdateFeatureStatus ElectronFeatureLoader.updateFeatureStatus projectPath args.

(* ===================================================================== *)
(** ** The agent runtime (claude-agent-sdk), as the executor consumes it *)
(* ===================================================================== *)

Module Sdk.

Record Sandbox : Type := mkSandbox {
  enabled : bool;
  autoAllowBashIfSandboxed : option bool
}.

Record Options : Type := mkOptions {
  model : string;
  systemPrompt : string;
  maxTurns : nat;
  cwd : string;
  mcpServers : list (string * McpServerFactory.McpServer);
  allowedTools : list string;
  permissionMode : string;
  sandbox : Sandbox;
  abortController : AbortController
}.

Record Request : Type := mkRequest {
  prompt : string;
  options : Options
}.

(** A block of [msg.message.content]. *)
Inductive Block : Type :=
  | text_block (text : string)
  | tool_use_block (name : string) (input : JValue)
  | other_block (type : string).

Record Message : Type := mkMessage {
  type : string;
  message_content : option (list Block)
}.

(** What happens while the executor iterates over the query: the runtime
    delivers a message, at which point the loop asks [execution.isActive()]
    and gets [isActive]; or the agent calls a tool of an MCP server. *)
Inductive AgentStep : Type :=
  | yield (isActive : bool) (msg : Message)
  | tool_call (toolName : string) (args : McpServerFactory.Args).

(** How the stream ends if it is consumed to its end. *)
Inductive StreamEnd : Type :=
  | exhausted
  | raises (e : JsError).

Record AgentStream : Type := mkAgentStream {
  steps : list AgentStep;
  ending : StreamEnd
}.

End Sdk.

(** [for await (const msg of currentQuery) { if (!execution.isActive()) break; body }]
    where the tool calls of the agent run against [server]. *)
Fixpoint for_await {S : Type} (server : McpServerFactory.McpServer)
    (body : Sdk.Message -> S -> Eff S)
    (steps : list Sdk.AgentStep) (ending : Sdk.StreamEnd) (st : S) : Eff S :=
  match steps with
  | [] =>
      match ending with
      | Sdk.exhausted => ret st
      | Sdk.raises e => throw e
      end
  | Sdk.tool_call toolName args :: rest =>
      McpServerFactory.callTool server toolName args ;;;
      for_await server body rest ending st
  | Sdk.yield isActive msg :: rest =>
      if negb isActive then ret st
      else
        let* st' := body msg st in
        for_await server body rest ending st'
  end.

(** [for (const block of content) body] *)
Fixpoint for_of {A S : Type} (body : A -> S -> Eff S) (l : list A) (st : S) : Eff S :=
  match l with
  | [] => ret st
  | x :: rest =>
      let* st' := body x st in
      for_of body rest st'
  end.

(* ===================================================================== *)
(** ** [FeatureExecutor] (feature-executor.js) *)
(* ===================================================================== *)

Module FeatureExecutor.

(** The fields of the [feature] argument the executor reads. *)
Record FeatureRef : Type := mkFeatureRef {
  feature_id : string;
  feature_category : string;
  feature_description : string
}.

(** The object the three entry points return. [passes] is a JavaScript
    value: the verification expression [a || (b && c)] yields the value of
    [b] when [a] is false and [b] is falsy, [None] standing for
    [undefined]. *)
Record Outcome : Type := mkOutcome {
  passes : option JValue;
  message : string
}.

(** [sendToRenderer(ev)] *)
Definition sendToRenderer (ev : RendererEvent) : Eff unit := effect (renderer ev).

(** Modelled from the spec: the [context-manager] module is not among the
    sources; [writeToContextFile] appends the text to the per-feature
    transcript. *)
Definition writeToContextFile (projectPath featureId content : string) : Eff unit :=
  effect (contextFile_write projectPath featureId content).

(** [error instanceof AbortError || error?.name === "AbortError"] *)
Definition is_abort (error : JsError) : bool :=
  instanceof_AbortError error || String.eqb (error_name error) "AbortError".

(** [updatedFeature?.status === "verified" ||
     (updatedFeature?.skipTests && updatedFeature?.status === "waiting_approval")] *)
Definition verification_passes (updatedFeature : option Feature) : option JValue :=
  let status := updatedFeature ≫= (fun f => f !! "status") in
  let skipTests := updatedFeature ≫= (fun f => f !! "skipTests") in
  if strict_eq_string status "verified" then Some (JBool true)
  else if truthy skipTests then Some (JBool (strict_eq_string status "waiting_approval"))
  else skipTests.

Definition fullTools : list string :=
  ["Read"; "Write"; "Edit"; "Glob"; "Grep"; "Bash"; "WebSearch"; "WebFetch";
   "mcp__automaker-tools__UpdateFeatureStatus"].

Definition commitSystemPrompt : string :=
  "You are a git assistant. Your only task is to commit the current changes with a proper commit message."
    +:+ nl +:+ nl +:+ "IMPORTANT RULES:"
    +:+ nl +:+ "- DO NOT modify any code"
    +:+ nl +:+ "- DO NOT write tests"
    +:+ nl +:+ "- DO NOT do anything except committing the existing changes"
    +:+ nl +:+ "- Use the git command line tools via Bash".

Definition commitPrompt (feature : FeatureRef) : string :=
  "Please commit the current changes with this commit message:"
    +:+ nl +:+ nl +:+ dq +:+ feature_category feature +:+ ": "
    +:+ feature_description feature +:+ dq
    +:+ nl +:+ nl +:+ "Steps:"
    +:+ nl +:+ "1. Run `git add .` to stage all changes"
    +:+ nl +:+ "2. Run `git commit -m " +:+ dq +:+ "message" +:+ dq
    +:+ "` with the provided message"
    +:+ nl +:+ "3. Report success"
    +:+ nl +:+ nl +:+ "Do NOT modify any code or run tests. Just commit the existing changes.".

(** The [prompt-builder] module: a collaborator outside the sources. *)
Record PromptBuilder : Type := mkPromptBuilder {
  getCodingPrompt : string;
  getVerificationPrompt : string;
  buildFeaturePrompt : FeatureRef -> string;
  buildResumePrompt : FeatureRef -> string -> string
}.

Section WithCollaborators.

(** The prompt builder and the SDK's [query]. *)
Variable promptBuilder : PromptBuilder.
Variable sdk_query : Sdk.Request -> Sdk.AgentStream.

Definition featureToolsServer (projectPath : string) : McpServerFactory.McpServer :=
  McpServerFactory.createFeatureToolsServer
    ElectronFeatureLoader.updateFeatureStatus projectPath.

Definition implementOptions (projectPath : string) : Sdk.Options :=
  {| Sdk.model := "claude-opus-4-5-20251101";
     Sdk.systemPrompt := getCodingPrompt promptBuilder;
     Sdk.maxTurns := 1000;
     Sdk.cwd := projectPath;
     Sdk.mcpServers := [("automaker-tools", featureToolsServer projectPath)];
     Sdk.allowedTools := fullTools;
     Sdk.permissionMode := "acceptEdits";
     Sdk.sandbox := {| Sdk.enabled := true; Sdk.autoAllowBashIfSandboxed := Some true |};
     Sdk.abortController := new_AbortController |}.

Definition resumeOptions (projectPath : string) : Sdk.Options :=
  {| Sdk.model := "claude-opus-4-5-20251101";
     Sdk.systemPrompt := getVerificationPrompt promptBuilder;
     Sdk.maxTurns := 1000;
     Sdk.cwd := projectPath;
     Sdk.mcpServers := [("automaker-tools", featureToolsServer projectPath)];
     Sdk.allowedTools := fullTools;
     Sdk.permissionMode := "acceptEdits";
     Sdk.sandbox := {| Sdk.enabled := true; Sdk.autoAllowBashIfSandboxed := Some true |};
     Sdk.abortController := new_AbortController |}.

Definition commitOptions (projectPath : string) : Sdk.Options :=
  {| Sdk.model := "claude-sonnet-4-20250514";
     Sdk.systemPrompt := commitSystemPrompt;
     Sdk.maxTurns := 10;
     Sdk.cwd := projectPath;
     Sdk.mcpServers := [("automaker-tools", featureToolsServer projectPath)];
     Sdk.allowedTools := ["Bash"; "mcp__automaker-tools__UpdateFeatureStatus"];
     Sdk.permissionMode := "acceptEdits";
     Sdk.sandbox := {| Sdk.enabled := false; Sdk.autoAllowBashIfSandboxed := None |};
     Sdk.abortController := new_AbortController |}.

(** State of the streaming loop of [implementFeature]. *)
Record LoopState : Type := mkLoopState {
  responseText : string;
  hasStartedToolUse : bool
}.

(** Body of the inner [for (const block of msg.message.content)] of
    [implementFeature]. *)
Definition implementBlock (feature : FeatureRef) (projectPath : string)
    (block : Sdk.Block) (st : LoopState) : Eff LoopState :=
  match block with
  | Sdk.text_block text =>
      writeToContextFile projectPath (feature_id feature) text ;;;
      sendToRenderer (auto_mode_progress (feature_id feature) text) ;;;
      ret {| responseText := responseText st +:+ text;
             hasStartedToolUse := hasStartedToolUse st |}
  | Sdk.tool_use_block name input =>
      (if negb (hasStartedToolUse st)
       then
         let startMsg := "Starting code implementation..." +:+ nl in
         writeToContextFile projectPath (feature_id feature) startMsg ;;;
         sendToRenderer (auto_mode_progress (feature_id feature) startMsg)
       else ret tt) ;;;
      let toolMsg := nl +:+ "🔧 Tool: " +:+ name +:+ nl in
      writeToContextFile projectPath (feature_id feature) toolMsg ;;;
      sendToRenderer (auto_mode_tool (feature_id feature) name input) ;;;
      ret {| responseText := responseText st; hasStartedToolUse := true |}
  | Sdk.other_block _ => ret st
  end.

(** [if (msg.type === "assistant" && msg.message?.content) { for ... }] *)
Definition onMessage {S : Type} (onBlock : Sdk.Block -> S -> Eff S)
    (msg : Sdk.Message) (st : S) : Eff S :=
  if String.eqb (Sdk.type msg) "assistant" then
    match Sdk.message_content msg with
    | Some content => for_of onBlock content st
    | None => ret st
    end
  else ret st.

(** The [catch] block shared by the three entry points, up to the
    texts. *)
Definition onError (abortLog abortMessage errorLog : string) (error : JsError)
  : Eff Outcome :=
  if is_abort error then
    effect (console_log abortLog) ;;;
    set_abortController None ;;;
    set_query None ;;;
    ret {| passes := Some (JBool false); message := abortMessage |}
  else
    effect (console_error errorLog error) ;;;
    set_abortController None ;;;
    set_query None ;;;
    throw error.

(** [async implementFeature(feature, projectPath, sendToRenderer, execution)] *)
Definition implementFeature (feature : FeatureRef) (projectPath : string) : Eff Outcome :=
  let id := feature_id feature in
  let description := feature_description feature in
  effect (console_log ("[FeatureExecutor] Implementing: " +:+ description)) ;;;
  try_catch
    ((* PHASE 1: PLANNING *)
     let planningMessage := "📋 Planning implementation for: " +:+ description +:+ nl in
     writeToContextFile projectPath id planningMessage ;;;
     sendToRenderer (auto_mode_phase id planning
                       ("Planning implementation for: " +:+ description)) ;;;
     effect (console_log ("[FeatureExecutor] Phase: PLANNING for " +:+ description)) ;;;
     set_abortController (Some new_AbortController) ;;;
     let options := implementOptions projectPath in
     let prompt := buildFeaturePrompt promptBuilder feature in
     sendToRenderer (auto_mode_progress id
                       "Analyzing codebase structure and creating implementation plan...") ;;;
     (* PHASE 2: ACTION *)
     let actionMessage := "⚡ Executing implementation for: " +:+ description +:+ nl in
     writeToContextFile projectPath id actionMessage ;;;
     sendToRenderer (auto_mode_phase id action
                       ("Executing implementation for: " +:+ description)) ;;;
     effect (console_log ("[FeatureExecutor] Phase: ACTION for " +:+ description)) ;;;
     let stream := sdk_query {| Sdk.prompt := prompt; Sdk.options := options |} in
     set_query (Some currentQuery) ;;;
     let* st :=
       for_await (featureToolsServer projectPath)
         (onMessage (implementBlock feature projectPath))
         (Sdk.steps stream) (Sdk.ending stream)
         {| responseText := ""; hasStartedToolUse := false |} in
     set_query None ;;;
     set_abortController None ;;;
     (* PHASE 3: VERIFICATION *)
     let verificationMessage := "✅ Verifying implementation for: " +:+ description +:+ nl in
     writeToContextFile projectPath id verificationMessage ;;;
     sendToRenderer (auto_mode_phase id verification
                       ("Verifying implementation for: " +:+ description)) ;;;
     effect (console_log ("[FeatureExecutor] Phase: VERIFICATION for " +:+ description)) ;;;
     let checkingMsg := "Verifying implementation and checking test results..." +:+ nl in
     writeToContextFile projectPath id checkingMsg ;;;
     sendToRenderer (auto_mode_progress id checkingMsg) ;;;
     let* updatedFeatures := ElectronFeatureLoader.loadFeatures projectPath in
     let updatedFeature := List.find (has_id id) updatedFeatures in
     let passes := verification_passes updatedFeature in
     let resultMsg :=
       if truthy passes
       then "✓ Verification successful: All tests passed" +:+ nl
       else "✗ Verification: Tests need attention" +:+ nl in
     writeToContextFile projectPath id resultMsg ;;;
     sendToRenderer (auto_mode_progress id resultMsg) ;;;
     ret {| passes := passes; message := JsString.prefix 500 (responseText st) |})
    (onError "[FeatureExecutor] Feature run aborted" "Auto mode aborted"
             "[FeatureExecutor] Error implementing feature:").

(** Body of the inner loop of [resumeFeatureWithContext] and of
    [commitChangesOnly]; the state is [responseText]. *)
Definition plainBlock (feature : FeatureRef) (projectPath : string)
    (block : Sdk.Block) (responseText : string) : Eff string :=
  match block with
  | Sdk.text_block text =>
      writeToContextFile projectPath (feature_id feature) text ;;;
      sendToRenderer (auto_mode_progress (feature_id feature) text) ;;;
      ret (responseText +:+ text)
  | Sdk.tool_use_block name input =>
      let toolMsg := nl +:+ "🔧 Tool: " +:+ name +:+ nl in
      writeToContextFile projectPath (feature_id feature) toolMsg ;;;
      sendToRenderer (auto_mode_tool (feature_id feature) name input) ;;;
      ret responseText
  | Sdk.other_block _ => ret responseText
  end.

(** [async resumeFeatureWithContext(feature, projectPath, sendToRenderer,
    previousContext, execution)] *)
Definition resumeFeatureWithContext (feature : FeatureRef) (projectPath : string)
    (previousContext : string) : Eff Outcome :=
  let id := feature_id feature in
  let description := feature_description feature in
  effect (console_log ("[FeatureExecutor] Resuming with context for: " +:+ description)) ;;;
  try_catch
    (let resumeMessage := nl +:+ "🔄 Resuming implementation for: " +:+ description +:+ nl in
     writeToContextFile projectPath id resumeMessage ;;;
     sendToRenderer (auto_mode_phase id action
                       ("Resuming implementation for: " +:+ description)) ;;;
     set_abortController (Some new_AbortController) ;;;
     let options := resumeOptions projectPath in
     let prompt := buildResumePrompt promptBuilder feature previousContext in
     let stream := sdk_query {| Sdk.prompt := prompt; Sdk.options := options |} in
     set_query (Some currentQuery) ;;;
     let* responseText :=
       for_await (featureToolsServer projectPath)
         (onMessage (plainBlock feature projectPath))
         (Sdk.steps stream) (Sdk.ending stream) "" in
     set_query None ;;;
     set_abortController None ;;;
     let* updatedFeatures := ElectronFeatureLoader.loadFeatures projectPath in
     let updatedFeature := List.find (has_id id) updatedFeatures in
     let passes := verification_passes updatedFeature in
     let finalMsg :=
       if truthy passes
       then "✓ Feature successfully verified and completed" +:+ nl
       else "⚠ Feature still in progress - may need additional work" +:+ nl in
     writeToContextFile projectPath id finalMsg ;;;
     sendToRenderer (auto_mode_progress id finalMsg) ;;;
     ret {| passes := passes; message := JsString.prefix 500 responseText |})
    (onError "[FeatureExecutor] Resume aborted" "Resume aborted"
             "[FeatureExecutor] Error resuming feature:").

(** [async commitChangesOnly(feature, projectPath, sendToRenderer, execution)] *)
Definition commitChangesOnly (feature : FeatureRef) (projectPath : string) : Eff Outcome :=
  let id := feature_id feature in
  let description := feature_description feature in
  effect (console_log ("[FeatureExecutor] Committing changes for: " +:+ description)) ;;;
  try_catch
    (let commitMessage := nl +:+ "📝 Committing changes for: " +:+ description +:+ nl in
     writeToContextFile projectPath id commitMessage ;;;
     sendToRenderer (auto_mode_progress id "Committing changes to git...") ;;;
     set_abortController (Some new_AbortController) ;;;
     let options := commitOptions projectPath in
     let prompt := commitPrompt feature in
     let stream := sdk_query {| Sdk.prompt := prompt; Sdk.options := options |} in
     set_query (Some currentQuery) ;;;
     let* responseText :=
       for_await (featureToolsServer projectPath)
         (onMessage (plainBlock feature projectPath))
         (Sdk.steps stream) (Sdk.ending stream) "" in
     set_query None ;;;
     set_abortController None ;;;
     let finalMsg := "✓ Changes committed successfully" +:+ nl in
     writeToContextFile projectPath id finalMsg ;;;
     sendToRenderer (auto_mode_progress id finalMsg) ;;;
     ret {| passes := Some (JBool true); message := JsString.prefix 500 responseText |})
    (onError "[FeatureExecutor] Commit aborted" "Commit aborted"
             "[FeatureExecutor] Error committing feature:").

End WithCollaborators.

End FeatureExecutor.

(* ===================================================================== *)
(** ** Running agents (routes/running-agents.ts) *)
(* ===================================================================== *)

Module RunningAgents.

Record RunningAgent : Type := mkRunningAgent {
  featureId : string;
  projectPath : string;
  projectName : string;
  isAutoMode : bool
}.

(** A JavaScript [Map<string, V>]: entries in insertion order. *)
Fixpoint Map_set {V : Type} (k : string) (v : V) (m : list (string * V))
  : list (string * V) :=
  match m with
  | [] => [(k, v)]
  | (k', v') :: rest =>
      if String.eqb k' k then (k, v) :: rest else (k', v') :: Map_set k v rest
  end.

Fixpoint Map_delete {V : Type} (k : string) (m : list (string * V))
  : list (string * V) :=
  match m with
  | [] => []
  | (k', v') :: rest =>
      if String.eqb k' k then rest else (k', v') :: Map_delete k rest
  end.

Definition Map_has {V : Type} (k : string) (m : list (string * V)) : bool :=
  existsb (fun kv => String.eqb (fst kv) k) m.

(** The module-level variables. *)
Record State : Type := mkState {
  runningAgentsMap : list (string * RunningAgent);
  autoLoopRunning : bool
}.

Definition initial : State := {| runningAgentsMap := []; autoLoopRunning := false |}.

Section WithPath.

(** Node's [path.basename]. *)
Variable basename : string -> string.

Definition registerRunningAgent (featureId projectPath : string) (isAutoMode : bool)
    (s : State) : State :=
  {| runningAgentsMap :=
       Map_set featureId
         {| featureId := featureId;
            projectPath := projectPath;
            projectName := basename projectPath;
            isAutoMode := isAutoMode |}
         (runningAgentsMap s);
     autoLoopRunning := autoLoopRunning s |}.

Definition unregisterRunningAgent (featureId : string) (s : State) : State :=
  {| runningAgentsMap := Map_delete featureId (runningAgentsMap s);
     autoLoopRunning := autoLoopRunning s |}.

Definition setAutoLoopRunning (running : bool) (s : State) : State :=
  {| runningAgentsMap := runningAgentsMap s; autoLoopRunning := running |}.

Definition getRunningAgentsCount (s : State) : nat := length (runningAgentsMap s).

Definition isAgentRunning (featureId : string) (s : State) : bool :=
  Map_has featureId (runningAgentsMap s).

(** [Array.from(runningAgentsMap.values())] of the [GET /] route. *)
Definition runningAgents (s : State) : list RunningAgent := map snd (runningAgentsMap s).

(** *** Admission of runs *)

Inductive Admission : Type := Accepted | Busy.

(** The orchestrator's bookkeeping: the registry and the feature ids of
    the live execution handles. *)
Record Orchestrator : Type := mkOrchestrator {
  registry : State;
  handles : list string
}.

Definition idle : Orchestrator := {| registry := initial; handles := [] |}.

(** Modelled from the spec: the entry point that starts a run (the
    auto-mode service) is not among the sources. A run request is checked
    against the Running-Set Registry: for a feature that is already
    running it fails fast with a busy error, and nothing is queued;
    otherwise the execution handle and the registry entry are
    created. *)
Definition run_request (featureId projectPath : string) (isAutoMode : bool)
    (o : Orchestrator) : Admission * Orchestrator :=
  if isAgentRunning featureId (registry o) then (Busy, o)
  else
    (Accepted,
     {| registry := registerRunningAgent featureId projectPath isAutoMode (registry o);
        handles := featureId :: handles o |}).

(** Modelled from the spec: at the end of a run, on every exit path, the
    execution handle and the registry entry are released. *)
Definition run_end (featureId : string) (o : Orchestrator) : Orchestrator :=
  if isAgentRunning featureId (registry o) then
    {| registry := unregisterRunningAgent featureId (registry o);
       handles := List.filter (fun h => negb (String.eqb h featureId)) (handles o) |}
  else o.

(** What callers and finishing runs do to the orchestrator, in the order
    in which the single JavaScript thread serves them. *)
Inductive Call : Type :=
  | call_run (featureId projectPath : string) (isAutoMode : bool)
  | call_end (featureId : string).

Definition serve (o : Orchestrator) (c : Call) : Orchestrator :=
  match c with
  | call_run featureId projectPath isAutoMode =>
      snd (run_request featureId projectPath isAutoMode o)
  | call_end featureId => run_end featureId o
  end.

Definition serve_all (calls : list Call) (o : Orchestrator) : Orchestrator :=
  fold_left serve calls o.

End WithPath.

End RunningAgents.

(* ===================================================================== *)
(** ** The event emitter (lib/events.ts) *)
(* ===================================================================== *)

Module Events.

Inductive EventType : Type :=
  | agent_stream
  | auto_mode_event
  | auto_mode_started
  | auto_mode_stopped
  | auto_mode_idle
  | auto_mode_error
  | feature_started
  | feature_completed
  | feature_stopped
  | feature_error
  | feature_progress
  | feature_tool_use
  | feature_follow_up_started
  | feature_follow_up_completed
  | feature_verified
  | feature_committed
  | project_analysis_started
  | project_analysis_progress
  | project_analysis_completed
  | project_analysis_error
  | suggestions_event
  | spec_regeneration_event.

(** A subscriber: the identity of the function object, and what a call of
    it does: return ([None]) or throw. Callbacks that change the subscriber
    set while [emit] iterates are outside the model. *)
Record EventCallback : Type := mkEventCallback {
  ref : nat;
  call : EventType -> JValue -> option JsError
}.

(** What an [emit] does, in order. *)
Inductive BusEffect : Type :=
  | called (ref : nat) (type : EventType) (payload : JValue)
  | console_error (line : string) (e : JsError).

(** The closure state of [createEventEmitter]: the [Set] of subscribers in
    insertion order, and the effects so far. *)
Record Emitter : Type := mkEmitter {
  subscribers : list EventCallback;
  effects : list BusEffect
}.

Definition createEventEmitter : Emitter := {| subscribers := []; effects := [] |}.

Definition Set_has (cb : EventCallback) (s : list EventCallback) : bool :=
  existsb (fun c => Nat.eqb (ref c) (ref cb)) s.

Definition Set_add (cb : EventCallback) (s : list EventCallback) : list EventCallback :=
  if Set_has cb s then s else s ++ [cb].

Definition Set_delete (cb : EventCallback) (s : list EventCallback) : list EventCallback :=
  List.filter (fun c => negb (Nat.eqb (ref c) (ref cb))) s.

(** The body of [emit]:
    [for (const callback of subscribers) {
       try { callback(type, payload) } catch (error) { console.error(...) } }] *)
Fixpoint emit_loop (type : EventType) (payload : JValue)
    (rest : list EventCallback) (log : list BusEffect) : list BusEffect :=
  match rest with
  | [] => log
  | callback :: rest' =>
      let log' := (log ++ [called (ref callback) type payload])%list in
      match call callback type payload with
      | None => emit_loop type payload rest' log'
      | Some error =>
          emit_loop type payload rest'
            (log' ++ [console_error "Error in event subscriber:" error])%list
      end
  end.

(** [emit(type, payload)] *)
Definition emit (type : EventType) (payload : JValue) (em : Emitter) : Emitter :=
  {| subscribers := subscribers em;
     effects := emit_loop type payload (subscribers em) (effects em) |}.

(** [subscribe(callback)]; the function it returns is [unsubscribe callback]. *)
Definition subscribe (callback : EventCallback) (em : Emitter) : Emitter :=
  {| subscribers := Set_add callback (subscribers em); effects := effects em |}.

Definition unsubscribe (callback : EventCallback) (em : Emitter) : Emitter :=
  {| subscribers := Set_delete callback (subscribers em); effects := effects em |}.

(** The callbacks invoked, in order, among some effects. *)
Definition invoked (l : list BusEffect) : list nat :=
  omap (fun e => match e with called r _ _ => Some r | console_error _ _ => None end) l.

(** The errors logged, in order, among some effects. *)
Definition logged (l : list BusEffect) : list JsError :=
  omap (fun e => match e with called _ _ _ => None | console_error _ err => Some err end) l.

End Events.

(* ===================================================================== *)
(** ** Vocabulary of the statements *)
(* ===================================================================== *)

(** In a project's store every record carries, in its [id] field, the
    identifier under which it is stored (as [FeatureLoader.create] writes
    it). *)
Definition StoreWf (projectPath : string) (d : gmap (string * string) Feature) : Prop :=
  ∀ k f, d !! (projectPath, k) = Some f → f !! "id" = Some (JStr k).

(** The phase events among some effects, in order. *)
Definition phases (t : list Effect) : list Phase :=
  omap (fun e => match e with
                 | renderer (auto_mode_phase _ ph _) => Some ph
                 | _ => None
                 end) t.

(** The loop reaches the end of the stream: the handle is active at every
    message. *)
Definition consumed_to_end (steps : list Sdk.AgentStep) : bool :=
  forallb (fun s => match s with
                    | Sdk.yield isActive _ => isActive
                    | Sdk.tool_call _ _ => true
                    end) steps.

(** A step that emits no phase event and leaves the execution record and
    the fault table alone. *)
Definition quiet (w w' : World) : Prop :=
  phases (trace w') = phases (trace w)
  ∧ execution w' = execution w
  ∧ faults w' = faults w.

Definition released : Execution := {| abortController := None; query := None |}.

(** The stream raises: the loop reaches its end, and the end is an error. *)
Definition raises_at_end (s : Sdk.AgentStream) : bool :=
  consumed_to_end (Sdk.steps s)
  && match Sdk.ending s with
     | Sdk.raises _ => true
     | Sdk.exhausted => false
     end.

(** A computation that is [quiet] from every world, however it ends. *)
Definition Quiet {A : Type} (c : Eff A) : Prop := ∀ w, quiet w (c w).2.

(** A computation that never throws. *)
Definition Returns {A : Type} (c : Eff A) : Prop := ∀ w, ∃ a, (c w).1 = Normal a.

(** The three kinds of run of the executor. *)
Inductive Entry : Type :=
  | Implement
  | Resume (previousContext : string)
  | CommitOnly.

Definition run_entry (pb : FeatureExecutor.PromptBuilder)
    (sdk_query : Sdk.Request -> Sdk.AgentStream) (entry : Entry)
    (feature : FeatureExecutor.FeatureRef) (projectPath : string)
  : Eff FeatureExecutor.Outcome :=
  match entry with
  | Implement => FeatureExecutor.implementFeature pb sdk_query feature projectPath
  | Resume previousContext =>
      FeatureExecutor.resumeFeatureWithContext pb sdk_query feature projectPath previousContext
  | CommitOnly => FeatureExecutor.commitChangesOnly sdk_query feature projectPath
  end.

(** The request each kind of run hands to the SDK. *)
Definition request_of (pb : FeatureExecutor.PromptBuilder) (entry : Entry)
    (feature : FeatureExecutor.FeatureRef) (projectPath : string) : Sdk.Request :=
  match entry with
  | Implement =>
      {| Sdk.prompt := FeatureExecutor.buildFeaturePrompt pb feature;
         Sdk.options := FeatureExecutor.implementOptions pb projectPath |}
  | Resume previousContext =>
      {| Sdk.prompt := FeatureExecutor.buildResumePrompt pb feature previousContext;
         Sdk.options := FeatureExecutor.resumeOptions pb projectPath |}
  | CommitOnly =>
      {| Sdk.prompt := FeatureExecutor.commitPrompt feature;
         Sdk.options := FeatureExecutor.commitOptions projectPath |}
  end.

Definition abort_message (entry : Entry) : string :=
  match entry with
  | Implement => "Auto mode aborted"
  | Resume _ => "Resume aborted"
  | CommitOnly => "Commit aborted"
  end.

Definition error_log (entry : Entry) : string :=
  match entry with
  | Implement => "[FeatureExecutor] Error implementing feature:"
  | Resume _ => "[FeatureExecutor] Error resuming feature:"
  | CommitOnly => "[FeatureExecutor] Error committing feature:"
  end.

(** The phase events of a run of each kind, given whether its stream
    raises. *)
Definition phases_of_run (entry : Entry) (raised : bool) : list Phase :=
  match entry with
  | Implement => if raised then [planning; action] else [planning; action; verification]
  | Resume _ => [action]
  | CommitOnly => []
  end.

(** The orchestrator's bookkeeping is consistent: no feature id has two
    live execution handles, the registry has one entry per key, and the
    registry lists exactly the features that have a live handle. *)
Definition Consistent (o : RunningAgents.Orchestrator) : Prop :=
  List.NoDup (RunningAgents.handles o)
  ∧ List.NoDup (map fst (RunningAgents.runningAgentsMap (RunningAgents.registry o)))
  ∧ ∀ fid, In fid (RunningAgents.handles o)
           ↔ RunningAgents.isAgentRunning fid (RunningAgents.registry o) = true.

(** *** Sample inputs *)

Definition no_faults : FsOp -> option JsError := fun _ => None.

Definition sample_feature (skipTests : bool) : Feature :=
  {[ "id" := JStr "feature-1";
     "category" := JStr "Core";
     "description" := JStr "Add login";
     "status" := JStr "in_progress";
     "skipTests" := JBool skipTests ]}.

Definition sample_world (skipTests : bool) : World :=
  {| disk := {[ ("/proj", "feature-1") := sample_feature skipTests ]};
     faults := no_faults;
     trace := [];
     execution := released;
     cwd := "/";
     loads := [] |}.

Definition empty_world : World :=
  {| disk := ∅; faults := no_faults; trace := []; execution := released;
     cwd := "/"; loads := [] |}.

Definition EPERM : JsError :=
  {| instanceof_AbortError := false; error_name := "Error";
     error_message := "EPERM: operation not permitted"; error_code := Some "EPERM" |}.

Definition locked_world : World :=
  {| disk := ∅;
     faults := fun op => match op with op_rm _ => Some EPERM | _ => None end;
     trace := [];
     execution := released;
     cwd := "/";
     loads := [] |}.

(** No agent output at all, and the agent output of the sample feature. *)
Definition no_outputs : AgentOutput.Files :=
  {| AgentOutput.agentOutput := ∅;
     AgentOutput.output_faults := fun _ => None;
     AgentOutput.console := [];
     AgentOutput.cwd := "/" |}.

Definition sample_outputs : AgentOutput.Files :=
  {| AgentOutput.agentOutput :=
       {[ ["proj"; ".automaker"; "features"; "feature-1"; "agent-output.md"]
          := "# Agent output" ]};
     AgentOutput.output_faults := fun _ => None;
     AgentOutput.console := [];
     AgentOutput.cwd := "/" |}.

(** The sample feature in a directory that the operating system lets the
    process empty but not remove. *)
Definition stuck_directory_world : World :=
  {| disk := {[ ("/proj", "feature-1") := sample_feature false ]};
     faults := fun op => match op with op_rm (featureDir _ _) => Some EPERM | _ => None end;
     trace := [];
     execution := released;
     cwd := "/";
     loads := [] |}.

Definition sample_ref : FeatureExecutor.FeatureRef :=
  {| FeatureExecutor.feature_id := "feature-1";
     FeatureExecutor.feature_category := "Core";
     FeatureExecutor.feature_description := "Add login" |}.

Definition verified_args : McpServerFactory.Args :=
  {| McpServerFactory.featureId := "feature-1";
     McpServerFactory.status := McpServerFactory.verified |}.

Definition assistant_text (text : string) : Sdk.Message :=
  {| Sdk.type := "assistant"; Sdk.message_content := Some [Sdk.text_block text] |}.

Definition AbortError : JsError :=
  {| instanceof_AbortError := true; error_name := "AbortError";
     error_message := "The operation was aborted"; error_code := None |}.

Definition network_error : JsError := new_Error "socket hang up".

Definition sample_promptBuilder : FeatureExecutor.PromptBuilder :=
  {| FeatureExecutor.getCodingPrompt := "You implement features.";
     FeatureExecutor.getVerificationPrompt := "You verify features.";
     FeatureExecutor.buildFeaturePrompt :=
       fun f => "Implement: " +:+ FeatureExecutor.feature_description f;
     FeatureExecutor.buildResumePrompt :=
       fun f previousContext =>
         "Resume: " +:+ FeatureExecutor.feature_description f +:+ nl +:+ previousContext |}.

(** An SDK that plays a given stream whatever the request. *)
Definition scripted (s : Sdk.AgentStream) : Sdk.Request -> Sdk.AgentStream := fun _ => s.

(** The agent marks the feature verified through the gateway; when the next
    message arrives the run has been cancelled. *)
Definition cancelled_after_verified : Sdk.AgentStream :=
  {| Sdk.steps :=
       [Sdk.tool_call "UpdateFeatureStatus" verified_args;
        Sdk.yield false (assistant_text "All tests pass.")];
     Sdk.ending := Sdk.exhausted |}.

Definition aborted_stream : Sdk.AgentStream :=
  {| Sdk.steps := [Sdk.yield true (assistant_text "Working on it.")];
     Sdk.ending := Sdk.raises AbortError |}.

Definition failing_stream : Sdk.AgentStream :=
  {| Sdk.steps := [Sdk.yield true (assistant_text "Working on it.")];
     Sdk.ending := Sdk.raises network_error |}.

Definition completed_stream : Sdk.AgentStream :=
  {| Sdk.steps := [Sdk.yield true (assistant_text "Committed.")];
     Sdk.ending := Sdk.exhausted |}.

Definition well_behaved (r : nat) : Events.EventCallback :=
  {| Events.ref := r; Events.call := fun _ _ => None |}.

Definition always_throws (r : nat) : Events.EventCallback :=
  {| Events.ref := r; Events.call := fun _ _ => Some (new_Error "subscriber failed") |}.

(** [path.basename], for the witnesses. *)
Definition sample_basename (s : string) : string := PosixPath.basename s.

(** *** More vocabulary: what a stream makes the loop do *)

(** The text blocks of a content, concatenated. *)
Fixpoint block_texts (content : list Sdk.Block) : string :=
  match content with
  | [] => ""
  | Sdk.text_block text :: rest => text +:+ block_texts rest
  | _ :: rest => block_texts rest
  end.

(** The text a message contributes to [responseText]. *)
Definition message_text (msg : Sdk.Message) : string :=
  if String.eqb (Sdk.type msg) "assistant" then
    match Sdk.message_content msg with
    | Some content => block_texts content
    | None => ""
    end
  else "".

(** The text of the messages the loop consumes: those that come before the
    first message at which the handle is inactive. *)
Fixpoint consumed_text (steps : list Sdk.AgentStep) : string :=
  match steps with
  | [] => ""
  | Sdk.yield true msg :: rest => message_text msg +:+ consumed_text rest
  | Sdk.yield false _ :: _ => ""
  | Sdk.tool_call _ _ :: rest => consumed_text rest
  end.

(** The agent calls no tool. *)
Definition no_tool_calls (steps : list Sdk.AgentStep) : bool :=
  forallb (fun s => match s with
                    | Sdk.yield _ _ => true
                    | Sdk.tool_call _ _ => false
                    end) steps.

(** A computation that leaves the feature files and the fault table as
    they are, however it ends. *)
Definition KeepsDisk {A : Type} (c : Eff A) : Prop :=
  ∀ w, disk (c w).2 = disk w ∧ faults (c w).2 = faults w.

(** The calls of the gateway's tool that the agent makes while the loop
    consumes the stream: those that come before the first message at which
    the handle is inactive. *)
Fixpoint gateway_calls (steps : list Sdk.AgentStep) : nat :=
  match steps with
  | [] => 0
  | Sdk.tool_call toolName _ :: rest =>
      (if String.eqb "UpdateFeatureStatus" toolName then 1 else 0) + gateway_calls rest
  | Sdk.yield true _ :: rest => gateway_calls rest
  | Sdk.yield false _ :: _ => 0
  end.

(** A computation that, however it ends, calls [loadFeatures] for the
    project paths [l], in that order, and makes no other such call. *)
Definition Loads {A : Type} (l : list string) (c : Eff A) : Prop :=
  ∀ w, loads (c w).2 = (loads w ++ l)%list.

(** The [loadFeatures] calls with which a run of each kind verifies its
    result, given whether its stream raises. *)
Definition verification_loads (entry : Entry) (raised : bool) (projectPath : string)
  : list string :=
  match entry with
  | CommitOnly => []
  | _ => if raised then [] else [projectPath]
  end.

(** The name under which the SDK exposes the tool [UpdateFeatureStatus] of
    the MCP server [automaker-tools], the Status Mutation Gateway. *)
Definition gateway_tool : string := "mcp__automaker-tools__UpdateFeatureStatus".

(** The capabilities a request allows the agent: the allowed tools, the
    gateway's own apart. *)
Definition capabilities (o : Sdk.Options) : list string :=
  List.filter (fun tool => negb (String.eqb tool gateway_tool)) (Sdk.allowedTools o).

(** *** More vocabulary: the states the registry and the emitter reach *)

(** The calls other services make to the running-agents module. *)
Inductive RegistryCall : Type :=
  | reg_register (featureId projectPath : string) (isAutoMode : bool)
  | reg_unregister (featureId : string)
  | reg_setAutoLoopRunning (running : bool).

Definition registry_serve (basename : string -> string) (s : RunningAgents.State)
    (c : RegistryCall) : RunningAgents.State :=
  match c with
  | reg_register featureId projectPath isAutoMode =>
      RunningAgents.registerRunningAgent basename featureId projectPath isAutoMode s
  | reg_unregister featureId => RunningAgents.unregisterRunningAgent featureId s
  | reg_setAutoLoopRunning running => RunningAgents.setAutoLoopRunning running s
  end.

(** The state of the module after some calls, from the start of the
    process. *)
Definition registry_after (basename : string -> string) (calls : list RegistryCall)
  : RunningAgents.State :=
  fold_left (registry_serve basename) calls RunningAgents.initial.

(** The calls made on an event emitter. *)
Inductive BusCall : Type :=
  | bus_subscribe (callback : Events.EventCallback)
  | bus_unsubscribe (callback : Events.EventCallback)
  | bus_emit (type : Events.EventType) (payload : JValue).

Definition bus_serve (em : Events.Emitter) (c : BusCall) : Events.Emitter :=
  match c with
  | bus_subscribe callback => Events.subscribe callback em
  | bus_unsubscribe callback => Events.unsubscribe callback em
  | bus_emit type payload => Events.emit type payload em
  end.

(** An emitter after some calls, from its creation. *)
Definition bus_after (calls : list BusCall) : Events.Emitter :=
  fold_left bus_serve calls Events.createEventEmitter.

(** What one [emit] adds to the effects. *)
Definition emitted (type : Events.EventType) (payload : JValue) (em : Events.Emitter)
  : list Events.BusEffect :=
  Events.emit_loop type payload (Events.subscribers em) [].

(* ===================================================================== *)
(** ** The feature store *)
(* ===================================================================== *)

Lemma get_present (w : World) (p fid : string) (f : Feature) :
  disk w !! (p, fid) = Some f →
  faults w (op_readFile (featureJsonPath p fid)) = None →
  FeatureLoader.get p fid w = (Normal (Some f), w).
Proof.
  intros Hd Hf.
  unfold FeatureLoader.get, try_catch, bind, fs_readJson, ret.
  by rewrite Hf, Hd.
Qed.

Lemma get_absent (w : World) (p fid : string) :
  disk w !! (p, fid) = None →
  faults w (op_readFile (featureJsonPath p fid)) = None →
  FeatureLoader.get p fid w = (Normal None, w).
Proof.
  intros Hd Hf.
  unfold FeatureLoader.get, try_catch, bind, fs_readJson, ret.
  by rewrite Hf, Hd.
Qed.

Lemma update_present (w : World) (p fid : string) (f updates : Feature) :
  disk w !! (p, fid) = Some f →
  faults w (op_readFile (featureJsonPath p fid)) = None →
  faults w (op_writeFile (featureJsonPath p fid)) = None →
  FeatureLoader.update p fid updates w =
    (Normal (updates ∪ f),
     with_trace (trace w ++ [console_log ("[FeatureLoader] Updated feature " +:+ fid)])
       (with_disk (<[(p, fid) := updates ∪ f]> (disk w)) w)).
Proof.
  intros Hd Hr Hw.
  unfold FeatureLoader.update, bind at 1.
  rewrite (get_present w p fid f Hd Hr).
  unfold bind, fs_writeJson, effect, ret. cbn.
  by rewrite Hw.
Qed.

(** C9. [FeatureLoader.update] merges: for a stored feature and any partial
    update, the call returns the merged record and stores it; every field
    supplied in the update has the supplied value in the stored record, every
    field not supplied keeps the value it had, and no other feature file
    changes. *)
Theorem C9_update_merge (w : World) (p fid : string) (f updates : Feature) :
  disk w !! (p, fid) = Some f →
  faults w (op_readFile (featureJsonPath p fid)) = None →
  faults w (op_writeFile (featureJsonPath p fid)) = None →
  ∃ (stored : Feature) (w' : World),
    FeatureLoader.update p fid updates w = (Normal stored, w')
    ∧ disk w' !! (p, fid) = Some stored
    ∧ (∀ k v, updates !! k = Some v → stored !! k = Some v)
    ∧ (∀ k, updates !! k = None → stored !! k = f !! k)
    ∧ (∀ key, key ≠ (p, fid) → disk w' !! key = disk w !! key).
Proof.
  intros Hd Hr Hw.
  eexists _, _. split; [by apply update_present|]. cbn.
  split; [by rewrite lookup_insert_eq|].
  split; [|split].
  - intros k v Hk. by apply lookup_union_Some_l.
  - intros k Hk. by apply lookup_union_r.
  - intros key Hne. by rewrite lookup_insert_ne.
Qed.

(** Setting the status of the sample feature. *)
Lemma C9_update_merge_witness :
  ∃ (stored : Feature) (w' : World),
    FeatureLoader.update "/proj" "feature-1" {[ "status" := JStr "verified" ]}
      (sample_world false) = (Normal stored, w')
    ∧ disk w' !! ("/proj", "feature-1") = Some stored
    ∧ (∀ k v, ({[ "status" := JStr "verified" ]} : Feature) !! k = Some v →
              stored !! k = Some v)
    ∧ (∀ k, ({[ "status" := JStr "verified" ]} : Feature) !! k = None →
            stored !! k = sample_feature false !! k)
    ∧ (∀ key, key ≠ ("/proj", "feature-1") →
              disk w' !! key = disk (sample_world false) !! key).
Proof.
  apply (C9_update_merge (sample_world false) "/proj" "feature-1" (sample_feature false)).
  - vm_compute. reflexivity.
  - reflexivity.
  - reflexivity.
Defined.

(** *** Paths *)

Lemma split_not_nil (s : string) : PosixPath.split s ≠ [].
Proof.
  destruct s as [|c s]; cbn; [done|].
  destruct (Ascii.eqb c "/"); [done|]. by destruct (PosixPath.split s).
Qed.

Lemma split_single (s x : string) : PosixPath.split s = [x] → x = s.
Proof.
  revert x. induction s as [|c s IH]; intros x; cbn.
  - by intros [= <-].
  - destruct (Ascii.eqb c "/").
    + intros [= _ H]. by destruct (split_not_nil s).
    + destruct (PosixPath.split s) as [|segment segments] eqn:Hs;
        [by destruct (split_not_nil s)|].
      intros [= <- ->]. by rewrite (IH segment eq_refl).
Qed.

(** A name is one segment, and entering it goes one directory down. *)
Lemma isName_split (s : string) :
  PosixPath.isName s = true →
  PosixPath.split s = [s] ∧ ∀ entered, PosixPath.enter entered s = s :: entered.
Proof.
  unfold PosixPath.isName.
  destruct (PosixPath.split s) as [|x [|y l]] eqn:Hs; try discriminate.
  intros Hname. apply split_single in Hs as Hx. subst x. split; [done|].
  intros entered. unfold PosixPath.enter.
  apply negb_true_iff in Hname.
  apply orb_false_iff in Hname as [Hname Hdotdot].
  by rewrite Hname, Hdotdot.
Qed.

Lemma resolve_name (cwd path : string) (more : list string) (name : string) :
  (∀ entered, PosixPath.enter entered name = name :: entered) →
  PosixPath.resolve cwd path (more ++ [name])
  = (PosixPath.resolve cwd path more ++ [name])%list.
Proof.
  intros Hname. unfold PosixPath.resolve.
  rewrite !(assoc_L (++)), fold_left_app. cbn [fold_left].
  by rewrite Hname.
Qed.

(** The [feature.json] of a feature is the file of that name in its
    directory. *)
Lemma getFeatureJsonPath_getFeatureDir (cwd p fid : string) :
  PosixPath.getFeatureJsonPath cwd p fid
  = (PosixPath.getFeatureDir cwd p fid ++ ["feature.json"])%list.
Proof.
  unfold PosixPath.getFeatureJsonPath, PosixPath.getFeatureDir.
  rewrite (assoc_L (++)). by apply resolve_name.
Qed.

(** The directory of a feature whose id is a name is the directory of that
    name in the features directory. *)
Lemma getFeatureDir_name (cwd p fid : string) :
  PosixPath.isName fid = true →
  PosixPath.getFeatureDir cwd p fid = (PosixPath.getFeaturesDir cwd p ++ [fid])%list.
Proof.
  intros Hname. destruct (isName_split fid Hname) as [Hsplit Henter].
  unfold PosixPath.getFeatureDir, PosixPath.getFeaturesDir.
  rewrite Hsplit. by apply resolve_name.
Qed.

Lemma contains_app (dir rest : list string) :
  PosixPath.contains dir (dir ++ rest)%list = true.
Proof.
  induction dir as [|d dir IH]; [done|]. cbn. by rewrite String.eqb_refl.
Qed.

Lemma contains_sibling (dir : list string) (a b : string) (rest : list string) :
  PosixPath.contains (dir ++ [a])%list (dir ++ b :: rest)%list = true → a = b.
Proof.
  induction dir as [|d dir IH]; cbn.
  - intros H. apply andb_true_iff in H as [H _]. by apply String.eqb_eq.
  - rewrite String.eqb_refl. exact IH.
Qed.

(** The removal of a feature's directory takes the feature's own file. *)
Lemma in_removed_tree_self (cwd p fid : string) : in_removed_tree cwd p fid (p, fid) = true.
Proof.
  unfold in_removed_tree. cbn [fst snd].
  rewrite getFeatureJsonPath_getFeatureDir. apply contains_app.
Qed.

(** Among the folders of one project, it takes no other. *)
Lemma in_removed_tree_name (cwd p fid fid' : string) :
  PosixPath.isName fid = true → PosixPath.isName fid' = true →
  in_removed_tree cwd p fid (p, fid') = true → fid' = fid.
Proof.
  intros Hname Hname'. unfold in_removed_tree. cbn [fst snd].
  rewrite getFeatureJsonPath_getFeatureDir, !getFeatureDir_name by done.
  rewrite <- (assoc_L (++)). cbn [app]. intros H. symmetry. by eapply contains_sibling.
Qed.

Lemma lookup_filter_false (gone : string * string → bool)
    (d : gmap (string * string) Feature) (key : string * string) :
  filter (fun kf : (string * string) * Feature => gone kf.1 = false) d !! key
  = if gone key then None else d !! key.
Proof.
  destruct (gone key) eqn:Hgone.
  - apply map_lookup_filter_None. right. intros x _ Hkeep. cbn in Hkeep. congruence.
  - destruct (d !! key) as [f|] eqn:Hd.
    + by apply map_lookup_filter_Some_2.
    + apply map_lookup_filter_None. by left.
Qed.

Lemma delete_ok (w : World) (p fid : string) :
  faults w (op_rm (featureDir p fid)) = None →
  FeatureLoader.delete p fid w
  = (Normal true,
     with_trace (trace w ++ [console_log ("[FeatureLoader] Deleted feature " +:+ fid)])
       (with_disk (filter (fun kf : (string * string) * Feature =>
                             in_removed_tree (cwd w) p fid kf.1 = false) (disk w)) w)).
Proof.
  intros Hrm. unfold FeatureLoader.delete, try_catch, bind, fs_rm, effect, ret.
  by rewrite Hrm.
Qed.

(** C10 (as amended). [FeatureLoader.delete] never throws. When the
    recursive removal does not throw it returns [true], also when no feature
    with that id exists; it returns [false] exactly when the removal throws.
    The removal is that of [path.join(featuresDir, featureId)] with all that
    lies under it: the features stored there are gone and every other one is
    as it was, so that the call changes nothing when nothing is stored there;
    for an id that is a name, the other folders of the project are kept. When
    the removal throws, a feature is as it was or, if it lies under that
    path, possibly gone. *)
Theorem C10_delete_result (w : World) (p fid : string) :
  match faults w (op_rm (featureDir p fid)) with
  | None =>
      ∃ w', FeatureLoader.delete p fid w = (Normal true, w')
            ∧ (∀ key, disk w' !! key
                      = if in_removed_tree (cwd w) p fid key then None else disk w !! key)
            ∧ ((∀ key, in_removed_tree (cwd w) p fid key = true → disk w !! key = None) →
               disk w' = disk w)
            ∧ (PosixPath.isName fid = true →
               ∀ fid', PosixPath.isName fid' = true → fid' ≠ fid →
                       disk w' !! (p, fid') = disk w !! (p, fid'))
  | Some e =>
      ∃ w', FeatureLoader.delete p fid w = (Normal false, w')
            ∧ ∀ key, disk w' !! key = disk w !! key
                     ∨ (in_removed_tree (cwd w) p fid key = true ∧ disk w' !! key = None)
  end.
Proof.
  destruct (faults w (op_rm (featureDir p fid))) as [e|] eqn:Hf.
  - unfold FeatureLoader.delete, try_catch, bind, fs_rm, effect, ret. rewrite Hf.
    eexists. split; [reflexivity|]. intros key. cbn [disk with_trace with_disk].
    rewrite (lookup_filter_false
               (fun key => in_removed_tree (cwd w) p fid key
                           && match faults w (op_rm (featureJsonPath key.1 key.2)) with
                              | Some _ => false
                              | None => true
                              end)).
    destruct (in_removed_tree (cwd w) p fid key); cbn [andb]; [|by left].
    destruct (faults w (op_rm (featureJsonPath key.1 key.2))); [by left|by right].
  - rewrite (delete_ok w p fid Hf). eexists. split; [reflexivity|].
    cbn [disk with_trace with_disk].
    split; [intros key; apply (lookup_filter_false (in_removed_tree (cwd w) p fid))|].
    split.
    + intros Hnone. apply map_eq. intros key.
      rewrite (lookup_filter_false (in_removed_tree (cwd w) p fid)).
      destruct (in_removed_tree (cwd w) p fid key) eqn:Hin; [|done].
      symmetry. by apply Hnone.
    + intros Hname fid' Hname' Hne.
      rewrite (lookup_filter_false (in_removed_tree (cwd w) p fid)).
      destruct (in_removed_tree (cwd w) p fid (p, fid')) eqn:Hin; [|done].
      destruct Hne. by apply (in_removed_tree_name (cwd w) p).
Qed.

(** Deleting a feature that is not there: [true], and the store is the
    same; with a removal that throws: [false]. *)
Lemma C10_delete_result_witness :
  (∃ w', FeatureLoader.delete "/proj" "feature-9" (sample_world false) = (Normal true, w')
         ∧ disk w' = disk (sample_world false))
  ∧ (∃ w', FeatureLoader.delete "/proj" "feature-9" locked_world = (Normal false, w')).
Proof.
  split.
  - destruct (C10_delete_result (sample_world false) "/proj" "feature-9")
      as (w' & Hrun & _ & Hsame & _).
    exists w'. split; [exact Hrun|]. apply Hsame.
    intros key Hin.
    destruct (decide (key = ("/proj", "feature-1"))) as [->|Hne].
    + vm_compute in Hin. discriminate.
    + by apply lookup_singleton_ne.
  - destruct (C10_delete_result locked_world "/proj" "feature-9") as (w' & Hrun & _).
    by exists w'.
Defined.

(** C10, the claim as stated fails: no feature has the id [.], and the
    delete of that id returns [true], yet it is no no-op: the removal is
    that of the features directory itself, and the stored feature is gone. *)
Lemma C10_delete_of_dot_is_no_noop :
  disk (sample_world false) !! ("/proj", ".") = None
  ∧ List.find (has_id ".") (map snd (map_to_list (disk (sample_world false)))) = None
  ∧ (FeatureLoader.delete "/proj" "." (sample_world false)).1 = Normal true
  ∧ disk (sample_world false) !! ("/proj", "feature-1") = Some (sample_feature false)
  ∧ disk (FeatureLoader.delete "/proj" "." (sample_world false)).2 !! ("/proj", "feature-1")
    = None.
Proof. repeat split; vm_compute; reflexivity. Qed.

(** The same feature under another spelling of its id, and a removal that
    fails after it has emptied the directory. *)
Example delete_by_another_spelling :
  disk (FeatureLoader.delete "/proj/" "a/../feature-1" (sample_world false)).2
    !! ("/proj", "feature-1") = None.
Proof. vm_compute. reflexivity. Qed.

Example delete_that_fails_half_way :
  (FeatureLoader.delete "/proj" "feature-1" stuck_directory_world).1 = Normal false
  ∧ disk (FeatureLoader.delete "/proj" "feature-1" stuck_directory_world).2
      !! ("/proj", "feature-1") = None.
Proof. split; vm_compute; reflexivity. Qed.

(* ===================================================================== *)
(** ** The status mutation gateway *)
(* ===================================================================== *)

Lemma has_id_true (fid : string) (f : Feature) :
  has_id fid f = true ↔ f !! "id" = Some (JStr fid).
Proof.
  unfold has_id, strict_eq_string.
  destruct (f !! "id") as [[| | |s| |]|]; try (split; [discriminate|congruence]).
  rewrite String.eqb_eq. split; congruence.
Qed.

Lemma elem_of_loadFeatures (w : World) (p : string) (f : Feature) :
  f ∈ (omap (fun kf : (string * string) * Feature =>
               if decide (kf.1.1 = p) then Some kf.2 else None)
            (map_to_list (disk w)))
  ↔ ∃ k, disk w !! (p, k) = Some f.
Proof.
  rewrite list_elem_of_omap. split.
  - intros [[[p' k] f'] [Hin Hsome]]. cbn in Hsome.
    destruct (decide (p' = p)) as [->|]; [|discriminate].
    injection Hsome as ->. exists k. by apply elem_of_map_to_list in Hin.
  - intros [k Hk]. exists ((p, k), f). split.
    + by apply elem_of_map_to_list.
    + cbn. by rewrite decide_True.
Qed.

(** In a well-formed store, looking a feature up by its [id] field in the
    listing is the lookup by key. *)
Lemma find_loadFeatures (w : World) (p fid : string) :
  StoreWf p (disk w) →
  ∃ features,
    ElectronFeatureLoader.loadFeatures p w
    = (Normal features, with_loads (loads w ++ [p]) w)
    ∧ List.find (has_id fid) features = disk w !! (p, fid).
Proof.
  intros Hwf. eexists. split; [reflexivity|].
  match goal with |- List.find _ ?l = _ => set (features := l) end.
  destruct (List.find (has_id fid) features) as [x|] eqn:Hfind.
  - apply find_some in Hfind as [Hin Hid].
    apply list_elem_of_In, elem_of_loadFeatures in Hin as [k Hk].
    apply has_id_true in Hid.
    pose proof (Hwf k x Hk) as Hidk.
    rewrite Hid in Hidk. injection Hidk as ->. by rewrite Hk.
  - destruct (disk w !! (p, fid)) as [f|] eqn:Hd; [|reflexivity].
    exfalso.
    assert (Hin : In f features).
    { apply list_elem_of_In, elem_of_loadFeatures. by exists fid. }
    pose proof (find_none _ _ Hfind f Hin) as Hno.
    pose proof (proj2 (has_id_true fid f) (Hwf fid f Hd)) as Hyes.
    congruence.
Qed.

Lemma append_cancel_l (a b c : string) : a +:+ b = a +:+ c → b = c.
Proof.
  induction a as [|ch a IH]; cbn; [done|].
  intros H. injection H as H. by apply IH.
Qed.

(** The text returned for a rewritten status is not the text of any direct
    write for the same feature. *)
Lemma converted_message_distinct (fid : string) (s : McpServerFactory.AgentStatus) :
  McpServerFactory.converted_message fid "waiting_approval" "verified"
  ≠ McpServerFactory.direct_message fid (McpServerFactory.status_string s).
Proof.
  unfold McpServerFactory.converted_message, McpServerFactory.direct_message.
  intros H.
  apply (append_cancel_l "Successfully updated feature ") in H.
  apply append_cancel_l in H.
  destruct s; cbn in H; discriminate.
Qed.

Lemma updateFeatureStatus_present (w : World) (p fid status : string) (f : Feature) :
  disk w !! (p, fid) = Some f →
  faults w (op_readFile (featureJsonPath p fid)) = None →
  faults w (op_writeFile (featureJsonPath p fid)) = None →
  ElectronFeatureLoader.updateFeatureStatus fid status p w =
    (Normal tt,
     with_trace (trace w ++ [console_log ("[FeatureLoader] Updated feature " +:+ fid)])
       (with_disk (<[(p, fid) := <["status" := JStr status]> f]> (disk w)) w)).
Proof.
  intros Hd Hr Hw.
  unfold ElectronFeatureLoader.updateFeatureStatus, bind.
  rewrite (update_present w p fid f _ Hd Hr Hw).
  by rewrite <- insert_union_singleton_l.
Qed.

(** C1. For a stored feature [f], [setStatus(f.id, verified)] returns, and
    afterwards the stored record is [f] with [status] set to
    [waiting_approval] when [f.skipTests] is [true] and to [verified] when it
    is [false]. The text returned in the rewritten case mentions the
    conversion and differs from the text of every direct write. *)
Theorem C1_setStatus_verified (w : World) (p fid : string) (f : Feature) (skipTests : bool) :
  StoreWf p (disk w) →
  disk w !! (p, fid) = Some f →
  f !! "skipTests" = Some (JBool skipTests) →
  faults w (op_readFile (featureJsonPath p fid)) = None →
  faults w (op_writeFile (featureJsonPath p fid)) = None →
  ∃ (text : string) (w' : World),
    setStatus p {| McpServerFactory.featureId := fid;
                   McpServerFactory.status := McpServerFactory.verified |} w
      = (Normal {| McpServerFactory.content := [McpServerFactory.text_content text] |}, w')
    ∧ disk w' !! (p, fid)
        = Some (<["status" := JStr (if skipTests then "waiting_approval" else "verified")]> f)
    ∧ (disk w' !! (p, fid)) ≫= (fun stored => stored !! "status")
        = Some (JStr (if skipTests then "waiting_approval" else "verified"))
    ∧ (if skipTests
       then text = McpServerFactory.converted_message fid "waiting_approval" "verified"
            ∧ ∀ s, text ≠ McpServerFactory.direct_message fid
                              (McpServerFactory.status_string s)
       else text = McpServerFactory.direct_message fid "verified").
Proof.
  intros Hwf Hd Hskip Hr Hw.
  unfold setStatus, McpServerFactory.UpdateFeatureStatus, try_catch.
  unfold bind at 1. cbn [effect McpServerFactory.featureId McpServerFactory.status
                         McpServerFactory.status_string].
  unfold bind at 1.
  match goal with
  | |- context [ElectronFeatureLoader.loadFeatures p ?w0] =>
      destruct (find_loadFeatures w0 p fid Hwf) as (features & Hload & Hfind)
  end.
  cbn [disk with_trace] in Hfind. rewrite Hd in Hfind.
  rewrite Hload, Hfind, Hskip.
  destruct skipTests; cbn [strict_eq_true andb String.eqb Ascii.eqb Bool.eqb].
  - unfold bind at 1. cbn [effect].
    unfold bind at 1.
    erewrite updateFeatureStatus_present; [|exact Hd|exact Hr|exact Hw].
    cbn. eexists _, _. split; [reflexivity|]. cbn.
    rewrite lookup_insert_eq. split; [reflexivity|]. cbn.
    rewrite lookup_insert_eq. split; [reflexivity|].
    split; [reflexivity|]. apply converted_message_distinct.
  - unfold bind at 1. cbn [ret].
    unfold bind at 1.
    erewrite updateFeatureStatus_present; [|exact Hd|exact Hr|exact Hw].
    cbn. eexists _, _. split; [reflexivity|]. cbn.
    rewrite lookup_insert_eq. split; [reflexivity|]. cbn.
    rewrite lookup_insert_eq. split; reflexivity.
Qed.

Lemma sample_world_wf (b : bool) : StoreWf "/proj" (disk (sample_world b)).
Proof.
  intros k f H. cbn in H.
  apply lookup_singleton_Some in H as [Hk <-].
  injection Hk as <-. by vm_compute.
Qed.

Lemma empty_world_wf (p : string) : StoreWf p (disk empty_world).
Proof. intros k f H. cbn in H. by rewrite lookup_empty in H. Qed.

(** The sample feature with [skipTests] set: the write is rewritten. *)
Lemma C1_setStatus_verified_witness :
  ∃ (text : string) (w' : World),
    setStatus "/proj" verified_args (sample_world true)
      = (Normal {| McpServerFactory.content := [McpServerFactory.text_content text] |}, w')
    ∧ disk w' !! ("/proj", "feature-1")
        = Some (<["status" := JStr "waiting_approval"]> (sample_feature true))
    ∧ (disk w' !! ("/proj", "feature-1")) ≫= (fun stored => stored !! "status")
        = Some (JStr "waiting_approval")
    ∧ (text = McpServerFactory.converted_message "feature-1" "waiting_approval" "verified"
       ∧ ∀ s, text ≠ McpServerFactory.direct_message "feature-1"
                         (McpServerFactory.status_string s)).
Proof.
  apply (C1_setStatus_verified (sample_world true) "/proj" "feature-1"
           (sample_feature true) true).
  - apply sample_world_wf.
  - vm_compute. reflexivity.
  - vm_compute. reflexivity.
  - reflexivity.
  - reflexivity.
Defined.

(** C5 (as amended). For a [featureId] that no stored feature has,
    [setStatus] does not fail: the handler catches its own "not found" error,
    logs it, and returns an ordinary text result that reports the failure.
    The store is left unchanged. *)
Theorem C5_setStatus_absent (w : World) (p fid : string) (s : McpServerFactory.AgentStatus) :
  StoreWf p (disk w) →
  disk w !! (p, fid) = None →
  ∃ w',
    setStatus p {| McpServerFactory.featureId := fid; McpServerFactory.status := s |} w
      = (Normal {| McpServerFactory.content :=
                     [McpServerFactory.text_content
                        ("Failed to update feature status: Feature " +:+ fid
                           +:+ " not found")] |}, w')
    ∧ disk w' = disk w
    ∧ trace w' =
        (trace w ++
         [console_log ("[McpServerFactory] UpdateFeatureStatus tool called: featureId="
                         +:+ fid +:+ ", status=" +:+ McpServerFactory.status_string s);
          console_error "[McpServerFactory] UpdateFeatureStatus tool error:"
                        (new_Error ("Feature " +:+ fid +:+ " not found"))])%list.
Proof.
  intros Hwf Hd.
  unfold setStatus, McpServerFactory.UpdateFeatureStatus, try_catch.
  unfold bind at 1. cbn [effect McpServerFactory.featureId McpServerFactory.status].
  unfold bind at 1.
  match goal with
  | |- context [ElectronFeatureLoader.loadFeatures p ?w0] =>
      destruct (find_loadFeatures w0 p fid Hwf) as (features & Hload & Hfind)
  end.
  cbn [disk with_trace] in Hfind. rewrite Hd in Hfind.
  rewrite Hload, Hfind. cbn.
  eexists. split; [reflexivity|]. cbn. split; [reflexivity|].
  by rewrite <- app_assoc.
Qed.

(** The gateway on an empty store. *)
Lemma C5_setStatus_absent_witness :
  ∃ w',
    setStatus "/proj" verified_args empty_world
      = (Normal {| McpServerFactory.content :=
                     [McpServerFactory.text_content
                        ("Failed to update feature status: Feature " +:+ "feature-1"
                           +:+ " not found")] |}, w')
    ∧ disk w' = disk empty_world
    ∧ trace w' =
        (trace empty_world ++
         [console_log ("[McpServerFactory] UpdateFeatureStatus tool called: featureId="
                         +:+ "feature-1" +:+ ", status="
                         +:+ McpServerFactory.status_string McpServerFactory.verified);
          console_error "[McpServerFactory] UpdateFeatureStatus tool error:"
                        (new_Error ("Feature " +:+ "feature-1" +:+ " not found"))])%list.
Proof.
  apply (C5_setStatus_absent empty_world "/proj" "feature-1" McpServerFactory.verified).
  - apply empty_world_wf.
  - reflexivity.
Defined.

(** C5, the claim as stated fails: for an absent feature the gateway call
    completes normally with a text result; no failure reaches the caller. *)
Lemma C5_not_found_is_not_raised :
  fst (setStatus "/proj" verified_args empty_world)
    = Normal {| McpServerFactory.content :=
                  [McpServerFactory.text_content
                     "Failed to update feature status: Feature feature-1 not found"] |}
  ∧ ¬ ∃ e, fst (setStatus "/proj" verified_args empty_world) = Throw e.
Proof.
  assert (H : fst (setStatus "/proj" verified_args empty_world)
              = Normal {| McpServerFactory.content :=
                            [McpServerFactory.text_content
                               "Failed to update feature status: Feature feature-1 not found"] |})
    by (vm_compute; reflexivity).
  split; [exact H|].
  intros [e He]. rewrite H in He. discriminate.
Qed.

(* ===================================================================== *)
(** ** Quiet computations *)
(* ===================================================================== *)

Lemma phases_app (a b : list Effect) : phases (a ++ b) = (phases a ++ phases b)%list.
Proof. apply omap_app. Qed.

Lemma quiet_refl (w : World) : quiet w w.
Proof. by repeat split. Qed.

Lemma quiet_trans (w1 w2 w3 : World) : quiet w1 w2 → quiet w2 w3 → quiet w1 w3.
Proof.
  intros (Hp & He & Hf) (Hp' & He' & Hf').
  repeat split; congruence.
Qed.

Lemma Quiet_ret {A : Type} (a : A) : Quiet (ret a).
Proof. intros w. apply quiet_refl. Qed.

Lemma Quiet_throw {A : Type} (e : JsError) : Quiet (@throw A e).
Proof. intros w. apply quiet_refl. Qed.

Lemma Quiet_bind {A B : Type} (c : Eff A) (k : A → Eff B) :
  Quiet c → (∀ a, Quiet (k a)) → Quiet (bind c k).
Proof.
  intros Hc Hk w. unfold bind.
  specialize (Hc w). destruct (c w) as [[a|e] w1]; cbn in *; [|done].
  eapply quiet_trans; [exact Hc|apply Hk].
Qed.

Lemma Quiet_try_catch {A : Type} (c : Eff A) (h : JsError → Eff A) :
  Quiet c → (∀ e, Quiet (h e)) → Quiet (try_catch c h).
Proof.
  intros Hc Hh w. unfold try_catch.
  specialize (Hc w). destruct (c w) as [[a|e] w1]; cbn in *; [done|].
  eapply quiet_trans; [exact Hc|apply Hh].
Qed.

Lemma Quiet_effect (e : Effect) : phases [e] = [] → Quiet (effect e).
Proof.
  intros He w. repeat split. cbn.
  by rewrite phases_app, He, app_nil_r.
Qed.

Lemma Quiet_fs_readJson (p fid : string) : Quiet (fs_readJson p fid).
Proof. intros w. unfold fs_readJson. repeat case_match; apply quiet_refl. Qed.

Lemma Quiet_fs_writeJson (p fid : string) (f : Feature) : Quiet (fs_writeJson p fid f).
Proof. intros w. unfold fs_writeJson. case_match; by repeat split. Qed.

Lemma Quiet_loadFeatures (p : string) : Quiet (ElectronFeatureLoader.loadFeatures p).
Proof. intros w. by repeat split. Qed.

Create HintDb quiet.

#[local] Hint Resolve Quiet_ret Quiet_throw Quiet_bind Quiet_try_catch
  Quiet_fs_readJson Quiet_fs_writeJson Quiet_loadFeatures : quiet.
#[local] Hint Extern 1 (Quiet (effect _)) => (apply Quiet_effect; reflexivity) : quiet.
#[local] Hint Extern 2 (Quiet (if ?b then _ else _)) => destruct b : quiet.
#[local] Hint Extern 2 (Quiet (match ?x with Some _ => _ | None => _ end)) =>
  destruct x : quiet.

Lemma Quiet_get (p fid : string) : Quiet (FeatureLoader.get p fid).
Proof. unfold FeatureLoader.get. auto 10 with quiet. Qed.

Lemma Quiet_update (p fid : string) (updates : Feature) :
  Quiet (FeatureLoader.update p fid updates).
Proof.
  unfold FeatureLoader.update. pose proof Quiet_get. auto 10 with quiet.
Qed.

Lemma Quiet_updateFeatureStatus (fid status p : string) :
  Quiet (ElectronFeatureLoader.updateFeatureStatus fid status p).
Proof.
  unfold ElectronFeatureLoader.updateFeatureStatus.
  pose proof Quiet_update. auto with quiet.
Qed.

Lemma Quiet_setStatus (p : string) (args : McpServerFactory.Args) : Quiet (setStatus p args).
Proof.
  unfold setStatus, McpServerFactory.UpdateFeatureStatus.
  pose proof Quiet_updateFeatureStatus. auto 12 with quiet.
Qed.

Lemma Returns_ret {A : Type} (a : A) : Returns (ret a).
Proof. intros w. by exists a. Qed.

Lemma Returns_bind {A B : Type} (c : Eff A) (k : A → Eff B) :
  Returns c → (∀ a, Returns (k a)) → Returns (bind c k).
Proof.
  intros Hc Hk w. unfold bind.
  destruct (Hc w) as [a Ha]. destruct (c w) as [[a'|e] w1]; cbn in *; [|discriminate].
  apply Hk.
Qed.

Lemma Returns_try_catch {A : Type} (c : Eff A) (h : JsError → Eff A) :
  (∀ e, Returns (h e)) → Returns (try_catch c h).
Proof.
  intros Hh w. unfold try_catch.
  destruct (c w) as [[a|e] w1]; cbn; [by exists a|apply Hh].
Qed.

Lemma Returns_effect (e : Effect) : Returns (effect e).
Proof. intros w. by exists tt. Qed.

#[local] Hint Resolve Returns_ret Returns_bind Returns_try_catch Returns_effect : quiet.
#[local] Hint Extern 2 (Returns (if ?b then _ else _)) => destruct b : quiet.
#[local] Hint Extern 2 (Returns (match ?x with Some _ => _ | None => _ end)) =>
  destruct x : quiet.

(** The gateway never throws, whatever the store and the faults. *)
Lemma Returns_setStatus (p : string) (args : McpServerFactory.Args) : Returns (setStatus p args).
Proof.
  unfold setStatus, McpServerFactory.UpdateFeatureStatus. auto with quiet.
Qed.

Lemma callTool_spec (p toolName : string) (args : McpServerFactory.Args) :
  Quiet (McpServerFactory.callTool (FeatureExecutor.featureToolsServer p) toolName args)
  ∧ Returns (McpServerFactory.callTool (FeatureExecutor.featureToolsServer p) toolName args).
Proof.
  unfold McpServerFactory.callTool, FeatureExecutor.featureToolsServer,
    McpServerFactory.createFeatureToolsServer.
  cbn [McpServerFactory.tools List.find McpServerFactory.tool_name].
  pose proof Quiet_setStatus. pose proof Returns_setStatus.
  destruct ("UpdateFeatureStatus" =? toolName)%string;
    cbn [McpServerFactory.handler]; split; auto with quiet.
Qed.

Lemma for_of_spec {A S : Type} (body : A → S → Eff S) :
  (∀ x st, Quiet (body x st)) → (∀ x st, Returns (body x st)) →
  ∀ l st, Quiet (for_of body l st) ∧ Returns (for_of body l st).
Proof.
  intros Hq Hr l. induction l as [|x l IH]; intros st; cbn [for_of].
  - split; auto with quiet.
  - split.
    + apply Quiet_bind; [apply Hq|]. intros st'. apply IH.
    + apply Returns_bind; [apply Hr|]. intros st'. apply IH.
Qed.

Lemma implementBlock_spec (feature : FeatureExecutor.FeatureRef) (p : string)
    (block : Sdk.Block) (st : FeatureExecutor.LoopState) :
  Quiet (FeatureExecutor.implementBlock feature p block st)
  ∧ Returns (FeatureExecutor.implementBlock feature p block st).
Proof.
  unfold FeatureExecutor.implementBlock, FeatureExecutor.writeToContextFile,
    FeatureExecutor.sendToRenderer.
  destruct block; split; auto 10 with quiet.
Qed.

Lemma plainBlock_spec (feature : FeatureExecutor.FeatureRef) (p : string)
    (block : Sdk.Block) (text : string) :
  Quiet (FeatureExecutor.plainBlock feature p block text)
  ∧ Returns (FeatureExecutor.plainBlock feature p block text).
Proof.
  unfold FeatureExecutor.plainBlock, FeatureExecutor.writeToContextFile,
    FeatureExecutor.sendToRenderer.
  destruct block; split; auto 10 with quiet.
Qed.

Lemma onMessage_spec {S : Type} (onBlock : Sdk.Block → S → Eff S) :
  (∀ b st, Quiet (onBlock b st) ∧ Returns (onBlock b st)) →
  ∀ msg st,
    Quiet (FeatureExecutor.onMessage onBlock msg st)
    ∧ Returns (FeatureExecutor.onMessage onBlock msg st).
Proof.
  intros Hb msg st. unfold FeatureExecutor.onMessage.
  destruct (Sdk.type msg =? "assistant")%string; [|split; auto with quiet].
  destruct (Sdk.message_content msg) as [content|]; [|split; auto with quiet].
  apply for_of_spec; intros; apply Hb.
Qed.

(** The streaming loop: it is quiet; it throws exactly when it reaches the
    end of a stream that ends in an error, and then it throws that error;
    otherwise it returns. *)
Lemma for_await_spec {S : Type} (p : string) (body : Sdk.Message → S → Eff S) :
  (∀ msg st, Quiet (body msg st) ∧ Returns (body msg st)) →
  ∀ steps ending st w,
    quiet w (for_await (FeatureExecutor.featureToolsServer p) body steps ending st w).2
    ∧ match ending with
      | Sdk.raises e =>
          if consumed_to_end steps
          then (for_await (FeatureExecutor.featureToolsServer p) body steps ending st w).1
               = Throw e
          else ∃ st', (for_await (FeatureExecutor.featureToolsServer p) body steps ending st w).1
                      = Normal st'
      | Sdk.exhausted =>
          ∃ st', (for_await (FeatureExecutor.featureToolsServer p) body steps ending st w).1
                 = Normal st'
      end.
Proof.
  intros Hbody steps ending.
  induction steps as [|step steps IH]; intros st w; cbn [for_await consumed_to_end forallb].
  - split; [destruct ending; apply quiet_refl|].
    destruct ending; cbn; [by exists st|reflexivity].
  - destruct step as [isActive msg|toolName args].
    + destruct isActive; cbn [negb andb].
      * destruct (Hbody msg st) as [Hq Hr].
        unfold bind. specialize (Hq w). destruct (Hr w) as [st' Hst'].
        destruct (body msg st w) as [[st''|e] w1]; cbn in *; [|discriminate].
        destruct (IH st'' w1) as [IHq IHr].
        split; [by eapply quiet_trans|exact IHr].
      * split; [apply quiet_refl|]. destruct ending; by exists st.
    + destruct (callTool_spec p toolName args) as [Hq Hr].
      unfold bind. specialize (Hq w). destruct (Hr w) as [u Hu].
      destruct (McpServerFactory.callTool _ toolName args w) as [[u'|e] w1];
        cbn in *; [|discriminate].
      destruct (IH st w1) as [IHq IHr].
      split; [by eapply quiet_trans|exact IHr].
Qed.

(** Once the handle is found inactive, neither that message nor anything
    after it is consumed: the loop ends as if the stream were exhausted
    just before. *)
Lemma for_await_break {S : Type} (server : McpServerFactory.McpServer)
    (body : Sdk.Message → S → Eff S) (pre rest : list Sdk.AgentStep)
    (msg : Sdk.Message) (ending : Sdk.StreamEnd) (st : S) (w : World) :
  for_await server body (pre ++ Sdk.yield false msg :: rest) ending st w
  = for_await server body pre Sdk.exhausted st w.
Proof.
  revert st w. induction pre as [|step pre IH]; intros st w; [reflexivity|].
  cbn [for_await app]. destruct step as [isActive m|toolName args].
  - destruct isActive; cbn [negb]; [|reflexivity].
    unfold bind. destruct (body m st w) as [[st'|e] w1]; [apply IH|reflexivity].
  - unfold bind.
    destruct (McpServerFactory.callTool server toolName args w) as [[u|e] w1];
      [apply IH|reflexivity].
Qed.

(* ===================================================================== *)
(** ** The three kinds of run *)
(* ===================================================================== *)

(** Reasoning along a sequence of statements, one world at a time. *)
Lemma wp_bind {A B : Type} (Q : Completion B * World → Prop)
    (c : Eff A) (k : A → Eff B) (w : World) :
  (∀ a w1, c w = (Normal a, w1) → Q (k a w1)) →
  (∀ e w1, c w = (Throw e, w1) → Q (Throw e, w1)) →
  Q (bind c k w).
Proof.
  intros Hn Ht. unfold bind. destruct (c w) as [[a|e] w1]; [by apply Hn|by apply Ht].
Qed.

Lemma wp_try_bind {A B : Type} (Q : Completion B * World → Prop)
    (c : Eff A) (k : A → Eff B) (h : JsError → Eff B) (w : World) :
  (∀ a w1, c w = (Normal a, w1) → Q (try_catch (k a) h w1)) →
  (∀ e w1, c w = (Throw e, w1) → Q (h e w1)) →
  Q (try_catch (bind c k) h w).
Proof.
  intros Hn Ht. unfold try_catch, bind in *.
  destruct (c w) as [[a|e] w1]; [by apply Hn|by apply Ht].
Qed.

(** What a completed primitive step did to the trace and to the execution
    record. *)
Ltac step_facts Hc :=
  let Htr := fresh "Htr" in
  let Hex := fresh "Hex" in
  pose proof (f_equal (fun r : Completion _ * World => trace r.2) Hc) as Htr;
  pose proof (f_equal (fun r : Completion _ * World => execution r.2) Hc) as Hex;
  cbn in Htr, Hex; symmetry in Htr; symmetry in Hex; clear Hc.

Ltac step :=
  match goal with
  | |- context [try_catch (bind ?c ?k) ?h ?w] =>
      pattern (try_catch (bind c k) h w); apply wp_try_bind;
      [ let a := fresh "a" in let w1 := fresh "w" in let Hc := fresh "Hc" in
        intros a w1 Hc; step_facts Hc; cbv beta
      | let e := fresh "e" in let w1 := fresh "w" in let Hc := fresh "Hc" in
        intros e w1 Hc; exfalso; discriminate Hc ]
  | |- context [bind ?c ?k ?w] =>
      pattern (bind c k w); apply wp_bind;
      [ let a := fresh "a" in let w1 := fresh "w" in let Hc := fresh "Hc" in
        intros a w1 Hc; step_facts Hc; cbv beta
      | let e := fresh "e" in let w1 := fresh "w" in let Hc := fresh "Hc" in
        intros e w1 Hc; exfalso; discriminate Hc ]
  end.

(** Rewriting the trace and the execution record of the current world back
    to those of the initial one. *)
Ltac unroll :=
  repeat match goal with
         | H : trace ?x = _ |- context [trace ?x] => rewrite H
         | H : phases (trace ?x) = _ |- context [phases (trace ?x)] => rewrite H
         | H : execution ?x = _ |- context [execution ?x] => rewrite H
         | |- context [phases (_ ++ _)] => rewrite phases_app
         end.

(** The streaming loop under the [try]: case analysis on how the stream
    ends and on whether the loop gets there. *)
Ltac enter_loop p stream :=
  match goal with
  | |- context [try_catch (bind (for_await ?srv ?body ?steps ?ending ?st0) ?k) ?h ?w] =>
      let Hq := fresh "Hq" in
      let Hr := fresh "Hr" in
      let Hbody := fresh "Hbody" in
      assert (Hbody : ∀ msg st, Quiet (body msg st) ∧ Returns (body msg st))
        by (apply onMessage_spec; first [apply implementBlock_spec | apply plainBlock_spec]);
      destruct (for_await_spec p body Hbody steps ending st0 w) as [Hq Hr];
      clear Hbody;
      pattern (try_catch (bind (for_await srv body steps ending st0) k) h w);
      apply wp_try_bind;
      [ let st := fresh "st" in let w1 := fresh "w" in let Hc := fresh "Hc" in
        intros st w1 Hc; rewrite Hc in Hq, Hr; cbn [fst snd] in Hq, Hr;
        destruct Hq as (Hq & ? & _); clear Hc; cbv beta
      | let w1 := fresh "w" in let Hc := fresh "Hc" in
        intros e w1 Hc; rewrite Hc in Hq, Hr; cbn [fst snd] in Hq, Hr;
        destruct Hq as (Hq & ? & _); clear Hc; cbv beta ]
  end.

Ltac resolve_end :=
  repeat match goal with
         | H : match ?x with Sdk.exhausted => _ | Sdk.raises _ => _ end |- _ =>
             destruct x
         | H : (if ?b then _ else _) |- _ => destruct b
         | H : ∃ _, _ |- _ => destruct H
         | H : Normal _ = Throw _ |- _ => discriminate H
         | H : Throw _ = Normal _ |- _ => discriminate H
         | H : Throw _ = Throw _ |- _ => injection H as ->
         end;
  rewrite ?andb_false_r; cbn [andb phases_of_run].

Ltac close_run :=
  unfold try_catch, ret, throw; cbn [fst snd];
  repeat split;
  try (unroll; cbn; rewrite ?app_nil_r, <- ?app_assoc; reflexivity);
  try (eexists; split; [reflexivity|]; try discriminate; intros _; reflexivity);
  try (eexists; unroll; reflexivity).

Lemma run_entry_spec (pb : FeatureExecutor.PromptBuilder)
    (q : Sdk.Request → Sdk.AgentStream) (entry : Entry)
    (feature : FeatureExecutor.FeatureRef) (p : string) (w : World) :
  let stream := q (request_of pb entry feature p) in
  let r := run_entry pb q entry feature p w in
  execution r.2 = released
  ∧ phases (trace r.2)
    = (phases (trace w) ++ phases_of_run entry (raises_at_end stream))%list
  ∧ match Sdk.ending stream with
    | Sdk.raises e =>
        if consumed_to_end (Sdk.steps stream) then
          if FeatureExecutor.is_abort e then
            r.1 = Normal {| FeatureExecutor.passes := Some (JBool false);
                            FeatureExecutor.message := abort_message entry |}
          else
            r.1 = Throw e
            ∧ ∃ t, trace r.2 = (t ++ [console_error (error_log entry) e])%list
        else ∃ o, r.1 = Normal o
                  ∧ (entry = CommitOnly → FeatureExecutor.passes o = Some (JBool true))
    | Sdk.exhausted =>
        ∃ o, r.1 = Normal o
             ∧ (entry = CommitOnly → FeatureExecutor.passes o = Some (JBool true))
    end.
Proof.
  destruct entry as [|previousContext|]; intros stream r; subst r;
    unfold run_entry; unfold request_of in stream.
  - unfold FeatureExecutor.implementFeature; cbv zeta.
    unfold FeatureExecutor.sendToRenderer, FeatureExecutor.writeToContextFile.
    fold stream. unfold raises_at_end.
    repeat step.
    enter_loop p stream; resolve_end.
    + repeat step. close_run.
    + repeat step. close_run.
    + unfold FeatureExecutor.onError.
      destruct (FeatureExecutor.is_abort _) eqn:Habort; repeat step; close_run.
  - unfold FeatureExecutor.resumeFeatureWithContext; cbv zeta.
    unfold FeatureExecutor.sendToRenderer, FeatureExecutor.writeToContextFile.
    fold stream. unfold raises_at_end.
    repeat step.
    enter_loop p stream; resolve_end.
    + repeat step. close_run.
    + repeat step. close_run.
    + unfold FeatureExecutor.onError.
      destruct (FeatureExecutor.is_abort _) eqn:Habort; repeat step; close_run.
  - unfold FeatureExecutor.commitChangesOnly; cbv zeta.
    unfold FeatureExecutor.sendToRenderer, FeatureExecutor.writeToContextFile.
    fold stream. unfold raises_at_end.
    repeat step.
    enter_loop p stream; resolve_end.
    + repeat step. close_run.
    + repeat step. close_run.
    + unfold FeatureExecutor.onError.
      destruct (FeatureExecutor.is_abort _) eqn:Habort; repeat step; close_run.
Qed.

(** On a stream that raises, the run ends in the [catch] block: an abort is
    turned into an outcome, any other error is logged and thrown again; in
    both cases the execution record is cleared. *)
Lemma run_entry_raises (pb : FeatureExecutor.PromptBuilder)
    (q : Sdk.Request → Sdk.AgentStream) (entry : Entry)
    (feature : FeatureExecutor.FeatureRef) (p : string) (w : World) (e : JsError) :
  Sdk.ending (q (request_of pb entry feature p)) = Sdk.raises e →
  consumed_to_end (Sdk.steps (q (request_of pb entry feature p))) = true →
  execution (run_entry pb q entry feature p w).2 = released
  ∧ if FeatureExecutor.is_abort e then
      (run_entry pb q entry feature p w).1
      = Normal {| FeatureExecutor.passes := Some (JBool false);
                  FeatureExecutor.message := abort_message entry |}
    else
      (run_entry pb q entry feature p w).1 = Throw e
      ∧ ∃ t, trace (run_entry pb q entry feature p w).2
             = (t ++ [console_error (error_log entry) e])%list.
Proof.
  intros Hend Hcons.
  destruct (run_entry_spec pb q entry feature p w) as (Hex & _ & Hres).
  rewrite Hend, Hcons in Hres. by split.
Qed.

(** On a stream that does not raise, the run returns. *)
Lemma run_entry_returns (pb : FeatureExecutor.PromptBuilder)
    (q : Sdk.Request → Sdk.AgentStream) (entry : Entry)
    (feature : FeatureExecutor.FeatureRef) (p : string) (w : World) :
  raises_at_end (q (request_of pb entry feature p)) = false →
  ∃ o, (run_entry pb q entry feature p w).1 = Normal o
       ∧ (entry = CommitOnly → FeatureExecutor.passes o = Some (JBool true)).
Proof.
  intros Hno.
  destruct (run_entry_spec pb q entry feature p w) as (_ & _ & Hres).
  unfold raises_at_end in Hno.
  destruct (Sdk.ending _); [exact Hres|].
  destruct (consumed_to_end _); [discriminate|exact Hres].
Qed.

(* ===================================================================== *)
(** ** The event emitter *)
(* ===================================================================== *)

Lemma invoked_app (a b : list Events.BusEffect) :
  Events.invoked (a ++ b) = (Events.invoked a ++ Events.invoked b)%list.
Proof. apply omap_app. Qed.

Lemma logged_app (a b : list Events.BusEffect) :
  Events.logged (a ++ b) = (Events.logged a ++ Events.logged b)%list.
Proof. apply omap_app. Qed.

(** The loop of [emit] calls every subscriber once, in the order of the
    set, and logs exactly the errors thrown. *)
Lemma emit_loop_spec (type : Events.EventType) (payload : JValue)
    (subs : list Events.EventCallback) :
  ∀ log,
    Events.invoked (Events.emit_loop type payload subs log)
    = (Events.invoked log ++ map Events.ref subs)%list
    ∧ Events.logged (Events.emit_loop type payload subs log)
      = (Events.logged log ++ omap (fun cb => Events.call cb type payload) subs)%list.
Proof.
  induction subs as [|cb subs IH]; intros log; cbn [Events.emit_loop map].
  - cbn. by rewrite !app_nil_r.
  - destruct (Events.call cb type payload) as [error|] eqn:Hcall.
    + destruct (IH ((log ++ [Events.called (Events.ref cb) type payload])
                      ++ [Events.console_error "Error in event subscriber:" error])%list)
        as [Hi Hl].
      rewrite Hi, Hl, !invoked_app, !logged_app. cbn. rewrite Hcall.
      rewrite !app_nil_r, <- !app_assoc. done.
    + destruct (IH (log ++ [Events.called (Events.ref cb) type payload])%list) as [Hi Hl].
      rewrite Hi, Hl, !invoked_app, !logged_app. cbn. rewrite Hcall.
      rewrite !app_nil_r, <- !app_assoc. done.
Qed.

(** C8. An [emit] calls every subscriber exactly once with the event, in
    the order of the set, whichever of them throw; every error thrown is
    caught and logged; the subscriber set is the same afterwards. *)
Theorem C8_emit_isolates_subscribers (em : Events.Emitter)
    (type : Events.EventType) (payload : JValue) :
  Events.subscribers (Events.emit type payload em) = Events.subscribers em
  ∧ Events.invoked (Events.effects (Events.emit type payload em))
    = (Events.invoked (Events.effects em) ++ map Events.ref (Events.subscribers em))%list
  ∧ Events.logged (Events.effects (Events.emit type payload em))
    = (Events.logged (Events.effects em)
       ++ omap (fun cb => Events.call cb type payload) (Events.subscribers em))%list.
Proof.
  split; [reflexivity|]. apply emit_loop_spec.
Qed.

Lemma Set_has_false (cb : Events.EventCallback) (s : list Events.EventCallback) :
  Events.ref cb ∉ map Events.ref s → Events.Set_has cb s = false.
Proof.
  intros Hnot. unfold Events.Set_has.
  apply not_true_is_false. intros Hex.
  apply existsb_exists in Hex as (c & Hin & Heq).
  apply Nat.eqb_eq in Heq. apply Hnot. rewrite <- Heq.
  apply list_elem_of_fmap. exists c. split; [done|]. by apply list_elem_of_In.
Qed.

(** Subscribing distinct callbacks one after the other keeps them in the
    order of registration. *)
Lemma subscribe_all_order (cbs : list Events.EventCallback) :
  ∀ em,
    NoDup (map Events.ref (Events.subscribers em ++ cbs)) →
    Events.subscribers (fold_left (fun em cb => Events.subscribe cb em) cbs em)
    = (Events.subscribers em ++ cbs)%list.
Proof.
  induction cbs as [|cb cbs IH]; intros em Hnd; cbn [fold_left].
  - by rewrite app_nil_r.
  - assert (Hfresh : Events.Set_has cb (Events.subscribers em) = false).
    { apply Set_has_false. rewrite map_app in Hnd. cbn in Hnd.
      apply NoDup_app in Hnd as (_ & Hdis & _).
      intros Hin. apply (Hdis _ Hin). left. }
    rewrite IH; unfold Events.subscribe, Events.Set_add; cbn [Events.subscribers];
      rewrite Hfresh; rewrite <- app_assoc; [done|exact Hnd].
Qed.

Example emit_past_a_throwing_subscriber :
  Events.invoked
    (Events.effects
       (Events.emit Events.feature_progress JNull
          {| Events.subscribers := [well_behaved 1; always_throws 2; well_behaved 3];
             Events.effects := [] |}))
  = [1; 2; 3].
Proof. reflexivity. Qed.

(* ===================================================================== *)
(** ** The running-agents registry *)
(* ===================================================================== *)

Lemma Map_has_In {V : Type} (k : string) (m : list (string * V)) :
  RunningAgents.Map_has k m = true ↔ In k (map fst m).
Proof.
  unfold RunningAgents.Map_has. rewrite existsb_exists. split.
  - intros ([k' v] & Hin & Heq). cbn in Heq. apply String.eqb_eq in Heq as <-.
    apply in_map_iff. by exists (k', v).
  - intros Hin. apply in_map_iff in Hin as ([k' v] & Hk & Hin). cbn in Hk. subst k'.
    exists (k, v). split; [done|]. cbn. apply String.eqb_refl.
Qed.

Lemma Map_set_keys {V : Type} (k k' : string) (v : V) (m : list (string * V)) :
  In k' (map fst (RunningAgents.Map_set k v m)) ↔ k' = k ∨ In k' (map fst m).
Proof.
  induction m as [|[k0 v0] m IH]; cbn.
  - split; [intros [<-|[]]; by left|intros [->|[]]; by left].
  - destruct (String.eqb_spec k0 k) as [->|Hne]; cbn.
    + split; [intros [<-|H]; [by left|by right; right]
             |intros [->|[<-|H]]; [by left|by left|by right]].
    + rewrite IH. split.
      * intros [H|[H|H]]; [right; by left|by left|right; by right].
      * intros [H|[H|H]]; [right; by left|by left|right; by right].
Qed.

Lemma Map_set_NoDup {V : Type} (k : string) (v : V) (m : list (string * V)) :
  List.NoDup (map fst m) → List.NoDup (map fst (RunningAgents.Map_set k v m)).
Proof.
  induction m as [|[k0 v0] m IH]; cbn; intros Hnd.
  - constructor; [intros []|constructor].
  - inversion Hnd as [|? ? Hnotin Hnd']; subst.
    destruct (String.eqb_spec k0 k) as [->|Hne]; cbn.
    + by constructor.
    + constructor; [|by apply IH].
      rewrite Map_set_keys. intros [->|H]; [done|by apply Hnotin].
Qed.

Lemma Map_delete_keys {V : Type} (k k' : string) (m : list (string * V)) :
  List.NoDup (map fst m) →
  In k' (map fst (RunningAgents.Map_delete k m)) ↔ k' ≠ k ∧ In k' (map fst m).
Proof.
  induction m as [|[k0 v0] m IH]; cbn; intros Hnd.
  - split; [intros []|intros [_ []]].
  - inversion Hnd as [|? ? Hnotin Hnd']; subst.
    destruct (String.eqb_spec k0 k) as [->|Hne]; cbn.
    + split.
      * intros Hin. split; [intros ->; by apply Hnotin|by right].
      * intros [Hne [->|Hin]]; [done|exact Hin].
    + rewrite (IH Hnd'). split.
      * intros [<-|[H1 H2]]; [split; [done|by left]|split; [done|by right]].
      * intros [H1 [H2|H2]]; [by left|right; by split].
Qed.

Lemma Map_delete_NoDup {V : Type} (k : string) (m : list (string * V)) :
  List.NoDup (map fst m) → List.NoDup (map fst (RunningAgents.Map_delete k m)).
Proof.
  induction m as [|[k0 v0] m IH]; cbn; intros Hnd; [constructor|].
  inversion Hnd as [|? ? Hnotin Hnd']; subst.
  destruct (String.eqb_spec k0 k) as [->|Hne]; cbn; [done|].
  constructor; [|by apply IH].
  rewrite (Map_delete_keys _ _ _ Hnd'). intros [_ H]. by apply Hnotin.
Qed.

Lemma idle_Consistent : Consistent RunningAgents.idle.
Proof.
  repeat split; cbn; try constructor; try done.
Qed.

Lemma run_request_Consistent (basename : string → string) (fid p : string) (auto : bool)
    (o : RunningAgents.Orchestrator) :
  Consistent o → Consistent (RunningAgents.run_request basename fid p auto o).2.
Proof.
  intros (Hh & Hm & Hiff). unfold RunningAgents.run_request.
  destruct (RunningAgents.isAgentRunning fid (RunningAgents.registry o)) eqn:Hrun;
    cbn [snd]; [exact (conj Hh (conj Hm Hiff))|].
  unfold Consistent, RunningAgents.isAgentRunning, RunningAgents.registerRunningAgent in *.
  cbn [RunningAgents.runningAgentsMap RunningAgents.registry RunningAgents.handles].
  split; [|split].
  - constructor; [|exact Hh]. rewrite Hiff, Hrun. discriminate.
  - by apply Map_set_NoDup.
  - intros fid'. rewrite Map_has_In, Map_set_keys. cbn [In].
    rewrite Hiff, Map_has_In. split; (intros [->|H]; [by left|by right]).
Qed.

Lemma run_end_Consistent (fid : string) (o : RunningAgents.Orchestrator) :
  Consistent o → Consistent (RunningAgents.run_end fid o).
Proof.
  intros (Hh & Hm & Hiff). unfold RunningAgents.run_end.
  destruct (RunningAgents.isAgentRunning fid (RunningAgents.registry o)) eqn:Hrun;
    [|exact (conj Hh (conj Hm Hiff))].
  unfold Consistent, RunningAgents.isAgentRunning, RunningAgents.unregisterRunningAgent in *.
  cbn [RunningAgents.runningAgentsMap RunningAgents.registry RunningAgents.handles].
  split; [|split].
  - by apply List.NoDup_filter.
  - by apply Map_delete_NoDup.
  - intros fid'. rewrite filter_In, Map_has_In, (Map_delete_keys _ _ _ Hm).
    rewrite Hiff, Map_has_In, negb_true_iff, String.eqb_neq. tauto.
Qed.

Lemma serve_all_Consistent (basename : string → string) (calls : list RunningAgents.Call) :
  ∀ o, Consistent o → Consistent (RunningAgents.serve_all basename calls o).
Proof.
  induction calls as [|c calls IH]; intros o Ho; [exact Ho|].
  apply IH. destruct c as [fid p auto|fid]; cbn [RunningAgents.serve].
  - by apply run_request_Consistent.
  - by apply run_end_Consistent.
Qed.

(** C3. With run requests admitted against the registry, no feature id ever
    has two live execution handles, whatever run requests and run ends are
    served in whatever order. While a feature is registered, a run request
    for it is answered [Busy] and changes nothing (it is not queued); of two
    run requests for a feature that is not registered, the first is accepted
    and the second is answered [Busy]. *)
Theorem C3_one_run_per_feature (basename : string → string)
    (calls : list RunningAgents.Call) (fid p1 p2 : string) (a1 a2 : bool) :
  let o := RunningAgents.serve_all basename calls RunningAgents.idle in
  (count_occ string_dec (RunningAgents.handles o) fid ≤ 1)%nat
  ∧ (RunningAgents.isAgentRunning fid (RunningAgents.registry o) = true →
     RunningAgents.run_request basename fid p1 a1 o = (RunningAgents.Busy, o))
  ∧ (RunningAgents.isAgentRunning fid (RunningAgents.registry o) = false →
     ∃ o1,
       RunningAgents.run_request basename fid p1 a1 o = (RunningAgents.Accepted, o1)
       ∧ RunningAgents.run_request basename fid p2 a2 o1 = (RunningAgents.Busy, o1)
       ∧ count_occ string_dec (RunningAgents.handles o1) fid = 1).
Proof.
  intros o.
  assert (Ho : Consistent o) by apply serve_all_Consistent, idle_Consistent.
  split; [|split].
  - destruct Ho as (Hh & _). by apply NoDup_count_occ.
  - intros Hrun. unfold RunningAgents.run_request. by rewrite Hrun.
  - intros Hrun.
    pose proof (run_request_Consistent basename fid p1 a1 o Ho) as Ho1.
    unfold RunningAgents.run_request in *. rewrite Hrun in *. cbn [snd] in Ho1.
    eexists. split; [reflexivity|].
    assert (Hrun1 : RunningAgents.isAgentRunning fid
                      (RunningAgents.registerRunningAgent basename fid p1 a1
                         (RunningAgents.registry o)) = true).
    { unfold RunningAgents.isAgentRunning, RunningAgents.registerRunningAgent.
      cbn [RunningAgents.runningAgentsMap]. apply Map_has_In, Map_set_keys. by left. }
    cbn [RunningAgents.registry]. rewrite Hrun1. split; [reflexivity|].
    destruct Ho1 as (Hh1 & _). cbn [RunningAgents.handles] in *.
    apply NoDup_count_occ'; [exact Hh1|by left].
Qed.

(** A second request while [feature-1] runs, and two requests in a row from
    the idle orchestrator. *)
Lemma C3_one_run_per_feature_witness :
  RunningAgents.run_request sample_basename "feature-1" "/elsewhere" false
    (RunningAgents.serve_all sample_basename
       [RunningAgents.call_run "feature-1" "/proj" true] RunningAgents.idle)
  = (RunningAgents.Busy,
     RunningAgents.serve_all sample_basename
       [RunningAgents.call_run "feature-1" "/proj" true] RunningAgents.idle)
  ∧ ∃ o1,
      RunningAgents.run_request sample_basename "feature-1" "/proj" true
        (RunningAgents.serve_all sample_basename [] RunningAgents.idle)
      = (RunningAgents.Accepted, o1)
      ∧ RunningAgents.run_request sample_basename "feature-1" "/elsewhere" false o1
        = (RunningAgents.Busy, o1)
      ∧ count_occ string_dec (RunningAgents.handles o1) "feature-1" = 1.
Proof.
  split.
  - apply (C3_one_run_per_feature sample_basename
             [RunningAgents.call_run "feature-1" "/proj" true]
             "feature-1" "/elsewhere" "/elsewhere" false false).
    reflexivity.
  - apply (C3_one_run_per_feature sample_basename [] "feature-1" "/proj" "/elsewhere"
             true false).
    reflexivity.
Defined.

(** C4 (as amended). When the agent runtime raises while the stream is
    consumed, the run ends in its [catch] block. An abort (an instance of
    [AbortError], or an error named [AbortError]) is not propagated: the run
    returns the outcome with [passes] false and the message [Auto mode
    aborted] ([Resume aborted] for a resumed run, [Commit aborted] for a
    commit-only run). Any other error is logged and thrown again to the
    caller. In both cases the fields of the execution record are cleared. *)
Theorem C4_runtime_errors (pb : FeatureExecutor.PromptBuilder)
    (q : Sdk.Request → Sdk.AgentStream) (entry : Entry)
    (feature : FeatureExecutor.FeatureRef) (p : string) (w : World) (e : JsError) :
  Sdk.ending (q (request_of pb entry feature p)) = Sdk.raises e →
  consumed_to_end (Sdk.steps (q (request_of pb entry feature p))) = true →
  execution (run_entry pb q entry feature p w).2
    = {| abortController := None; query := None |}
  ∧ if FeatureExecutor.is_abort e then
      (run_entry pb q entry feature p w).1
      = Normal {| FeatureExecutor.passes := Some (JBool false);
                  FeatureExecutor.message :=
                    match entry with
                    | Implement => "Auto mode aborted"
                    | Resume _ => "Resume aborted"
                    | CommitOnly => "Commit aborted"
                    end |}
    else
      (run_entry pb q entry feature p w).1 = Throw e
      ∧ ∃ t, trace (run_entry pb q entry feature p w).2
             = (t ++ [console_error (error_log entry) e])%list.
Proof. apply run_entry_raises. Qed.

(** A stream that raises [AbortError], and one that raises another error. *)
Lemma C4_runtime_errors_witness :
  (run_entry sample_promptBuilder (scripted aborted_stream) Implement sample_ref "/proj"
     (sample_world false)).1
  = Normal {| FeatureExecutor.passes := Some (JBool false);
              FeatureExecutor.message := "Auto mode aborted" |}
  ∧ (run_entry sample_promptBuilder (scripted failing_stream) Implement sample_ref "/proj"
       (sample_world false)).1
    = Throw network_error.
Proof.
  split.
  - apply (C4_runtime_errors sample_promptBuilder (scripted aborted_stream) Implement
             sample_ref "/proj" (sample_world false) AbortError); reflexivity.
  - apply (C4_runtime_errors sample_promptBuilder (scripted failing_stream) Implement
             sample_ref "/proj" (sample_world false) network_error); reflexivity.
Defined.

(** C4, the claim as stated fails: the outcome of an aborted run carries the
    message [Auto mode aborted], not [aborted]. *)
Lemma C4_abort_message_differs :
  (run_entry sample_promptBuilder (scripted aborted_stream) Implement sample_ref "/proj"
     (sample_world false)).1
  ≠ Normal {| FeatureExecutor.passes := Some (JBool false);
              FeatureExecutor.message := "aborted" |}.
Proof. vm_compute. discriminate. Qed.

(** C2. The code at the failing input: the agent has marked the feature
    verified through the gateway, then the handle is found inactive at the
    next message. The loop stops there, but the run goes on to the
    verification phase and returns the result of the verification read,
    [passes] true, instead of an aborted outcome. *)
Theorem C2_cancelled_run_reaches_verification :
  (run_entry sample_promptBuilder (scripted cancelled_after_verified) Implement
     sample_ref "/proj" (sample_world false)).1
  = Normal {| FeatureExecutor.passes := Some (JBool true);
              FeatureExecutor.message := "" |}
  ∧ phases (trace (run_entry sample_promptBuilder (scripted cancelled_after_verified)
                     Implement sample_ref "/proj" (sample_world false)).2)
    = [planning; action; verification].
Proof. split; vm_compute; reflexivity. Qed.

(** *** The calls of [loadFeatures] *)

Lemma Loads_ret {A : Type} (a : A) : Loads [] (ret a).
Proof. intros w. by rewrite app_nil_r. Qed.

Lemma Loads_throw {A : Type} (e : JsError) : Loads [] (@throw A e).
Proof. intros w. by rewrite app_nil_r. Qed.

Lemma Loads_effect (e : Effect) : Loads [] (effect e).
Proof. intros w. by rewrite app_nil_r. Qed.

Lemma Loads_set_query (x : option Query) : Loads [] (set_query x).
Proof. intros w. by rewrite app_nil_r. Qed.

Lemma Loads_set_abortController (x : option AbortController) :
  Loads [] (set_abortController x).
Proof. intros w. by rewrite app_nil_r. Qed.

Lemma Loads_fs_readJson (p fid : string) : Loads [] (fs_readJson p fid).
Proof. intros w. rewrite app_nil_r. unfold fs_readJson. by repeat case_match. Qed.

Lemma Loads_fs_writeJson (p fid : string) (f : Feature) : Loads [] (fs_writeJson p fid f).
Proof. intros w. rewrite app_nil_r. unfold fs_writeJson. by case_match. Qed.

Lemma Loads_loadFeatures (p : string) : Loads [p] (ElectronFeatureLoader.loadFeatures p).
Proof. by intros w. Qed.

(** Sequencing, when the first part cannot throw. *)
Lemma Loads_bind {A B : Type} (l1 l2 : list string) (c : Eff A) (k : A → Eff B) :
  Loads l1 c → Returns c → (∀ a, Loads l2 (k a)) → Loads (l1 ++ l2) (bind c k).
Proof.
  intros Hc Hr Hk w. unfold bind.
  specialize (Hc w). destruct (Hr w) as [a Ha].
  destruct (c w) as [[a'|e] w1]; cbn in *; [|discriminate].
  by rewrite (Hk a' w1), Hc, (assoc_L (++)).
Qed.

Lemma Loads_after {A B : Type} (l : list string) (c : Eff A) (k : A → Eff B) :
  Loads [] c → Returns c → (∀ a, Loads l (k a)) → Loads l (bind c k).
Proof. intros Hc Hr Hk. by apply (Loads_bind [] l). Qed.

(** Sequencing, when the first part always throws. *)
Lemma Loads_bind_throws {A B : Type} (l : list string) (c : Eff A) (k : A → Eff B) :
  Loads l c → (∀ w, ∃ e, (c w).1 = Throw e) → Loads l (bind c k).
Proof.
  intros Hc Ht w. unfold bind.
  specialize (Hc w). destruct (Ht w) as [e He].
  by destruct (c w) as [[a|e'] w1]; cbn in *.
Qed.

(** Sequencing, when what follows makes no call. *)
Lemma Loads_bind_l {A B : Type} (l : list string) (c : Eff A) (k : A → Eff B) :
  Loads l c → (∀ a, Loads [] (k a)) → Loads l (bind c k).
Proof.
  intros Hc Hk w. unfold bind.
  specialize (Hc w). destruct (c w) as [[a|e] w1]; cbn in *; [|done].
  by rewrite (Hk a w1), app_nil_r.
Qed.

Lemma Loads_try_catch {A : Type} (l : list string) (c : Eff A) (h : JsError → Eff A) :
  Loads l c → (∀ e, Loads [] (h e)) → Loads l (try_catch c h).
Proof.
  intros Hc Hh w. unfold try_catch.
  specialize (Hc w). destruct (c w) as [[a|e] w1]; cbn in *; [done|].
  by rewrite (Hh e w1), app_nil_r.
Qed.

Create HintDb loads.

#[local] Hint Resolve Loads_ret Loads_throw Loads_effect Loads_set_query
  Loads_set_abortController Loads_fs_readJson Loads_fs_writeJson Loads_bind_l
  Loads_try_catch : loads.
#[local] Hint Extern 2 (Loads [] (if ?b then _ else _)) => destruct b : loads.
#[local] Hint Extern 2 (Loads [] (match ?x with Some _ => _ | None => _ end)) =>
  destruct x : loads.

Lemma Loads_updateFeatureStatus (fid status p : string) :
  Loads [] (ElectronFeatureLoader.updateFeatureStatus fid status p).
Proof.
  unfold ElectronFeatureLoader.updateFeatureStatus, FeatureLoader.update, FeatureLoader.get.
  auto 12 with loads.
Qed.

(** The gateway lists the features once, whatever it is asked and however
    it ends. *)
Lemma Loads_setStatus (p : string) (args : McpServerFactory.Args) :
  Loads [p] (setStatus p args).
Proof.
  unfold setStatus, McpServerFactory.UpdateFeatureStatus.
  pose proof Loads_updateFeatureStatus.
  apply Loads_try_catch; [|auto with loads].
  apply Loads_after; [auto with loads|apply Returns_effect|]. intros _.
  apply Loads_bind_l; [apply Loads_loadFeatures|]. intros features.
  auto 12 with loads.
Qed.

Lemma Loads_callTool (p toolName : string) (args : McpServerFactory.Args) :
  Loads (repeat p (if String.eqb "UpdateFeatureStatus" toolName then 1 else 0))
    (McpServerFactory.callTool (FeatureExecutor.featureToolsServer p) toolName args).
Proof.
  unfold McpServerFactory.callTool, FeatureExecutor.featureToolsServer,
    McpServerFactory.createFeatureToolsServer.
  cbn [McpServerFactory.tools List.find McpServerFactory.tool_name].
  destruct ("UpdateFeatureStatus" =? toolName)%string;
    cbn [McpServerFactory.handler repeat]; [|auto with loads].
  apply Loads_bind_l; [apply Loads_setStatus|auto with loads].
Qed.

Lemma Loads_for_of {A S : Type} (body : A → S → Eff S) :
  (∀ x st, Loads [] (body x st)) → ∀ l st, Loads [] (for_of body l st).
Proof.
  intros Hb l. induction l as [|x l IH]; intros st; cbn [for_of]; auto with loads.
Qed.

Lemma Loads_implementBlock (feature : FeatureExecutor.FeatureRef) (p : string)
    (block : Sdk.Block) (st : FeatureExecutor.LoopState) :
  Loads [] (FeatureExecutor.implementBlock feature p block st).
Proof.
  unfold FeatureExecutor.implementBlock, FeatureExecutor.writeToContextFile,
    FeatureExecutor.sendToRenderer.
  destruct block; auto 10 with loads.
Qed.

Lemma Loads_plainBlock (feature : FeatureExecutor.FeatureRef) (p : string)
    (block : Sdk.Block) (text : string) :
  Loads [] (FeatureExecutor.plainBlock feature p block text).
Proof.
  unfold FeatureExecutor.plainBlock, FeatureExecutor.writeToContextFile,
    FeatureExecutor.sendToRenderer.
  destruct block; auto 10 with loads.
Qed.

Lemma Loads_onMessage {S : Type} (onBlock : Sdk.Block → S → Eff S) :
  (∀ b st, Loads [] (onBlock b st)) →
  ∀ msg st, Loads [] (FeatureExecutor.onMessage onBlock msg st).
Proof.
  intros Hb msg st. unfold FeatureExecutor.onMessage.
  destruct (Sdk.type msg =? "assistant")%string; [|auto with loads].
  destruct (Sdk.message_content msg); [|auto with loads].
  by apply Loads_for_of.
Qed.

Lemma repeat_add {A : Type} (x : A) (n m : nat) :
  repeat x (n + m) = (repeat x n ++ repeat x m)%list.
Proof. induction n as [|n IH]; [done|]. cbn. by rewrite IH. Qed.

(** The streaming loop lists the features once for each call of the
    gateway's tool that it lets through, and for nothing else. *)
Lemma Loads_for_await {S : Type} (p : string) (body : Sdk.Message → S → Eff S)
    (ending : Sdk.StreamEnd) :
  (∀ msg st, Loads [] (body msg st)) →
  (∀ msg st, Returns (body msg st)) →
  ∀ steps st,
    Loads (repeat p (gateway_calls steps))
      (for_await (FeatureExecutor.featureToolsServer p) body steps ending st).
Proof.
  intros Hb Hr steps.
  induction steps as [|step steps IH]; intros st; cbn [for_await gateway_calls].
  - destruct ending; auto with loads.
  - destruct step as [[|] msg|toolName args]; cbn [negb].
    + apply Loads_after; [apply Hb|apply Hr|]. intros st'. apply IH.
    + auto with loads.
    + rewrite repeat_add. apply Loads_bind; [apply Loads_callTool| |intros _; apply IH].
      apply callTool_spec.
Qed.

Lemma Loads_onError (abortLog abortMessage errorLog : string) (e : JsError) :
  Loads [] (FeatureExecutor.onError abortLog abortMessage errorLog e).
Proof. unfold FeatureExecutor.onError. auto 10 with loads. Qed.

Lemma Returns_set_query (x : option Query) : Returns (set_query x).
Proof. intros w. by exists tt. Qed.

Lemma Returns_set_abortController (x : option AbortController) :
  Returns (set_abortController x).
Proof. intros w. by exists tt. Qed.

(** A step of a run outside its loop: it lists no feature and cannot
    throw. *)
Ltac plain_steps :=
  repeat (apply Loads_after;
          [ auto with loads
          | first [apply Returns_effect | apply Returns_set_query
                  | apply Returns_set_abortController]
          | intros _ ]).

(** The streaming loop of a run: its calls, and how it ends. *)
Lemma for_await_loads {S : Type} (p : string) (body : Sdk.Message → S → Eff S)
    (stream : Sdk.AgentStream) (st : S) :
  (∀ msg st, Loads [] (body msg st)) →
  (∀ msg st, Quiet (body msg st) ∧ Returns (body msg st)) →
  Loads (repeat p (gateway_calls (Sdk.steps stream)))
    (for_await (FeatureExecutor.featureToolsServer p) body (Sdk.steps stream)
       (Sdk.ending stream) st)
  ∧ if raises_at_end stream
    then ∀ w, ∃ e, (for_await (FeatureExecutor.featureToolsServer p) body
                      (Sdk.steps stream) (Sdk.ending stream) st w).1 = Throw e
    else Returns (for_await (FeatureExecutor.featureToolsServer p) body
                    (Sdk.steps stream) (Sdk.ending stream) st).
Proof.
  intros Hl Hb. split; [apply Loads_for_await; [exact Hl|apply Hb]|].
  unfold raises_at_end.
  destruct (Sdk.ending stream) as [|e] eqn:Hend.
  - rewrite andb_false_r. intros w.
    by destruct (for_await_spec p body Hb (Sdk.steps stream) Sdk.exhausted st w).
  - rewrite andb_true_r.
    destruct (consumed_to_end (Sdk.steps stream)) eqn:Hcons; intros w;
      destruct (for_await_spec p body Hb (Sdk.steps stream) (Sdk.raises e) st w)
        as [_ Hres]; rewrite Hcons in Hres; [by exists e|exact Hres].
Qed.

(** The [loadFeatures] calls of a run: one for each call of the gateway's
    tool by the agent, and after them the one with which [implementFeature]
    and [resumeFeatureWithContext] verify the result, unless the stream
    raises; [commitChangesOnly] makes no call of its own. *)
Lemma run_entry_loads (pb : FeatureExecutor.PromptBuilder)
    (q : Sdk.Request → Sdk.AgentStream) (entry : Entry)
    (feature : FeatureExecutor.FeatureRef) (p : string) :
  let stream := q (request_of pb entry feature p) in
  Loads (repeat p (gateway_calls (Sdk.steps stream))
         ++ verification_loads entry (raises_at_end stream) p)
    (run_entry pb q entry feature p).
Proof.
  intros stream. pose proof Loads_onError.
  destruct entry as [|previousContext|]; cbn [run_entry verification_loads];
    unfold request_of in stream;
    [unfold FeatureExecutor.implementFeature
    |unfold FeatureExecutor.resumeFeatureWithContext
    |unfold FeatureExecutor.commitChangesOnly];
    cbv zeta;
    unfold FeatureExecutor.sendToRenderer, FeatureExecutor.writeToContextFile;
    fold stream.
  - destruct (for_await_loads p
                (FeatureExecutor.onMessage (FeatureExecutor.implementBlock feature p)) stream
                {| FeatureExecutor.responseText := "";
                   FeatureExecutor.hasStartedToolUse := false |})
      as [Hl Hend];
      [apply Loads_onMessage, Loads_implementBlock
      |apply onMessage_spec, implementBlock_spec|].
    plain_steps. apply Loads_try_catch; [|auto with loads]. plain_steps.
    destruct (raises_at_end stream).
    + rewrite app_nil_r. by apply Loads_bind_throws.
    + apply Loads_bind; [exact Hl|exact Hend|]. intros st.
      plain_steps. apply Loads_bind_l; [apply Loads_loadFeatures|]. intros features.
      auto 10 with loads.
  - destruct (for_await_loads p
                (FeatureExecutor.onMessage (FeatureExecutor.plainBlock feature p)) stream "")
      as [Hl Hend];
      [apply Loads_onMessage, Loads_plainBlock
      |apply onMessage_spec, plainBlock_spec|].
    plain_steps. apply Loads_try_catch; [|auto with loads]. plain_steps.
    destruct (raises_at_end stream).
    + rewrite app_nil_r. by apply Loads_bind_throws.
    + apply Loads_bind; [exact Hl|exact Hend|]. intros st.
      plain_steps. apply Loads_bind_l; [apply Loads_loadFeatures|]. intros features.
      auto 10 with loads.
  - rewrite app_nil_r.
    destruct (for_await_loads p
                (FeatureExecutor.onMessage (FeatureExecutor.plainBlock feature p)) stream "")
      as [Hl _];
      [apply Loads_onMessage, Loads_plainBlock
      |apply onMessage_spec, plainBlock_spec|].
    plain_steps. apply Loads_try_catch; [|auto with loads]. plain_steps.
    apply Loads_bind_l; [exact Hl|]. intros text. auto 10 with loads.
Qed.

(** C6. A commit-only run whose stream ends without an error returns, with
    [passes] true whatever the store holds; it does not verify: it emits no
    phase event and makes no call of [loadFeatures] of its own, the only
    calls being those of the gateway when the agent uses its tool. The
    request allows the agent [Bash], through which the commit is made, and
    the gateway's tool, and nothing else: the one capability is [Bash], and
    neither [Write] nor [Edit] is allowed. The turn budget is 10. *)
Theorem C6_commit_only (pb : FeatureExecutor.PromptBuilder)
    (q : Sdk.Request → Sdk.AgentStream)
    (feature : FeatureExecutor.FeatureRef) (p : string) (w : World) :
  Sdk.ending (q (request_of pb CommitOnly feature p)) = Sdk.exhausted →
  (∃ text w',
     FeatureExecutor.commitChangesOnly q feature p w
     = (Normal {| FeatureExecutor.passes := Some (JBool true);
                  FeatureExecutor.message := text |}, w')
     ∧ phases (trace w') = phases (trace w)
     ∧ loads w'
       = (loads w
          ++ repeat p (gateway_calls (Sdk.steps (q (request_of pb CommitOnly feature p)))))%list)
  ∧ Sdk.allowedTools (Sdk.options (request_of pb CommitOnly feature p))
    = ["Bash"; gateway_tool]
  ∧ capabilities (Sdk.options (request_of pb CommitOnly feature p)) = ["Bash"]
  ∧ ¬ In "Write" (Sdk.allowedTools (Sdk.options (request_of pb CommitOnly feature p)))
  ∧ ¬ In "Edit" (Sdk.allowedTools (Sdk.options (request_of pb CommitOnly feature p)))
  ∧ Sdk.maxTurns (Sdk.options (request_of pb CommitOnly feature p)) = 10.
Proof.
  intros Hend.
  assert (Hno : raises_at_end (q (request_of pb CommitOnly feature p)) = false).
  { unfold raises_at_end. rewrite Hend. apply andb_false_r. }
  split; [|split; [reflexivity|split; [reflexivity|split; [|split; [|reflexivity]]]];
            cbn; intros [H|[H|[]]]; discriminate].
  destruct (run_entry_returns pb q CommitOnly feature p w Hno) as ([passes text] & Hres & Hpass).
  destruct (run_entry_spec pb q CommitOnly feature p w) as (_ & Hph & _).
  pose proof (run_entry_loads pb q CommitOnly feature p w) as Hloads.
  rewrite Hno in Hph. cbn [phases_of_run run_entry verification_loads] in *.
  rewrite app_nil_r in Hph, Hloads.
  specialize (Hpass eq_refl). cbn in Hpass. subst passes.
  destruct (FeatureExecutor.commitChangesOnly q feature p w) as [r w'] eqn:Hrun.
  cbn [fst snd] in *. subst r. by exists text, w'.
Qed.

(** A commit-only run over a stream that completes, in which the agent
    does not use the gateway: the features are never listed. *)
Lemma C6_commit_only_witness :
  ∃ text w',
    FeatureExecutor.commitChangesOnly (scripted completed_stream) sample_ref "/proj"
      (sample_world false)
    = (Normal {| FeatureExecutor.passes := Some (JBool true);
                 FeatureExecutor.message := text |}, w')
    ∧ phases (trace w') = phases (trace (sample_world false))
    ∧ loads w' = [].
Proof.
  apply (C6_commit_only sample_promptBuilder (scripted completed_stream) sample_ref "/proj"
           (sample_world false)).
  reflexivity.
Defined.

(** By contrast, the same stream under [implementFeature]: the run lists
    the features once, to verify. *)
Example implementFeature_lists_the_features :
  loads (run_entry sample_promptBuilder (scripted completed_stream) Implement sample_ref
           "/proj" (sample_world false)).2 = ["/proj"].
Proof. vm_compute. reflexivity. Qed.

(** C7 (as amended). The phase events of a run, in order: [implementFeature]
    emits [planning], [action], [verification], once each, unless its stream
    raises, in which case it emits [planning], [action] only; a resumed run
    emits [action] only; a commit-only run emits no phase event. Within one
    [emit], the subscribers are called in the order in which they
    subscribed. *)
Theorem C7_phases_and_subscriber_order (pb : FeatureExecutor.PromptBuilder)
    (q : Sdk.Request → Sdk.AgentStream) (entry : Entry)
    (feature : FeatureExecutor.FeatureRef) (p : string) (w : World)
    (cbs : list Events.EventCallback) (type : Events.EventType) (payload : JValue) :
  NoDup (map Events.ref cbs) →
  phases (trace (run_entry pb q entry feature p w).2)
  = (phases (trace w)
     ++ match entry with
        | Implement =>
            if raises_at_end (q (request_of pb entry feature p))
            then [planning; action]
            else [planning; action; verification]
        | Resume _ => [action]
        | CommitOnly => []
        end)%list
  ∧ Events.invoked
      (Events.effects
         (Events.emit type payload
            (fold_left (fun em cb => Events.subscribe cb em) cbs Events.createEventEmitter)))
    = map Events.ref cbs.
Proof.
  intros Hnd. split.
  - destruct (run_entry_spec pb q entry feature p w) as (_ & Hph & _). exact Hph.
  - pose proof (subscribe_all_order cbs Events.createEventEmitter Hnd) as Hsubs.
    unfold Events.emit. cbn [Events.effects].
    destruct (emit_loop_spec type payload
                (Events.subscribers
                   (fold_left (fun em cb => Events.subscribe cb em) cbs
                      Events.createEventEmitter))
                (Events.effects
                   (fold_left (fun em cb => Events.subscribe cb em) cbs
                      Events.createEventEmitter))) as [Hi _].
    rewrite Hi, Hsubs. cbn [Events.createEventEmitter Events.subscribers app].
    assert (Heff : ∀ l em, Events.effects
                     (fold_left (fun em cb => Events.subscribe cb em) l em)
                   = Events.effects em).
    { induction l as [|c l IH]; intros em; [reflexivity|]. cbn [fold_left]. by rewrite IH. }
    by rewrite Heff.
Qed.

(** A completed [implementFeature] run, and three subscribers of which the
    second throws. *)
Lemma C7_phases_and_subscriber_order_witness :
  phases (trace (run_entry sample_promptBuilder (scripted completed_stream) Implement
                   sample_ref "/proj" (sample_world false)).2)
  = [planning; action; verification]
  ∧ Events.invoked
      (Events.effects
         (Events.emit Events.feature_progress JNull
            (fold_left (fun em cb => Events.subscribe cb em)
               [well_behaved 1; always_throws 2; well_behaved 3]
               Events.createEventEmitter)))
    = [1; 2; 3].
Proof.
  apply (C7_phases_and_subscriber_order sample_promptBuilder (scripted completed_stream)
           Implement sample_ref "/proj" (sample_world false)
           [well_behaved 1; always_throws 2; well_behaved 3] Events.feature_progress JNull).
  apply (bool_decide_unpack _). vm_compute. reflexivity.
Defined.

(** C7, the claim as stated fails: a commit-only run emits no phase event at
    all, and a run whose stream raises emits no [verification]. *)
Lemma C7_runs_without_all_phases :
  phases (trace (run_entry sample_promptBuilder (scripted completed_stream) CommitOnly
                   sample_ref "/proj" (sample_world false)).2)
  = []
  ∧ phases (trace (run_entry sample_promptBuilder (scripted failing_stream) Implement
                     sample_ref "/proj" (sample_world false)).2)
    = [planning; action].
Proof. split; vm_compute; reflexivity. Qed.

(* ===================================================================== *)
(** ** More on the feature store *)
(* ===================================================================== *)

Lemma update_cases (w : World) (p fid : string) (updates : Feature) :
  (∃ f, disk w !! (p, fid) = Some f
        ∧ (FeatureLoader.update p fid updates w).1 = Normal (updates ∪ f)
        ∧ disk (FeatureLoader.update p fid updates w).2
          = <[(p, fid) := updates ∪ f]> (disk w))
  ∨ (∃ e, (FeatureLoader.update p fid updates w).1 = Throw e
          ∧ disk (FeatureLoader.update p fid updates w).2 = disk w).
Proof.
  unfold FeatureLoader.update, FeatureLoader.get, try_catch, bind, fs_readJson,
    fs_writeJson, effect, ret, throw.
  destruct (faults w (op_readFile (featureJsonPath p fid))) as [e|] eqn:Hr.
  - right. destruct (code_is e "ENOENT"); cbn; eauto.
  - destruct (disk w !! (p, fid)) as [f|] eqn:Hd; cbn; [|right; eauto].
    destruct (faults w (op_writeFile (featureJsonPath p fid))) as [e|] eqn:Hw; cbn.
    + right. eauto.
    + left. exists f. eauto.
Qed.

(** An update touches one file at most: however the call ends, a feature
    whose directory is another one is as it was. When the call returns, the
    feature was stored, and what is returned is the merged record, which is
    what its file then holds. *)
Theorem update_touches_one_file (w : World) (p fid : string) (updates : Feature) :
  (∀ key, PosixPath.getFeatureDir (cwd w) key.1 key.2
          ≠ PosixPath.getFeatureDir (cwd w) p fid →
          disk (FeatureLoader.update p fid updates w).2 !! key = disk w !! key)
  ∧ (∀ r, (FeatureLoader.update p fid updates w).1 = Normal r →
          ∃ f, disk w !! (p, fid) = Some f
               ∧ r = updates ∪ f
               ∧ disk (FeatureLoader.update p fid updates w).2 !! (p, fid) = Some r).
Proof.
  destruct (update_cases w p fid updates) as [(f & Hd & Hres & Hdisk)|(e & Hres & Hdisk)];
    rewrite Hdisk, Hres; split.
  - intros key Hne. rewrite lookup_insert_ne; [done|]. by intros <-.
  - intros r [= <-]. exists f. by rewrite lookup_insert_eq.
  - done.
  - discriminate.
Qed.




(** Reading back after an update gives the merged record, and a second
    update merges on top of the first: the two together store what a single
    update with both sets of fields, the later winning, would store. *)
Theorem update_then_get_and_update (w : World) (p fid : string) (f u1 u2 : Feature) :
  disk w !! (p, fid) = Some f →
  faults w (op_readFile (featureJsonPath p fid)) = None →
  faults w (op_writeFile (featureJsonPath p fid)) = None →
  (FeatureLoader.get p fid (FeatureLoader.update p fid u1 w).2).1 = Normal (Some (u1 ∪ f))
  ∧ (FeatureLoader.update p fid u2 (FeatureLoader.update p fid u1 w).2).1
    = Normal ((u2 ∪ u1) ∪ f)
  ∧ disk (FeatureLoader.update p fid u2 (FeatureLoader.update p fid u1 w).2).2
    = disk (FeatureLoader.update p fid (u2 ∪ u1) w).2.
Proof.
  intros Hd Hr Hw.
  rewrite (update_present w p fid f u1 Hd Hr Hw). cbn [snd].
  set (w1 := with_trace _ _).
  assert (Hd1 : disk w1 !! (p, fid) = Some (u1 ∪ f)) by (cbn; apply lookup_insert_eq).
  split; [by rewrite (get_present w1 p fid _ Hd1 Hr)|].
  rewrite (update_present w1 p fid _ u2 Hd1 Hr Hw).
  rewrite (update_present w p fid f (u2 ∪ u1) Hd Hr Hw). cbn.
  rewrite insert_insert_eq. by rewrite (assoc_L (∪)).
Qed.

Lemma update_then_get_and_update_witness :
  (FeatureLoader.get "/proj" "feature-1"
     (FeatureLoader.update "/proj" "feature-1" {[ "priority" := JNum 2 ]}
        (sample_world false)).2).1
  = Normal (Some ({[ "priority" := JNum 2 ]} ∪ sample_feature false)).
Proof.
  apply (update_then_get_and_update (sample_world false) "/proj" "feature-1"
           (sample_feature false) {[ "priority" := JNum 2 ]} ∅).
  - vm_compute. reflexivity.
  - reflexivity.
  - reflexivity.
Defined.

(** An update that does not supply [id] keeps every stored record under its
    own identifier, however the call ends. *)
Theorem update_keeps_ids (w : World) (p fid p' : string) (updates : Feature) :
  updates !! "id" = None →
  StoreWf p' (disk w) →
  StoreWf p' (disk (FeatureLoader.update p fid updates w).2).
Proof.
  intros Hid Hwf.
  destruct (update_cases w p fid updates) as [(f & Hd & _ & Hdisk)|(e & _ & Hdisk)];
    rewrite Hdisk; [|exact Hwf].
  intros k g Hk.
  destruct (decide ((p', k) = (p, fid))) as [Heq|Hne].
  - injection Heq as -> ->. rewrite lookup_insert_eq in Hk. injection Hk as <-.
    rewrite lookup_union_r; [|exact Hid]. by apply Hwf.
  - rewrite lookup_insert_ne in Hk; [by apply Hwf|congruence].
Qed.

Lemma update_keeps_ids_witness :
  StoreWf "/proj"
    (disk (FeatureLoader.update "/proj" "feature-1" {[ "status" := JStr "verified" ]}
             (sample_world false)).2).
Proof.
  apply (update_keeps_ids (sample_world false) "/proj" "feature-1" "/proj").
  - reflexivity.
  - apply sample_world_wf.
Defined.

(** After a delete that did not fail the feature is gone: [get] answers
    [null]; every feature that does not lie under the removed path is as it
    was; deleting again succeeds and changes nothing. *)
Theorem delete_then_get (w : World) (p fid : string) :
  faults w (op_rm (featureDir p fid)) = None →
  faults w (op_readFile (featureJsonPath p fid)) = None →
  (FeatureLoader.get p fid (FeatureLoader.delete p fid w).2).1 = Normal None
  ∧ (∀ key, in_removed_tree (cwd w) p fid key = false →
       disk (FeatureLoader.delete p fid w).2 !! key = disk w !! key)
  ∧ (FeatureLoader.delete p fid (FeatureLoader.delete p fid w).2).1 = Normal true
  ∧ disk (FeatureLoader.delete p fid (FeatureLoader.delete p fid w).2).2
    = disk (FeatureLoader.delete p fid w).2.
Proof.
  intros Hrm Hr. rewrite (delete_ok w p fid Hrm). cbn [snd].
  set (w1 := with_trace _ _).
  assert (Hd1 : ∀ key, disk w1 !! key
                       = if in_removed_tree (cwd w) p fid key then None else disk w !! key).
  { intros key. apply (lookup_filter_false (in_removed_tree (cwd w) p fid)). }
  split; [|split].
  - rewrite get_absent; [done| |exact Hr].
    by rewrite Hd1, in_removed_tree_self.
  - intros key Hout. by rewrite Hd1, Hout.
  - rewrite (delete_ok w1 p fid Hrm). cbn [fst snd disk with_trace with_disk].
    split; [done|]. apply map_eq. intros key.
    rewrite (lookup_filter_false (in_removed_tree (cwd w1) p fid)).
    destruct (in_removed_tree (cwd w1) p fid key) eqn:Hin; [|done].
    change (cwd w1) with (cwd w) in Hin.
    change (filter _ (disk w)) with (disk w1). by rewrite Hd1, Hin.
Qed.

Lemma delete_then_get_witness :
  (FeatureLoader.get "/proj" "feature-1"
     (FeatureLoader.delete "/proj" "feature-1" (sample_world false)).2).1
  = Normal None.
Proof.
  apply (delete_then_get (sample_world false) "/proj" "feature-1"); reflexivity.
Defined.

Lemma create_ok (w : World) (g : string) (received : JValue → string) (p s : string)
    (featureData : Feature) :
  js_or (featureData !! "id") (JStr g) = JStr s →
  faults w (op_writeFile (featureDir p "")) = None →
  faults w (op_writeFile (featureDir p s)) = None →
  faults w (op_writeFile (featureJsonPath p s)) = None →
  FeatureLoader.create g received p featureData w
  = (let f : Feature :=
       <["id" := JStr s]>
         (featureData
          ∪ {[ "category" := js_or (featureData !! "category") (JStr "Uncategorized");
               "description" := js_or (featureData !! "description") (JStr "") ]}) in
     (Normal f,
      with_trace (trace w ++ [console_log ("[FeatureLoader] Created feature " +:+ s)])
        (with_disk (<[(p, s) := f]> (disk w)) w))).
Proof.
  intros Hid H1 H2 H3. unfold FeatureLoader.create. rewrite Hid.
  unfold bind, fs_mkdir, fs_writeJson, effect, ret. rewrite H1, H2. cbn. by rewrite H3.
Qed.

(** Creating a feature and reading it back. With the identifier resolved
    to the string [s] (the one supplied, or the generated one when none or
    an empty one is supplied), [create] returns a record that [get] then
    returns; the record carries [id = s] and every other field supplied,
    [category] and [description] take their defaults only when they are not
    supplied, and nothing else is in it: a record already stored under [s]
    is replaced as a whole. A feature whose directory is another one than
    that of [s] is as it was. *)
Theorem create_then_get (w : World) (g : string) (received : JValue → string)
    (p s : string) (featureData : Feature) :
  js_or (featureData !! "id") (JStr g) = JStr s →
  faults w (op_writeFile (featureDir p "")) = None →
  faults w (op_writeFile (featureDir p s)) = None →
  faults w (op_writeFile (featureJsonPath p s)) = None →
  faults w (op_readFile (featureJsonPath p s)) = None →
  ∃ (f : Feature) (w' : World),
    FeatureLoader.create g received p featureData w = (Normal f, w')
    ∧ FeatureLoader.get p s w' = (Normal (Some f), w')
    ∧ f !! "id" = Some (JStr s)
    ∧ (∀ k v, k ≠ "id" → featureData !! k = Some v → f !! k = Some v)
    ∧ (featureData !! "category" = None → f !! "category" = Some (JStr "Uncategorized"))
    ∧ (featureData !! "description" = None → f !! "description" = Some (JStr ""))
    ∧ (∀ k, featureData !! k = None →
            k ≠ "id" → k ≠ "category" → k ≠ "description" → f !! k = None)
    ∧ (∀ key, PosixPath.getFeatureDir (cwd w) key.1 key.2
              ≠ PosixPath.getFeatureDir (cwd w) p s →
              disk w' !! key = disk w !! key).
Proof.
  intros Hid H1 H2 H3 Hr.
  rewrite (create_ok w g received p s featureData Hid H1 H2 H3). cbv zeta.
  eexists _, _. split; [reflexivity|].
  split; [apply get_present; [cbn; apply lookup_insert_eq|exact Hr]|].
  split; [apply lookup_insert_eq|].
  split; [|split; [|split; [|split]]].
  - intros k v Hk Hv. rewrite lookup_insert_ne; [|done]. by apply lookup_union_Some_l.
  - intros Hc. rewrite lookup_insert_ne; [|done]. rewrite lookup_union_r; [|exact Hc].
    rewrite Hc. cbn. by rewrite lookup_insert_eq.
  - intros Hd. rewrite lookup_insert_ne; [|done]. rewrite lookup_union_r; [|exact Hd].
    rewrite Hd. cbn. rewrite lookup_insert_ne; [|done]. apply lookup_singleton_eq.
  - intros k Hk Hn1 Hn2 Hn3. rewrite lookup_insert_ne; [|done].
    rewrite lookup_union_r; [|exact Hk].
    rewrite lookup_insert_ne; [|done]. by apply lookup_singleton_ne.
  - intros key Hne. cbn. rewrite lookup_insert_ne; [done|]. by intros <-.
Qed.

(** A feature created without an id, beside the sample feature. *)
Lemma create_then_get_witness :
  ∃ (f : Feature) (w' : World),
    FeatureLoader.create "feature-1700000000000-abc123def" (fun _ => "type number (7)")
      "/proj" {[ "description" := JStr "Add logout" ]} (sample_world false) = (Normal f, w')
    ∧ FeatureLoader.get "/proj" "feature-1700000000000-abc123def" w' = (Normal (Some f), w')
    ∧ f !! "id" = Some (JStr "feature-1700000000000-abc123def")
    ∧ f !! "category" = Some (JStr "Uncategorized")
    ∧ disk w' !! ("/proj", "feature-1") = Some (sample_feature false).
Proof.
  destruct (create_then_get (sample_world false) "feature-1700000000000-abc123def"
              (fun _ => "type number (7)") "/proj"
              "feature-1700000000000-abc123def" {[ "description" := JStr "Add logout" ]})
    as (f & w' & Hc & Hg & Hid & _ & Hcat & _ & _ & Hframe); try reflexivity.
  exists f, w'. repeat split; [exact Hc|exact Hg|exact Hid|by apply Hcat|].
  rewrite Hframe; [reflexivity|]. vm_compute. discriminate.
Defined.

(** [create] with an [id] that is truthy and not a string (a number, say)
    throws the [TypeError] of [path.join] before anything is written: a
    [TypeError] with the code [ERR_INVALID_ARG_TYPE], whose message ends with
    Node's description of the value. *)
Theorem create_bad_id (w : World) (g : string) (received : JValue → string) (p : string)
    (featureData : Feature) (v : JValue) :
  featureData !! "id" = Some v →
  truthy (Some v) = true →
  (∀ s, v ≠ JStr s) →
  ∃ e,
    FeatureLoader.create g received p featureData w = (Throw e, w)
    ∧ error_name e = "TypeError"
    ∧ error_code e = Some "ERR_INVALID_ARG_TYPE"
    ∧ error_message e
      = "The " +:+ dq +:+ "path" +:+ dq +:+ " argument must be of type string. Received "
          +:+ received v.
Proof.
  intros Hv Ht Hs. unfold FeatureLoader.create, js_or. rewrite Hv, Ht.
  destruct v as [| | |s| |]; try (by destruct (Hs s));
    (eexists; split; [reflexivity|by repeat split]).
Qed.

Lemma create_bad_id_witness :
  ∃ e,
    FeatureLoader.create "feature-1700000000000-abc123def" (fun _ => "type number (7)")
      "/proj" {[ "id" := JNum 7 ]} (sample_world false)
    = (Throw e, sample_world false)
    ∧ error_name e = "TypeError"
    ∧ error_code e = Some "ERR_INVALID_ARG_TYPE"
    ∧ error_message e
      = "The " +:+ dq +:+ "path" +:+ dq +:+ " argument must be of type string. Received "
          +:+ "type number (7)".
Proof.
  apply (create_bad_id (sample_world false) "feature-1700000000000-abc123def"
           (fun _ => "type number (7)") "/proj" {[ "id" := JNum 7 ]} (JNum 7)).
  - reflexivity.
  - reflexivity.
  - intros s. discriminate.
Defined.

(* ===================================================================== *)
(** ** More on the status mutation gateway *)
(* ===================================================================== *)

Lemma strict_eq_true_false (v : option JValue) :
  v ≠ Some (JBool true) → strict_eq_true v = false.
Proof. intros Hv. by destruct v as [[|[|]| | | |]|]. Qed.

(** The rewrite applies to nothing else: a request for [backlog] or
    [in_progress], and a request for [verified] on a feature whose
    [skipTests] is not exactly [true], is stored as requested, and the text
    returned is that of a direct write. *)
Theorem setStatus_direct (w : World) (p fid : string) (f : Feature)
    (s : McpServerFactory.AgentStatus) :
  StoreWf p (disk w) →
  disk w !! (p, fid) = Some f →
  s ≠ McpServerFactory.verified ∨ f !! "skipTests" ≠ Some (JBool true) →
  faults w (op_readFile (featureJsonPath p fid)) = None →
  faults w (op_writeFile (featureJsonPath p fid)) = None →
  ∃ w',
    setStatus p {| McpServerFactory.featureId := fid; McpServerFactory.status := s |} w
    = (Normal {| McpServerFactory.content :=
                   [McpServerFactory.text_content
                      (McpServerFactory.direct_message fid
                         (McpServerFactory.status_string s))] |}, w')
    ∧ disk w' !! (p, fid)
      = Some (<["status" := JStr (McpServerFactory.status_string s)]> f).
Proof.
  intros Hwf Hd Hcase Hr Hw.
  unfold setStatus, McpServerFactory.UpdateFeatureStatus, try_catch.
  unfold bind at 1. cbn [effect McpServerFactory.featureId McpServerFactory.status].
  unfold bind at 1.
  match goal with
  | |- context [ElectronFeatureLoader.loadFeatures p ?w0] =>
      destruct (find_loadFeatures w0 p fid Hwf) as (features & Hload & Hfind)
  end.
  cbn [disk with_trace] in Hfind. rewrite Hd in Hfind.
  rewrite Hload, Hfind.
  assert (Hconv : (McpServerFactory.status_string s =? "verified")%string
                  && strict_eq_true (f !! "skipTests") = false).
  { destruct Hcase as [Hs|Hskip].
    - destruct s; try reflexivity. by destruct Hs.
    - rewrite (strict_eq_true_false _ Hskip). apply andb_false_r. }
  rewrite Hconv. unfold bind at 1. cbn [ret]. unfold bind at 1.
  erewrite updateFeatureStatus_present; [|exact Hd|exact Hr|exact Hw].
  rewrite String.eqb_refl. cbn.
  eexists. split; [reflexivity|]. cbn. apply lookup_insert_eq.
Qed.

Lemma setStatus_direct_witness :
  ∃ w',
    setStatus "/proj"
      {| McpServerFactory.featureId := "feature-1";
         McpServerFactory.status := McpServerFactory.backlog |} (sample_world true)
    = (Normal {| McpServerFactory.content :=
                   [McpServerFactory.text_content
                      (McpServerFactory.direct_message "feature-1" "backlog")] |}, w')
    ∧ disk w' !! ("/proj", "feature-1")
      = Some (<["status" := JStr "backlog"]> (sample_feature true)).
Proof.
  apply (setStatus_direct (sample_world true) "/proj" "feature-1" (sample_feature true)
           McpServerFactory.backlog).
  - apply sample_world_wf.
  - vm_compute. reflexivity.
  - left. discriminate.
  - reflexivity.
  - reflexivity.
Defined.




(* ===================================================================== *)
(** ** The agent output of a feature *)
(* ===================================================================== *)

(** Saving an agent output and reading it back gives the content saved,
    whatever was there before; every other output file is as it was. *)
Theorem saveAgentOutput_then_get (fs : AgentOutput.Files) (p fid content : string) :
  AgentOutput.output_faults fs (AgentOutput.op_mkdir p fid) = None →
  AgentOutput.output_faults fs (AgentOutput.op_writeFile p fid) = None →
  AgentOutput.output_faults fs (AgentOutput.op_readFile p fid) = None →
  ∃ fs',
    AgentOutput.saveAgentOutput p fid content fs = (Normal tt, fs')
    ∧ AgentOutput.getAgentOutput p fid fs' = (Normal (Some content), fs')
    ∧ ∀ file, file ≠ PosixPath.getAgentOutputPath (AgentOutput.cwd fs) p fid →
        AgentOutput.agentOutput fs' !! file = AgentOutput.agentOutput fs !! file.
Proof.
  intros Hm Hw Hr. unfold AgentOutput.saveAgentOutput. rewrite Hm, Hw.
  eexists. split; [reflexivity|]. split.
  - unfold AgentOutput.getAgentOutput, AgentOutput.readFile. cbn.
    by rewrite Hr, lookup_insert_eq.
  - intros file Hne. cbn. by rewrite lookup_insert_ne.
Qed.

(** Deleting an agent output. Without an error from the operating system
    the call returns, also when there is no output to delete (the [ENOENT]
    of [unlink] is swallowed), and afterwards that file is gone and no other;
    an error other than [ENOENT] is thrown to the caller and nothing
    changes. *)
Theorem deleteAgentOutput_result (fs : AgentOutput.Files) (p fid : string) :
  match AgentOutput.output_faults fs (AgentOutput.op_unlink p fid) with
  | None =>
      ∃ fs',
        AgentOutput.deleteAgentOutput p fid fs = (Normal tt, fs')
        ∧ AgentOutput.agentOutput fs'
          = delete (PosixPath.getAgentOutputPath (AgentOutput.cwd fs) p fid)
              (AgentOutput.agentOutput fs)
        ∧ AgentOutput.output_faults fs' = AgentOutput.output_faults fs
        ∧ (AgentOutput.agentOutput fs
             !! PosixPath.getAgentOutputPath (AgentOutput.cwd fs) p fid = None →
           fs' = fs)
  | Some e =>
      AgentOutput.deleteAgentOutput p fid fs
      = (if code_is e "ENOENT" then Normal tt else Throw e, fs)
  end.
Proof.
  unfold AgentOutput.deleteAgentOutput, AgentOutput.unlink.
  destruct (AgentOutput.output_faults fs (AgentOutput.op_unlink p fid)) as [e|].
  - by destruct (code_is e "ENOENT").
  - destruct (AgentOutput.agentOutput fs !! _) as [c|] eqn:Hc; cbn.
    + eexists. split; [reflexivity|]. cbn. repeat split. discriminate.
    + exists fs. repeat split. symmetry. by apply delete_id.
Qed.

(** Reading the agent output of a feature that has none answers [null]
    rather than throwing, in particular after a delete. *)
Theorem getAgentOutput_after_delete (fs : AgentOutput.Files) (p fid : string) :
  AgentOutput.output_faults fs (AgentOutput.op_unlink p fid) = None →
  AgentOutput.output_faults fs (AgentOutput.op_readFile p fid) = None →
  (AgentOutput.getAgentOutput p fid (AgentOutput.deleteAgentOutput p fid fs).2).1
  = Normal None.
Proof.
  intros Hu Hr.
  unfold AgentOutput.deleteAgentOutput, AgentOutput.unlink. rewrite Hu.
  unfold AgentOutput.getAgentOutput, AgentOutput.readFile.
  destruct (AgentOutput.agentOutput fs !! _) as [c|] eqn:Hc; cbn.
  - by rewrite Hr, lookup_delete_eq.
  - by rewrite Hr, Hc.
Qed.

(* ===================================================================== *)
(** ** The features routes *)
(* ===================================================================== *)

(** A request without a [projectPath] or without a [featureId] (missing or
    empty) is answered 400 by the three routes, before the store is read or
    written and without a line of log. *)
Theorem routes_reject_missing_parameters (body : FeaturesRoutes.Body) (w : World) :
  FeaturesRoutes.falsy (FeaturesRoutes.projectPath body)
  || FeaturesRoutes.falsy (FeaturesRoutes.featureId body) = true →
  FeaturesRoutes.post_get body w
  = (Normal {| FeaturesRoutes.status := 400;
               FeaturesRoutes.json :=
                 FeaturesRoutes.json_error "projectPath and featureId are required" |}, w)
  ∧ FeaturesRoutes.post_update body w
    = (Normal {| FeaturesRoutes.status := 400;
                 FeaturesRoutes.json :=
                   FeaturesRoutes.json_error
                     "projectPath, featureId, and updates are required" |}, w)
  ∧ FeaturesRoutes.post_delete body w
    = (Normal {| FeaturesRoutes.status := 400;
                 FeaturesRoutes.json :=
                   FeaturesRoutes.json_error "projectPath and featureId are required" |}, w).
Proof.
  intros Hmiss.
  unfold FeaturesRoutes.post_get, FeaturesRoutes.post_update, FeaturesRoutes.post_delete,
    try_catch.
  rewrite Hmiss. by destruct (FeaturesRoutes.updates body).
Qed.



(** [POST /delete] with both parameters is always answered 200, never 404
    or 500: the body carries [success], which is [false] exactly when the
    removal threw. *)
Theorem post_delete_always_200 (w : World) (p fid : string) (u : option Feature) :
  p ≠ "" → fid ≠ "" →
  ∃ w',
    FeaturesRoutes.post_delete
      {| FeaturesRoutes.projectPath := Some p; FeaturesRoutes.featureId := Some fid;
         FeaturesRoutes.updates := u |} w
    = (Normal {| FeaturesRoutes.status := 200;
                 FeaturesRoutes.json :=
                   FeaturesRoutes.json_success
                     match faults w (op_rm (featureDir p fid)) with
                     | None => true
                     | Some _ => false
                     end |}, w').
Proof.
  intros Hp Hfid.
  unfold FeaturesRoutes.post_delete, try_catch. cbn.
  apply String.eqb_neq in Hp, Hfid. rewrite Hp, Hfid. cbn.
  unfold bind, FeatureLoader.delete, try_catch, bind, fs_rm, effect, ret.
  destruct (faults w (op_rm (featureDir p fid))); cbn; eexists; reflexivity.
Qed.

Lemma saveAgentOutput_then_get_witness :
  ∃ fs',
    AgentOutput.saveAgentOutput "/proj" "feature-1" "# Agent output" no_outputs
    = (Normal tt, fs')
    ∧ AgentOutput.getAgentOutput "/proj" "feature-1" fs'
      = (Normal (Some "# Agent output"), fs').
Proof.
  destruct (saveAgentOutput_then_get no_outputs "/proj" "feature-1" "# Agent output")
    as (fs' & Hs & Hg & _); try reflexivity.
  by exists fs'.
Defined.

Lemma getAgentOutput_after_delete_witness :
  (AgentOutput.getAgentOutput "/proj" "feature-1"
     (AgentOutput.deleteAgentOutput "/proj" "feature-1" sample_outputs).2).1
  = Normal None.
Proof.
  apply (getAgentOutput_after_delete sample_outputs "/proj" "feature-1"); reflexivity.
Defined.

Lemma routes_reject_missing_parameters_witness :
  FeaturesRoutes.post_delete
    {| FeaturesRoutes.projectPath := Some "/proj"; FeaturesRoutes.featureId := Some "";
       FeaturesRoutes.updates := None |} (sample_world false)
  = (Normal {| FeaturesRoutes.status := 400;
               FeaturesRoutes.json :=
                 FeaturesRoutes.json_error "projectPath and featureId are required" |},
     sample_world false).
Proof.
  apply (routes_reject_missing_parameters
           {| FeaturesRoutes.projectPath := Some "/proj"; FeaturesRoutes.featureId := Some "";
              FeaturesRoutes.updates := None |} (sample_world false)).
  reflexivity.
Defined.



Lemma post_delete_always_200_witness :
  ∃ w',
    FeaturesRoutes.post_delete
      {| FeaturesRoutes.projectPath := Some "/proj";
         FeaturesRoutes.featureId := Some "feature-9";
         FeaturesRoutes.updates := None |} locked_world
    = (Normal {| FeaturesRoutes.status := 200;
                 FeaturesRoutes.json := FeaturesRoutes.json_success false |}, w').
Proof.
  apply (post_delete_always_200 locked_world "/proj" "feature-9" None); discriminate.
Defined.

(* ===================================================================== *)
(** ** More on the runs of the executor *)
(* ===================================================================== *)

(** Every run, however it ends (the stream is exhausted, the handle is found
    inactive, the runtime aborts or fails), leaves [execution.abortController]
    and [execution.query] set to [null]. *)
Theorem run_clears_execution (pb : FeatureExecutor.PromptBuilder)
    (q : Sdk.Request → Sdk.AgentStream) (entry : Entry)
    (feature : FeatureExecutor.FeatureRef) (p : string) (w : World) :
  execution (run_entry pb q entry feature p w).2
  = {| abortController := None; query := None |}.
Proof. by destruct (run_entry_spec pb q entry feature p w) as (Hex & _). Qed.

Lemma bind_ext {A B : Type} (c : Eff A) (k k' : A → Eff B) (w : World) :
  (∀ a w', k a w' = k' a w') → bind c k w = bind c k' w.
Proof. intros H. unfold bind. destruct (c w) as [[a|e] w1]; [apply H|reflexivity]. Qed.

Lemma try_catch_ext {A : Type} (c c' : Eff A) (h : JsError → Eff A) (w : World) :
  c w = c' w → try_catch c h w = try_catch c' h w.
Proof. intros H. unfold try_catch. by rewrite H. Qed.

(** Cancelling cuts the stream: once the handle is found inactive at a
    message, that message and everything the agent would do after it (text,
    tool uses, gateway calls, a later error) have no effect on the run, which
    ends exactly as if the stream had been exhausted just before that
    message. *)
Theorem run_stops_at_inactive (pb : FeatureExecutor.PromptBuilder)
    (q q' : Sdk.Request → Sdk.AgentStream) (entry : Entry)
    (feature : FeatureExecutor.FeatureRef) (p : string) (w : World)
    (pre rest : list Sdk.AgentStep) (msg : Sdk.Message) (ending : Sdk.StreamEnd) :
  q (request_of pb entry feature p)
  = {| Sdk.steps := pre ++ Sdk.yield false msg :: rest; Sdk.ending := ending |} →
  q' (request_of pb entry feature p)
  = {| Sdk.steps := pre; Sdk.ending := Sdk.exhausted |} →
  run_entry pb q entry feature p w = run_entry pb q' entry feature p w.
Proof.
  intros Hq Hq'.
  destruct entry as [|previousContext|]; cbn [run_entry request_of] in *;
    [unfold FeatureExecutor.implementFeature
    |unfold FeatureExecutor.resumeFeatureWithContext
    |unfold FeatureExecutor.commitChangesOnly];
    cbv zeta; rewrite Hq, Hq'; cbn [Sdk.steps Sdk.ending];
    repeat first [apply bind_ext; intros ? ? | apply try_catch_ext];
    unfold bind; by rewrite for_await_break.
Qed.

Lemma run_stops_at_inactive_witness :
  run_entry sample_promptBuilder (scripted cancelled_after_verified) Implement sample_ref
    "/proj" (sample_world false)
  = run_entry sample_promptBuilder
      (scripted {| Sdk.steps := [Sdk.tool_call "UpdateFeatureStatus" verified_args];
                   Sdk.ending := Sdk.exhausted |})
      Implement sample_ref "/proj" (sample_world false).
Proof.
  apply (run_stops_at_inactive sample_promptBuilder _ _ Implement sample_ref "/proj"
           (sample_world false) [Sdk.tool_call "UpdateFeatureStatus" verified_args] []
           (assistant_text "All tests pass.") Sdk.exhausted); reflexivity.
Defined.

Lemma KeepsDisk_ret {A : Type} (a : A) : KeepsDisk (ret a).
Proof. by intros w. Qed.

Lemma KeepsDisk_throw {A : Type} (e : JsError) : KeepsDisk (@throw A e).
Proof. by intros w. Qed.

Lemma KeepsDisk_bind {A B : Type} (c : Eff A) (k : A → Eff B) :
  KeepsDisk c → (∀ a, KeepsDisk (k a)) → KeepsDisk (bind c k).
Proof.
  intros Hc Hk w. unfold bind.
  destruct (Hc w) as [Hd Hf]. destruct (c w) as [[a|e] w1]; cbn in *; [|done].
  destruct (Hk a w1) as [Hd' Hf']. split; congruence.
Qed.

Lemma KeepsDisk_try_catch {A : Type} (c : Eff A) (h : JsError → Eff A) :
  KeepsDisk c → (∀ e, KeepsDisk (h e)) → KeepsDisk (try_catch c h).
Proof.
  intros Hc Hh w. unfold try_catch.
  destruct (Hc w) as [Hd Hf]. destruct (c w) as [[a|e] w1]; cbn in *; [done|].
  destruct (Hh e w1) as [Hd' Hf']. split; congruence.
Qed.

Lemma KeepsDisk_effect (e : Effect) : KeepsDisk (effect e).
Proof. by intros w. Qed.

Lemma KeepsDisk_set_query (x : option Query) : KeepsDisk (set_query x).
Proof. by intros w. Qed.

Lemma KeepsDisk_set_abortController (x : option AbortController) :
  KeepsDisk (set_abortController x).
Proof. by intros w. Qed.

Lemma KeepsDisk_loadFeatures (p : string) : KeepsDisk (ElectronFeatureLoader.loadFeatures p).
Proof. by intros w. Qed.

Create HintDb keeps.

#[local] Hint Resolve KeepsDisk_ret KeepsDisk_throw KeepsDisk_bind KeepsDisk_try_catch
  KeepsDisk_effect KeepsDisk_set_query KeepsDisk_set_abortController
  KeepsDisk_loadFeatures : keeps.
#[local] Hint Extern 2 (KeepsDisk (if ?b then _ else _)) => destruct b : keeps.
#[local] Hint Extern 2 (KeepsDisk (match ?x with Some _ => _ | None => _ end)) =>
  destruct x : keeps.

Lemma KeepsDisk_for_of {A S : Type} (body : A → S → Eff S) :
  (∀ x st, KeepsDisk (body x st)) → ∀ l st, KeepsDisk (for_of body l st).
Proof.
  intros Hb l. induction l as [|x l IH]; intros st; cbn [for_of]; auto with keeps.
Qed.

Lemma KeepsDisk_implementBlock (feature : FeatureExecutor.FeatureRef) (p : string)
    (block : Sdk.Block) (st : FeatureExecutor.LoopState) :
  KeepsDisk (FeatureExecutor.implementBlock feature p block st).
Proof.
  unfold FeatureExecutor.implementBlock, FeatureExecutor.writeToContextFile,
    FeatureExecutor.sendToRenderer.
  destruct block; auto 10 with keeps.
Qed.

Lemma KeepsDisk_plainBlock (feature : FeatureExecutor.FeatureRef) (p : string)
    (block : Sdk.Block) (text : string) :
  KeepsDisk (FeatureExecutor.plainBlock feature p block text).
Proof.
  unfold FeatureExecutor.plainBlock, FeatureExecutor.writeToContextFile,
    FeatureExecutor.sendToRenderer.
  destruct block; auto 10 with keeps.
Qed.

Lemma KeepsDisk_onMessage {S : Type} (onBlock : Sdk.Block → S → Eff S) :
  (∀ b st, KeepsDisk (onBlock b st)) →
  ∀ msg st, KeepsDisk (FeatureExecutor.onMessage onBlock msg st).
Proof.
  intros Hb msg st. unfold FeatureExecutor.onMessage.
  destruct (Sdk.type msg =? "assistant")%string; [|auto with keeps].
  destruct (Sdk.message_content msg); [|auto with keeps].
  by apply KeepsDisk_for_of.
Qed.

(** As long as the agent calls no tool, the loop writes no feature file. *)
Lemma KeepsDisk_for_await {S : Type} (server : McpServerFactory.McpServer)
    (body : Sdk.Message → S → Eff S) (steps : list Sdk.AgentStep) (ending : Sdk.StreamEnd) :
  (∀ msg st, KeepsDisk (body msg st)) →
  no_tool_calls steps = true →
  ∀ st, KeepsDisk (for_await server body steps ending st).
Proof.
  intros Hb. induction steps as [|step steps IH]; intros Hno st; cbn [for_await].
  - destruct ending; auto with keeps.
  - destruct step as [isActive msg|toolName args]; [|discriminate].
    cbn in Hno. destruct isActive; cbn [negb]; auto with keeps.
Qed.

#[local] Hint Resolve KeepsDisk_implementBlock KeepsDisk_plainBlock KeepsDisk_onMessage
  KeepsDisk_for_await : keeps.

(** The executor itself never writes the feature store: in a run during
    which the agent calls no tool, every feature file is at the end as it was
    at the start, however the run ends. *)
Theorem run_without_tool_calls_keeps_store (pb : FeatureExecutor.PromptBuilder)
    (q : Sdk.Request → Sdk.AgentStream) (entry : Entry)
    (feature : FeatureExecutor.FeatureRef) (p : string) (w : World) :
  no_tool_calls (Sdk.steps (q (request_of pb entry feature p))) = true →
  disk (run_entry pb q entry feature p w).2 = disk w.
Proof.
  intros Hno.
  enough (H : KeepsDisk (run_entry pb q entry feature p)) by apply H.
  destruct entry as [|previousContext|]; cbn [run_entry request_of] in *;
    [unfold FeatureExecutor.implementFeature
    |unfold FeatureExecutor.resumeFeatureWithContext
    |unfold FeatureExecutor.commitChangesOnly];
    cbv zeta;
    unfold FeatureExecutor.onError, FeatureExecutor.sendToRenderer,
      FeatureExecutor.writeToContextFile;
    auto 60 with keeps.
Qed.

Lemma run_without_tool_calls_keeps_store_witness :
  disk (run_entry sample_promptBuilder (scripted completed_stream) Implement sample_ref
          "/proj" (sample_world false)).2
  = disk (sample_world false).
Proof.
  apply (run_without_tool_calls_keeps_store sample_promptBuilder (scripted completed_stream)
           Implement sample_ref "/proj" (sample_world false)).
  reflexivity.
Defined.

Lemma string_app_nil_r (s : string) : s +:+ "" = s.
Proof.
  induction s as [|c s IH]; [done|].
  change (String c (s +:+ "") = String c s). by rewrite IH.
Qed.

Lemma string_app_assoc (a b c : string) : (a +:+ b) +:+ c = a +:+ b +:+ c.
Proof.
  induction a as [|ch a IH]; [done|].
  change (String ch ((a +:+ b) +:+ c) = String ch (a +:+ b +:+ c)). by rewrite IH.
Qed.

Lemma units_continuation (m : nat) :
  (128 ≤ m < 192)%nat → JsString.units (ascii_of_nat m) = 0%nat.
Proof.
  intros Hm. unfold JsString.units. rewrite nat_ascii_embedding by lia.
  destruct (Nat.ltb_spec m 128); [lia|]. destruct (Nat.ltb_spec m 192); [done|lia].
Qed.

(** A cut leaves at most the code units asked for. *)
Lemma prefix_length (n : nat) (s : string) :
  (JsString.length (JsString.prefix n s) ≤ n)%nat.
Proof.
  revert n. induction s as [|c s IH]; intros n; cbn [JsString.prefix]; [cbn; lia|].
  destruct (JsString.units c) as [|[|u]] eqn:Hc.
  - cbn [JsString.length]. rewrite Hc. apply IH.
  - destruct n as [|n]; cbn [JsString.length]; [lia|]. rewrite Hc. specialize (IH n). lia.
  - destruct n as [|[|n]]; [cbn; lia| |].
    + unfold JsString.highSurrogate. cbn zeta.
      match goal with
      | |- context [ascii_of_nat (128 + ?x mod 64)] => generalize x
      end.
      intros x. cbn [JsString.length].
      rewrite (units_continuation (160 + (x / 64) mod 16)),
        (units_continuation (128 + x mod 64)).
      * vm_compute. lia.
      * pose proof (Nat.mod_upper_bound x 64). lia.
      * pose proof (Nat.mod_upper_bound (x / 64) 16). lia.
    + cbn [JsString.length]. rewrite Hc.
      assert (u = 0%nat) as ->.
      { unfold JsString.units in Hc. repeat case_match; congruence. }
      specialize (IH n). lia.
Qed.

(** A text that is short enough is not cut. *)
Lemma prefix_all (n : nat) (s : string) :
  (JsString.length s ≤ n)%nat → JsString.prefix n s = s.
Proof.
  revert n. induction s as [|c s IH]; intros n; cbn [JsString.prefix JsString.length];
    [done|].
  destruct (JsString.units c) as [|[|u]] eqn:Hc; intros Hn.
  - by rewrite IH.
  - destruct n as [|n]; [lia|]. rewrite IH; [done|lia].
  - destruct n as [|[|n]]; [lia|lia|]. rewrite IH; [done|lia].
Qed.

Lemma for_of_text {S : Type} (text : S → string) (onBlock : Sdk.Block → S → Eff S) :
  (∀ b st w, ∃ st' w', onBlock b st w = (Normal st', w')
                       ∧ text st' = text st +:+ block_texts [b]) →
  ∀ l st w, ∃ st' w', for_of onBlock l st w = (Normal st', w')
                      ∧ text st' = text st +:+ block_texts l.
Proof.
  intros Hb l. induction l as [|b l IH]; intros st w; cbn [for_of].
  - exists st, w. split; [done|]. cbn. by rewrite string_app_nil_r.
  - destruct (Hb b st w) as (st1 & w1 & Hrun & Htext). unfold bind. rewrite Hrun.
    destruct (IH st1 w1) as (st2 & w2 & Hrun2 & Htext2).
    exists st2, w2. split; [done|]. rewrite Htext2, Htext, string_app_assoc.
    f_equal. destruct b; cbn; by rewrite ?string_app_nil_r.
Qed.

Lemma onMessage_text {S : Type} (text : S → string) (onBlock : Sdk.Block → S → Eff S) :
  (∀ b st w, ∃ st' w', onBlock b st w = (Normal st', w')
                       ∧ text st' = text st +:+ block_texts [b]) →
  ∀ msg st w, ∃ st' w', FeatureExecutor.onMessage onBlock msg st w = (Normal st', w')
                        ∧ text st' = text st +:+ message_text msg.
Proof.
  intros Hb msg st w. unfold FeatureExecutor.onMessage, message_text.
  destruct (Sdk.type msg =? "assistant")%string;
    [|exists st, w; by rewrite string_app_nil_r].
  destruct (Sdk.message_content msg) as [content|];
    [|exists st, w; by rewrite string_app_nil_r].
  by apply for_of_text.
Qed.

Lemma implementBlock_text (feature : FeatureExecutor.FeatureRef) (p : string)
    (b : Sdk.Block) (st : FeatureExecutor.LoopState) (w : World) :
  ∃ st' w', FeatureExecutor.implementBlock feature p b st w = (Normal st', w')
            ∧ FeatureExecutor.responseText st'
              = FeatureExecutor.responseText st +:+ block_texts [b].
Proof.
  destruct b as [text|name input|type]; cbn.
  - eexists _, _. split; [reflexivity|]. cbn. by rewrite string_app_nil_r.
  - destruct (FeatureExecutor.hasStartedToolUse st); cbn;
      eexists _, _; (split; [reflexivity|]); cbn; by rewrite string_app_nil_r.
  - eexists _, _. split; [reflexivity|]. by rewrite string_app_nil_r.
Qed.

Lemma plainBlock_text (feature : FeatureExecutor.FeatureRef) (p : string)
    (b : Sdk.Block) (text : string) (w : World) :
  ∃ text' w', FeatureExecutor.plainBlock feature p b text w = (Normal text', w')
              ∧ text' = text +:+ block_texts [b].
Proof.
  destruct b as [t|name input|type]; cbn.
  - eexists _, _. split; [reflexivity|]. by rewrite string_app_nil_r.
  - eexists _, _. split; [reflexivity|]. by rewrite string_app_nil_r.
  - eexists _, _. split; [reflexivity|]. by rewrite string_app_nil_r.
Qed.

(** What the loop has accumulated when it returns: the text of the
    messages it consumed, in order. *)
Lemma for_await_text {S : Type} (text : S → string) (server : McpServerFactory.McpServer)
    (body : Sdk.Message → S → Eff S) (ending : Sdk.StreamEnd) :
  (∀ msg st w, ∃ st' w', body msg st w = (Normal st', w')
                         ∧ text st' = text st +:+ message_text msg) →
  ∀ steps st w st' w',
    for_await server body steps ending st w = (Normal st', w') →
    text st' = text st +:+ consumed_text steps.
Proof.
  intros Hb steps. induction steps as [|step steps IH]; intros st w st' w' Hrun;
    cbn [for_await consumed_text] in *.
  - destruct ending; [|discriminate]. injection Hrun as <- <-.
    by rewrite string_app_nil_r.
  - destruct step as [isActive msg|toolName args].
    + destruct isActive; cbn [negb] in Hrun.
      * unfold bind in Hrun. destruct (Hb msg st w) as (st1 & w1 & Hrun1 & Htext1).
        rewrite Hrun1 in Hrun. rewrite (IH _ _ _ _ Hrun), Htext1.
        apply string_app_assoc.
      * injection Hrun as <- <-. by rewrite string_app_nil_r.
    + unfold bind in Hrun.
      destruct (McpServerFactory.callTool server toolName args w) as [[u|e] w1];
        [|discriminate].
      by apply (IH _ _ _ _ Hrun).
Qed.

(** The loop under the [try], keeping what it returned. *)
Ltac enter_loop_text p :=
  match goal with
  | |- context [try_catch (bind (for_await ?srv ?body ?steps ?ending ?st0) ?k) ?h ?w] =>
      let Hr := fresh "Hr" in
      let Hbody := fresh "Hbody" in
      assert (Hbody : ∀ msg st, Quiet (body msg st) ∧ Returns (body msg st))
        by (apply onMessage_spec; first [apply implementBlock_spec | apply plainBlock_spec]);
      destruct (for_await_spec p body Hbody steps ending st0 w) as [_ Hr];
      clear Hbody;
      pattern (try_catch (bind (for_await srv body steps ending st0) k) h w);
      apply wp_try_bind;
      [ let st := fresh "st" in let w1 := fresh "w" in let Hc := fresh "Hloop" in
        intros st w1 Hc; rewrite Hc in Hr; cbn [fst snd] in Hr; cbv beta
      | let e := fresh "e" in let w1 := fresh "w" in let Hc := fresh "Hloop" in
        intros e w1 Hc; rewrite Hc in Hr; cbn [fst snd] in Hr; cbv beta ]
  end.

(** When a run returns the outcome of its normal path, [message] is made of
    the text blocks of the assistant messages the loop consumed, in the order
    in which they arrived, cut after 500 UTF-16 code units: it has at most
    500 of them, and it is the whole text when the text has no more. *)
Theorem run_message (pb : FeatureExecutor.PromptBuilder)
    (q : Sdk.Request → Sdk.AgentStream) (entry : Entry)
    (feature : FeatureExecutor.FeatureRef) (p : string) (w : World) :
  raises_at_end (q (request_of pb entry feature p)) = false →
  ∃ o, (run_entry pb q entry feature p w).1 = Normal o
       ∧ FeatureExecutor.message o
         = JsString.prefix 500
             (consumed_text (Sdk.steps (q (request_of pb entry feature p))))
       ∧ (JsString.length (FeatureExecutor.message o) ≤ 500)%nat
       ∧ ((JsString.length (consumed_text (Sdk.steps (q (request_of pb entry feature p))))
           ≤ 500)%nat →
          FeatureExecutor.message o
          = consumed_text (Sdk.steps (q (request_of pb entry feature p)))).
Proof.
  intros Hno. unfold raises_at_end in Hno.
  destruct entry as [|previousContext|]; cbn [run_entry request_of] in *;
    [unfold FeatureExecutor.implementFeature
    |unfold FeatureExecutor.resumeFeatureWithContext
    |unfold FeatureExecutor.commitChangesOnly];
    cbv zeta;
    unfold FeatureExecutor.sendToRenderer, FeatureExecutor.writeToContextFile;
    repeat step; enter_loop_text p.
  - apply (for_await_text FeatureExecutor.responseText) in Hloop;
      [|apply onMessage_text, implementBlock_text].
    repeat step. unfold try_catch, ret. cbn [fst].
    eexists. split; [reflexivity|]. cbn [FeatureExecutor.message].
    rewrite Hloop. cbn [String.append].
    split; [done|split; [apply prefix_length|apply prefix_all]].
  - exfalso. destruct (Sdk.ending _); [by destruct Hr|].
    destruct (consumed_to_end _); [discriminate|by destruct Hr].
  - apply (for_await_text (fun s : string => s)) in Hloop;
      [|apply onMessage_text, plainBlock_text].
    repeat step. unfold try_catch, ret. cbn [fst].
    eexists. split; [reflexivity|]. cbn [FeatureExecutor.message].
    rewrite Hloop. cbn [String.append].
    split; [done|split; [apply prefix_length|apply prefix_all]].
  - exfalso. destruct (Sdk.ending _); [by destruct Hr|].
    destruct (consumed_to_end _); [discriminate|by destruct Hr].
  - apply (for_await_text (fun s : string => s)) in Hloop;
      [|apply onMessage_text, plainBlock_text].
    repeat step. unfold try_catch, ret. cbn [fst].
    eexists. split; [reflexivity|]. cbn [FeatureExecutor.message].
    rewrite Hloop. cbn [String.append].
    split; [done|split; [apply prefix_length|apply prefix_all]].
  - exfalso. destruct (Sdk.ending _); [by destruct Hr|].
    destruct (consumed_to_end _); [discriminate|by destruct Hr].
Qed.

(** A text with two characters of two bytes each is returned whole. *)
Lemma run_message_witness :
  ∃ o, (run_entry sample_promptBuilder
          (scripted {| Sdk.steps := [Sdk.yield true (assistant_text "Validé, prêt.")];
                       Sdk.ending := Sdk.exhausted |})
          CommitOnly sample_ref "/proj" (sample_world false)).1 = Normal o
       ∧ FeatureExecutor.message o = "Validé, prêt.".
Proof.
  destruct (run_message sample_promptBuilder
              (scripted {| Sdk.steps := [Sdk.yield true (assistant_text "Validé, prêt.")];
                           Sdk.ending := Sdk.exhausted |})
              CommitOnly sample_ref "/proj" (sample_world false)) as (o & Ho & _ & _ & Hm);
    [reflexivity|].
  exists o. split; [exact Ho|]. apply Hm. vm_compute. lia.
Defined.

Lemma setStatus_run (w : World) (p fid : string) (f : Feature)
    (s : McpServerFactory.AgentStatus) :
  StoreWf p (disk w) →
  disk w !! (p, fid) = Some f →
  faults w (op_readFile (featureJsonPath p fid)) = None →
  faults w (op_writeFile (featureJsonPath p fid)) = None →
  ∃ r w',
    setStatus p {| McpServerFactory.featureId := fid; McpServerFactory.status := s |} w
    = (Normal r, w')
    ∧ disk w'
      = <[(p, fid) :=
            <["status" :=
                JStr (if (McpServerFactory.status_string s =? "verified")%string
                         && strict_eq_true (f !! "skipTests")
                      then "waiting_approval"
                      else McpServerFactory.status_string s)]> f]> (disk w)
    ∧ faults w' = faults w.
Proof.
  intros Hwf Hd Hr Hw.
  unfold setStatus, McpServerFactory.UpdateFeatureStatus, try_catch.
  unfold bind at 1. cbn [effect McpServerFactory.featureId McpServerFactory.status].
  unfold bind at 1.
  match goal with
  | |- context [ElectronFeatureLoader.loadFeatures p ?w0] =>
      destruct (find_loadFeatures w0 p fid Hwf) as (features & Hload & Hfind)
  end.
  cbn [disk with_trace] in Hfind. rewrite Hd in Hfind.
  rewrite Hload, Hfind.
  destruct ((McpServerFactory.status_string s =? "verified")%string
            && strict_eq_true (f !! "skipTests"));
    unfold bind at 1; cbn [effect ret]; unfold bind at 1;
    (erewrite updateFeatureStatus_present; [|exact Hd|exact Hr|exact Hw]);
    cbn; eexists _, _; (split; [reflexivity|]); by cbn.
Qed.

Lemma for_await_app {S : Type} (server : McpServerFactory.McpServer)
    (body : Sdk.Message → S → Eff S) (pre rest : list Sdk.AgentStep)
    (ending : Sdk.StreamEnd) :
  consumed_to_end pre = true →
  ∀ st w,
    for_await server body (pre ++ rest) ending st w
    = bind (for_await server body pre Sdk.exhausted st)
           (fun st1 => for_await server body rest ending st1) w.
Proof.
  induction pre as [|step pre IH]; intros Hcons st w; [reflexivity|].
  cbn [for_await app]. cbn in Hcons. apply andb_true_iff in Hcons as [Hstep Hcons].
  destruct step as [isActive msg|toolName args].
  - subst isActive. cbn [negb]. unfold bind.
    destruct (body msg st w) as [[st1|e] w1]; [|reflexivity]. exact (IH Hcons st1 w1).
  - unfold bind.
    destruct (McpServerFactory.callTool server toolName args w) as [[u|e] w1];
      [|reflexivity].
    exact (IH Hcons st w1).
Qed.

(** The loop around one gateway call: the feature file ends with the
    status the gateway wrote. *)
Lemma for_await_one_call {S : Type} (p fid : string) (body : Sdk.Message → S → Eff S)
    (pre post : list Sdk.AgentStep) (s : McpServerFactory.AgentStatus)
    (f : Feature) (st : S) (w : World) :
  (∀ msg st, Quiet (body msg st) ∧ Returns (body msg st)) →
  (∀ msg st, KeepsDisk (body msg st)) →
  consumed_to_end pre = true →
  no_tool_calls pre = true →
  no_tool_calls post = true →
  StoreWf p (disk w) →
  disk w !! (p, fid) = Some f →
  faults w (op_readFile (featureJsonPath p fid)) = None →
  faults w (op_writeFile (featureJsonPath p fid)) = None →
  ∃ st' w',
    for_await (FeatureExecutor.featureToolsServer p) body
      (pre ++ Sdk.tool_call "UpdateFeatureStatus"
                {| McpServerFactory.featureId := fid; McpServerFactory.status := s |}
              :: post)
      Sdk.exhausted st w
    = (Normal st', w')
    ∧ disk w'
      = <[(p, fid) :=
            <["status" :=
                JStr (if (McpServerFactory.status_string s =? "verified")%string
                         && strict_eq_true (f !! "skipTests")
                      then "waiting_approval"
                      else McpServerFactory.status_string s)]> f]> (disk w)
    ∧ faults w' = faults w.
Proof.
  intros Hbody Hkeep Hcons Hpre Hpost Hwf Hd Hr Hw.
  rewrite (for_await_app _ _ _ _ _ Hcons). unfold bind at 1.
  destruct (for_await_spec p body Hbody pre Sdk.exhausted st w) as [_ [st1 Hst1]].
  destruct (KeepsDisk_for_await (FeatureExecutor.featureToolsServer p) body pre
              Sdk.exhausted Hkeep Hpre st w) as [Hd1 Hf1].
  destruct (for_await _ body pre Sdk.exhausted st w) as [r1 w1]. cbn [fst snd] in *.
  subst r1. cbn [for_await].
  change (McpServerFactory.callTool (FeatureExecutor.featureToolsServer p)
            "UpdateFeatureStatus"
            {| McpServerFactory.featureId := fid; McpServerFactory.status := s |})
    with (bind (setStatus p {| McpServerFactory.featureId := fid;
                               McpServerFactory.status := s |})
               (fun _ => ret tt)).
  destruct (setStatus_run w1 p fid f s) as (r & w2 & Hrun & Hd2 & Hf2);
    [by rewrite Hd1|by rewrite Hd1|by rewrite Hf1|by rewrite Hf1|].
  unfold bind at 1 2. rewrite Hrun. cbn [ret].
  destruct (for_await_spec p body Hbody post Sdk.exhausted st1 w2) as [_ [st3 Hst3]].
  destruct (KeepsDisk_for_await (FeatureExecutor.featureToolsServer p) body post
              Sdk.exhausted Hkeep Hpost st1 w2) as [Hd3 Hf3].
  destruct (for_await _ body post Sdk.exhausted st1 w2) as [r3 w3]. cbn [fst snd] in *.
  subst r3. exists st3, w3. split; [done|]. split; congruence.
Qed.

Lemma verification_passes_after_verified (f : Feature) (b : bool) :
  f !! "skipTests" = Some (JBool b) →
  FeatureExecutor.verification_passes
    (Some (<["status" := JStr (if b then "waiting_approval" else "verified")]> f))
  = Some (JBool true).
Proof.
  intros Hskip. unfold FeatureExecutor.verification_passes. cbn.
  rewrite lookup_insert_eq, lookup_insert_ne, Hskip; [|done].
  by destruct b.
Qed.

Lemma try_catch_bind_normal {A B : Type} (c : Eff A) (k : A → Eff B) (h : JsError → Eff B)
    (w w1 : World) (a : A) :
  c w = (Normal a, w1) → try_catch (bind c k) h w = try_catch (k a) h w1.
Proof. intros Hc. unfold try_catch, bind. by rewrite Hc. Qed.

(** What a completed primitive step did to the feature files and to the
    fault table: nothing. *)
Ltac step_facts_disk Hc :=
  let Hdk := fresh "Hdk" in
  let Hfl := fresh "Hfl" in
  pose proof (f_equal (fun r : Completion _ * World => disk r.2) Hc) as Hdk;
  pose proof (f_equal (fun r : Completion _ * World => faults r.2) Hc) as Hfl;
  cbn in Hdk, Hfl; symmetry in Hdk; symmetry in Hfl; clear Hc.

Ltac is_plain_step c :=
  lazymatch c with
  | effect _ => idtac
  | set_query _ => idtac
  | set_abortController _ => idtac
  end.

Ltac stepd :=
  match goal with
  | |- context [try_catch (bind ?c ?k) ?h ?w] =>
      is_plain_step c;
      pattern (try_catch (bind c k) h w); apply wp_try_bind;
      [ let a := fresh "a" in let w1 := fresh "w" in let Hc := fresh "Hc" in
        intros a w1 Hc; step_facts_disk Hc; cbv beta
      | let e := fresh "e" in let w1 := fresh "w" in let Hc := fresh "Hc" in
        intros e w1 Hc; exfalso; discriminate Hc ]
  | |- context [bind ?c ?k ?w] =>
      is_plain_step c;
      pattern (bind c k w); apply wp_bind;
      [ let a := fresh "a" in let w1 := fresh "w" in let Hc := fresh "Hc" in
        intros a w1 Hc; step_facts_disk Hc; cbv beta
      | let e := fresh "e" in let w1 := fresh "w" in let Hc := fresh "Hc" in
        intros e w1 Hc; exfalso; discriminate Hc ]
  end.

Ltac unrolld :=
  repeat match goal with
         | H : disk ?x = _ |- context [disk ?x] => rewrite H
         | H : faults ?x = _ |- context [faults ?x] => rewrite H
         end.

(** A run in which the agent marks the feature verified through the gateway
    and makes no other tool call, with a stream that is consumed to its end
    before the call and does not raise: the run returns with [passes] true,
    and the stored status is [verified], or [waiting_approval] when the
    feature has [skipTests]. *)
Theorem run_verified_through_gateway (pb : FeatureExecutor.PromptBuilder)
    (q : Sdk.Request → Sdk.AgentStream)
    (feature : FeatureExecutor.FeatureRef) (p : string) (w : World)
    (f : Feature) (skipTests : bool) (pre post : list Sdk.AgentStep) :
  q (request_of pb Implement feature p)
  = {| Sdk.steps :=
         pre ++ Sdk.tool_call "UpdateFeatureStatus"
                  {| McpServerFactory.featureId := FeatureExecutor.feature_id feature;
                     McpServerFactory.status := McpServerFactory.verified |}
               :: post;
       Sdk.ending := Sdk.exhausted |} →
  consumed_to_end pre = true →
  no_tool_calls pre = true →
  no_tool_calls post = true →
  StoreWf p (disk w) →
  disk w !! (p, FeatureExecutor.feature_id feature) = Some f →
  f !! "skipTests" = Some (JBool skipTests) →
  faults w (op_readFile (featureJsonPath p (FeatureExecutor.feature_id feature))) = None →
  faults w (op_writeFile (featureJsonPath p (FeatureExecutor.feature_id feature))) = None →
  ∃ o w',
    FeatureExecutor.implementFeature pb q feature p w = (Normal o, w')
    ∧ FeatureExecutor.passes o = Some (JBool true)
    ∧ disk w' !! (p, FeatureExecutor.feature_id feature)
      = Some (<["status" := JStr (if skipTests then "waiting_approval" else "verified")]> f).
Proof.
  intros Hq Hcons Hpre Hpost Hwf Hd Hskip Hr Hw. cbn [request_of] in Hq.
  unfold FeatureExecutor.implementFeature; cbv zeta.
  unfold FeatureExecutor.sendToRenderer, FeatureExecutor.writeToContextFile.
  rewrite Hq. cbn [Sdk.steps Sdk.ending].
  repeat stepd.
  match goal with
  | |- context [try_catch (bind (for_await _ ?body _ _ ?st0) _) _ ?w9] =>
      destruct (for_await_one_call p (FeatureExecutor.feature_id feature) body pre post
                  McpServerFactory.verified f st0 w9)
        as (st' & w' & Hloop & Hdl & Hfl');
        [apply onMessage_spec, implementBlock_spec
        |apply KeepsDisk_onMessage, KeepsDisk_implementBlock
        |exact Hcons|exact Hpre|exact Hpost
        |by unrolld|by unrolld|by unrolld|by unrolld|]
  end.
  rewrite (try_catch_bind_normal _ _ _ _ _ _ Hloop). cbv beta.
  repeat stepd.
  assert (Hstored : ∀ x, disk x = disk w' →
            disk x !! (p, FeatureExecutor.feature_id feature)
            = Some (<["status" := JStr (if skipTests then "waiting_approval" else "verified")]>
                      f)).
  { intros x ->. rewrite Hdl. rewrite lookup_insert_eq. rewrite Hskip. by destruct skipTests. }
  match goal with
  | |- context [try_catch (bind (ElectronFeatureLoader.loadFeatures p) _) _ ?wk] =>
      assert (Hdk' : disk wk = disk w') by (unrolld; reflexivity);
      destruct (find_loadFeatures wk p (FeatureExecutor.feature_id feature))
        as (features & Hload & Hfind);
        [rewrite Hdk', Hdl;
         intros k g Hk;
         destruct (decide (k = FeatureExecutor.feature_id feature)) as [->|Hne];
           [rewrite lookup_insert_eq in Hk; injection Hk as <-;
            rewrite lookup_insert_ne; [|done]; apply (Hwf _ _ Hd)
           |rewrite lookup_insert_ne in Hk; [|congruence];
            assert (Hk0 : disk w !! (p, k) = Some g) by (revert Hk; by unrolld);
            exact (Hwf _ _ Hk0)]
        |];
      rewrite (Hstored wk Hdk') in Hfind;
      rewrite (try_catch_bind_normal _ _ _ _ _ _ Hload); cbv beta
  end.
  repeat stepd.
  unfold try_catch, ret. eexists _, _. split; [reflexivity|].
  cbn [FeatureExecutor.passes]. rewrite Hfind.
  split; [by apply verification_passes_after_verified|].
  apply Hstored. by unrolld.
Qed.

Lemma run_verified_through_gateway_witness :
  ∃ o w',
    FeatureExecutor.implementFeature sample_promptBuilder
      (scripted
         {| Sdk.steps :=
              [Sdk.yield true (assistant_text "Implementing.")]
              ++ Sdk.tool_call "UpdateFeatureStatus" verified_args
              :: [Sdk.yield true (assistant_text "Done.")];
            Sdk.ending := Sdk.exhausted |})
      sample_ref "/proj" (sample_world true) = (Normal o, w')
    ∧ FeatureExecutor.passes o = Some (JBool true)
    ∧ disk w' !! ("/proj", "feature-1")
      = Some (<["status" := JStr "waiting_approval"]> (sample_feature true)).
Proof.
  apply (run_verified_through_gateway sample_promptBuilder _ sample_ref "/proj"
           (sample_world true) (sample_feature true) true
           [Sdk.yield true (assistant_text "Implementing.")]
           [Sdk.yield true (assistant_text "Done.")]);
    try reflexivity.
  apply sample_world_wf.
Defined.

(* ===================================================================== *)
(** ** More on the running-agents registry *)
(* ===================================================================== *)

(** What holds of the map in every state the module reaches: one entry per
    key, and each entry carries its key as [featureId]. *)
Lemma registry_after_invariant (basename : string → string) (calls : list RegistryCall) :
  List.NoDup (map fst (RunningAgents.runningAgentsMap (registry_after basename calls)))
  ∧ Forall (fun kv => RunningAgents.featureId (snd kv) = fst kv)
      (RunningAgents.runningAgentsMap (registry_after basename calls)).
Proof.
  unfold registry_after.
  enough (H : ∀ s,
             List.NoDup (map fst (RunningAgents.runningAgentsMap s))
             ∧ Forall (fun kv => RunningAgents.featureId (snd kv) = fst kv)
                 (RunningAgents.runningAgentsMap s) →
             List.NoDup (map fst (RunningAgents.runningAgentsMap
                                    (fold_left (registry_serve basename) calls s)))
             ∧ Forall (fun kv => RunningAgents.featureId (snd kv) = fst kv)
                 (RunningAgents.runningAgentsMap
                    (fold_left (registry_serve basename) calls s))).
  { apply H. split; constructor. }
  induction calls as [|c calls IH]; intros s [Hnd Hall]; [by split|].
  cbn [fold_left]. apply IH. destruct c as [fid p auto|fid|running]; cbn.
  - split; [by apply Map_set_NoDup|].
    clear Hnd. induction (RunningAgents.runningAgentsMap s) as [|[k v] m IHm]; cbn.
    + by repeat constructor.
    + inversion Hall as [|? ? Hkv Hall']; subst.
      destruct (String.eqb_spec k fid); constructor; auto.
  - split; [by apply Map_delete_NoDup|].
    clear Hnd. induction (RunningAgents.runningAgentsMap s) as [|[k v] m IHm]; cbn;
      [constructor|].
    inversion Hall as [|? ? Hkv Hall']; subst.
    destruct (String.eqb_spec k fid); [done|constructor; auto].
  - by split.
Qed.

Lemma isAgentRunning_In (fid : string) (s : RunningAgents.State) :
  RunningAgents.isAgentRunning fid s = true
  ↔ In fid (map fst (RunningAgents.runningAgentsMap s)).
Proof. apply Map_has_In. Qed.

Lemma bool_eq_iff (a b : bool) : (a = true ↔ b = true) → a = b.
Proof.
  destruct a, b; intros [H1 H2]; try reflexivity.
  - symmetry. by apply H1.
  - by apply H2.
Qed.

(** Registering and unregistering, as seen through [isAgentRunning]: after
    a registration the feature is running, after an unregistration it is
    not, and neither call changes the answer for any other feature. This
    holds in every state the module reaches. *)
Theorem register_unregister_isAgentRunning (basename : string → string)
    (calls : list RegistryCall) (fid fid' p : string) (auto : bool) :
  let s := registry_after basename calls in
  RunningAgents.isAgentRunning fid
    (RunningAgents.registerRunningAgent basename fid p auto s) = true
  ∧ RunningAgents.isAgentRunning fid (RunningAgents.unregisterRunningAgent fid s) = false
  ∧ (fid' ≠ fid →
     RunningAgents.isAgentRunning fid'
       (RunningAgents.registerRunningAgent basename fid p auto s)
     = RunningAgents.isAgentRunning fid' s
     ∧ RunningAgents.isAgentRunning fid' (RunningAgents.unregisterRunningAgent fid s)
       = RunningAgents.isAgentRunning fid' s).
Proof.
  intros s. destruct (registry_after_invariant basename calls) as [Hnd _]. fold s in Hnd.
  split; [|split].
  - apply isAgentRunning_In. cbn. apply Map_set_keys. by left.
  - apply not_true_is_false. rewrite isAgentRunning_In. cbn.
    rewrite (Map_delete_keys _ _ _ Hnd). by intros [Hne _].
  - intros Hne. split; apply bool_eq_iff; rewrite !isAgentRunning_In; cbn.
    + rewrite Map_set_keys. tauto.
    + rewrite (Map_delete_keys _ _ _ Hnd). tauto.
Qed.

Lemma Map_set_length {V : Type} (k : string) (v : V) (m : list (string * V)) :
  length (RunningAgents.Map_set k v m)
  = if RunningAgents.Map_has k m then length m else S (length m).
Proof.
  induction m as [|[k0 v0] m IH]; [reflexivity|].
  cbn. destruct (String.eqb_spec k0 k); cbn; [reflexivity|].
  rewrite IH. unfold RunningAgents.Map_has. by destruct (existsb _ m).
Qed.

Lemma Map_delete_length {V : Type} (k : string) (m : list (string * V)) :
  length (RunningAgents.Map_delete k m)
  = if RunningAgents.Map_has k m then pred (length m) else length m.
Proof.
  induction m as [|[k0 v0] m IH]; [reflexivity|].
  cbn. destruct (String.eqb_spec k0 k); cbn; [reflexivity|].
  rewrite IH. unfold RunningAgents.Map_has.
  destruct (existsb _ m) eqn:Hex; [|reflexivity].
  destruct m; [discriminate|reflexivity].
Qed.

(** The count of running agents counts features, not registrations:
    registering a feature that is already running leaves it as it is,
    registering another one adds one; unregistering a running feature takes
    one off, unregistering one that is not running changes nothing. *)
Theorem getRunningAgentsCount_steps (basename : string → string)
    (s : RunningAgents.State) (fid p : string) (auto : bool) :
  RunningAgents.getRunningAgentsCount
    (RunningAgents.registerRunningAgent basename fid p auto s)
  = (if RunningAgents.isAgentRunning fid s
     then RunningAgents.getRunningAgentsCount s
     else S (RunningAgents.getRunningAgentsCount s))
  ∧ RunningAgents.getRunningAgentsCount (RunningAgents.unregisterRunningAgent fid s)
    = (if RunningAgents.isAgentRunning fid s
       then pred (RunningAgents.getRunningAgentsCount s)
       else RunningAgents.getRunningAgentsCount s).
Proof.
  split.
  - apply Map_set_length.
  - apply Map_delete_length.
Qed.

Lemma register_unregister_isAgentRunning_witness :
  RunningAgents.isAgentRunning "feature-2"
    (RunningAgents.unregisterRunningAgent "feature-1"
       (registry_after sample_basename
          [reg_register "feature-1" "/proj" true; reg_register "feature-2" "/proj" false]))
  = RunningAgents.isAgentRunning "feature-2"
      (registry_after sample_basename
         [reg_register "feature-1" "/proj" true; reg_register "feature-2" "/proj" false]).
Proof.
  apply (register_unregister_isAgentRunning sample_basename
           [reg_register "feature-1" "/proj" true; reg_register "feature-2" "/proj" false]
           "feature-1" "feature-2" "/proj" true).
  discriminate.
Defined.

Lemma Map_set_In {V : Type} (k : string) (v v' : V) (m : list (string * V)) :
  List.NoDup (map fst m) →
  In (k, v') (RunningAgents.Map_set k v m) → v' = v.
Proof.
  induction m as [|[k0 v0] m IH]; cbn; intros Hnd Hin.
  - destruct Hin as [Heq|[]]. by injection Heq.
  - inversion Hnd as [|? ? Hnotin Hnd']; subst.
    destruct (String.eqb_spec k0 k) as [->|Hne].
    + destruct Hin as [Heq|Hin]; [by injection Heq|].
      exfalso. apply Hnotin. apply in_map_iff. by exists (k, v').
    + destruct Hin as [Heq|Hin]; [by injection Heq|by apply IH].
Qed.

Lemma Map_set_In_new {V : Type} (k : string) (v : V) (m : list (string * V)) :
  In (k, v) (RunningAgents.Map_set k v m).
Proof.
  induction m as [|[k0 v0] m IH]; cbn; [by left|].
  destruct (String.eqb_spec k0 k); [by left|by right].
Qed.

(** The listing of the [GET /] route, in every state the module reaches: it
    has exactly one entry for each running feature and no other, so
    [totalCount] is the number of running features; and after a registration
    the entry of the feature is the one just registered, with
    [projectName] the base name of the project path: a second registration
    of a running feature replaces its entry. *)
Theorem runningAgents_listing (basename : string → string) (calls : list RegistryCall)
    (fid p : string) (auto : bool) :
  let s := registry_after basename calls in
  List.NoDup (map RunningAgents.featureId (RunningAgents.runningAgents s))
  ∧ (∀ fid', RunningAgents.isAgentRunning fid' s = true
             ↔ In fid' (map RunningAgents.featureId (RunningAgents.runningAgents s)))
  ∧ length (RunningAgents.runningAgents s) = RunningAgents.getRunningAgentsCount s
  ∧ ∀ a, In a (RunningAgents.runningAgents
                 (RunningAgents.registerRunningAgent basename fid p auto s)) →
         RunningAgents.featureId a = fid →
         a = {| RunningAgents.featureId := fid;
                RunningAgents.projectPath := p;
                RunningAgents.projectName := basename p;
                RunningAgents.isAutoMode := auto |}.
Proof.
  intros s.
  destruct (registry_after_invariant basename calls) as [Hnd Hall]. fold s in Hnd, Hall.
  assert (Hkeys : ∀ m : list (string * RunningAgents.RunningAgent),
            Forall (fun kv => RunningAgents.featureId (snd kv) = fst kv) m →
            map RunningAgents.featureId (map snd m) = map fst m).
  { induction m as [|[k v] m IHm]; intros Hm; [reflexivity|].
    inversion Hm as [|? ? Hkv Hm']; subst. cbn in *. by rewrite Hkv, IHm. }
  unfold RunningAgents.runningAgents. rewrite (Hkeys _ Hall).
  split; [exact Hnd|]. split; [intros fid'; apply isAgentRunning_In|].
  split; [apply length_map|].
  intros a Hin Ha.
  destruct (registry_after_invariant basename
              (calls ++ [reg_register fid p auto])) as [_ Hall'].
  unfold registry_after in Hall'. rewrite fold_left_app in Hall'. cbn in Hall'.
  fold (registry_after basename calls) in Hall'. fold s in Hall'.
  apply in_map_iff in Hin as ([k v] & Hv & Hin). cbn in Hv. subst v.
  cbn in Hin.
  assert (Hk : k = fid).
  { rewrite Forall_forall in Hall'. specialize (Hall' (k, a)).
    rewrite <- Ha. symmetry. apply Hall'. by apply list_elem_of_In. }
  subst k. by apply (Map_set_In _ _ _ _ Hnd Hin).
Qed.

(* ===================================================================== *)
(** ** More on the event emitter *)
(* ===================================================================== *)

Lemma emit_loop_log (type : Events.EventType) (payload : JValue)
    (subs : list Events.EventCallback) :
  ∀ log, Events.emit_loop type payload subs log
         = (log ++ Events.emit_loop type payload subs [])%list.
Proof.
  induction subs as [|cb subs IH]; intros log; cbn [Events.emit_loop].
  - by rewrite app_nil_r.
  - destruct (Events.call cb type payload) as [error|]; cbn [app].
    + rewrite (IH ((log ++ _) ++ _)%list), (IH [_; _]). by rewrite <- !app_assoc.
    + rewrite (IH (log ++ _)%list), (IH [_]). by rewrite <- !app_assoc.
Qed.

Lemma emitted_invoked (type : Events.EventType) (payload : JValue) (em : Events.Emitter) :
  Events.invoked (emitted type payload em) = map Events.ref (Events.subscribers em).
Proof.
  unfold emitted. by destruct (emit_loop_spec type payload (Events.subscribers em) []).
Qed.

Lemma Set_add_NoDup (cb : Events.EventCallback) (s : list Events.EventCallback) :
  NoDup (map Events.ref s) → NoDup (map Events.ref (Events.Set_add cb s)).
Proof.
  intros Hnd. unfold Events.Set_add.
  destruct (Events.Set_has cb s) eqn:Hhas; [exact Hnd|].
  rewrite map_app. cbn. apply NoDup_app. split; [exact Hnd|].
  split; [|apply NoDup_singleton].
  intros r Hin Hr. apply list_elem_of_singleton in Hr. subst r.
  apply list_elem_of_fmap in Hin as (c & Href & Hc).
  apply not_true_iff_false in Hhas. apply Hhas.
  apply existsb_exists. exists c. split; [by apply list_elem_of_In|].
  apply Nat.eqb_eq. done.
Qed.

Lemma Set_delete_refs (cb : Events.EventCallback) (s : list Events.EventCallback) :
  map Events.ref (Events.Set_delete cb s)
  = List.filter (fun r => negb (Nat.eqb r (Events.ref cb))) (map Events.ref s).
Proof.
  unfold Events.Set_delete.
  induction s as [|c s IH]; [reflexivity|].
  cbn [List.filter map].
  destruct (Nat.eqb (Events.ref c) (Events.ref cb)); cbn [negb map]; by rewrite IH.
Qed.

Lemma bus_after_NoDup (calls : list BusCall) :
  NoDup (map Events.ref (Events.subscribers (bus_after calls))).
Proof.
  unfold bus_after.
  enough (H : ∀ em, NoDup (map Events.ref (Events.subscribers em)) →
                    NoDup (map Events.ref
                             (Events.subscribers (fold_left bus_serve calls em)))).
  { apply H. constructor. }
  induction calls as [|c calls IH]; intros em Hnd; [exact Hnd|].
  cbn [fold_left]. apply IH. destruct c as [cb|cb|type payload]; cbn.
  - by apply Set_add_NoDup.
  - rewrite Set_delete_refs. apply NoDup_ListNoDup, List.NoDup_filter.
    by apply NoDup_ListNoDup.
  - exact Hnd.
Qed.

(** An [emit] appends to the effects what the subscribers of the moment
    produce; it calls no callback twice, however often that callback was
    subscribed: subscribing a callback that is subscribed changes nothing,
    and after a subscription the callback is called exactly once per
    [emit]. This holds for every emitter, whatever calls were made on it. *)
Theorem subscribe_is_idempotent (calls : list BusCall) (cb : Events.EventCallback)
    (type : Events.EventType) (payload : JValue) :
  let em := bus_after calls in
  Events.effects (Events.emit type payload em)
  = (Events.effects em ++ emitted type payload em)%list
  ∧ NoDup (Events.invoked (emitted type payload em))
  ∧ Events.subscribe cb (Events.subscribe cb em) = Events.subscribe cb em
  ∧ count_occ Nat.eq_dec
      (Events.invoked (emitted type payload (Events.subscribe cb em))) (Events.ref cb)
    = 1%nat.
Proof.
  intros em. pose proof (bus_after_NoDup calls) as Hnd. fold em in Hnd.
  split; [apply emit_loop_log|].
  split; [by rewrite emitted_invoked|].
  assert (Hhas : Events.Set_has cb (Events.subscribers (Events.subscribe cb em)) = true).
  { cbn. unfold Events.Set_add.
    destruct (Events.Set_has cb (Events.subscribers em)) eqn:Hhas; [exact Hhas|].
    unfold Events.Set_has. rewrite existsb_app. cbn. rewrite Nat.eqb_refl.
    by rewrite orb_true_r. }
  split.
  - unfold Events.subscribe at 1. unfold Events.Set_add. by rewrite Hhas.
  - rewrite emitted_invoked.
    apply NoDup_count_occ'.
    + apply NoDup_ListNoDup. cbn. by apply Set_add_NoDup.
    + apply existsb_exists in Hhas as (c & Hin & Heq). apply Nat.eqb_eq in Heq.
      rewrite <- Heq. by apply in_map.
Qed.

(** After [unsubscribe] (the function [subscribe] returned) the callback is
    not called any more, and the other subscribers are still called, in the
    same order; unsubscribing a callback that is not subscribed changes
    nothing. *)
Theorem unsubscribe_stops_delivery (calls : list BusCall) (cb : Events.EventCallback)
    (type : Events.EventType) (payload : JValue) :
  let em := bus_after calls in
  ¬ In (Events.ref cb) (Events.invoked (emitted type payload (Events.unsubscribe cb em)))
  ∧ Events.invoked (emitted type payload (Events.unsubscribe cb em))
    = List.filter (fun r => negb (Nat.eqb r (Events.ref cb)))
        (Events.invoked (emitted type payload em))
  ∧ (Events.Set_has cb (Events.subscribers em) = false → Events.unsubscribe cb em = em).
Proof.
  intros em. rewrite !emitted_invoked. cbn. rewrite Set_delete_refs.
  split; [|split; [reflexivity|]].
  - rewrite filter_In. intros [_ Hne]. by rewrite Nat.eqb_refl in Hne.
  - intros Hhas. unfold Events.unsubscribe, Events.Set_delete.
    destruct em as [subs effs]. cbn in *. f_equal.
    induction subs as [|c subs IH]; [reflexivity|].
    cbn in *. apply orb_false_iff in Hhas as [Hc Hrest]. rewrite Hc. cbn.
    by rewrite IH.
Qed.

Lemma unsubscribe_stops_delivery_witness :
  Events.unsubscribe (well_behaved 7)
    (bus_after [bus_subscribe (well_behaved 1); bus_subscribe (always_throws 2)])
  = bus_after [bus_subscribe (well_behaved 1); bus_subscribe (always_throws 2)].
Proof.
  apply (unsubscribe_stops_delivery
           [bus_subscribe (well_behaved 1); bus_subscribe (always_throws 2)]
           (well_behaved 7) Events.feature_progress JNull).
  reflexivity.
Defined.


Lemma deleteAgentOutput_result_witness :
  ∃ fs',
    AgentOutput.deleteAgentOutput "/proj" "feature-1" no_outputs = (Normal tt, fs')
    ∧ fs' = no_outputs.
Proof.
  destruct (deleteAgentOutput_result no_outputs "/proj" "feature-1")
    as (fs' & Hrun & _ & _ & Hsame).
  exists fs'. split; [exact Hrun|]. apply Hsame. reflexivity.
Defined.
